(** * Replay engine and command history of the HippoCamp WebUI

    A shallow embedding of the replay scheduling engine and of the
    command history bus of [docker/webui/app.py], with the properties the
    specification states about them.

    Conventions of the embedding.
    - JSON values are the values [json.load] returns: [None], booleans,
      integers, floats, strings, lists and dicts.  A finite float is
      modelled by the rational it denotes, without rounding; [inf],
      [-inf] and [nan] are values of their own.
    - A Python [dict] is an association list in insertion order; every
      dict Python builds has pairwise distinct keys, and the operations
      below keep them so.
    - A raised exception is the [Raise] outcome, carrying [str(e)].
    - The module-level globals ([replay_state], [command_history],
      [replay_connected_clients]) and the spawned worker threads form the
      [machine]; code that reads or writes them is written in a small
      state/output/exception monad.  [socketio.emit] is the output.
    - What the process does not define itself (the file system, the
      clock, [float()] of strings, regular expressions, ...) is collected
      in the [runtime] record. *)

From Stdlib Require Import List String ZArith QArith Qabs Bool Arith Lia
  Permutation Sorted DecimalString.
Import ListNotations.
Close Scope Q_scope.
Open Scope string_scope.
Open Scope list_scope.

Set Implicit Arguments.

(** ** Values *)

(** A Python [float]: a finite value, or one of [inf], [-inf] and [nan].
    [json.load] returns the latter for the literals [Infinity],
    [-Infinity] and [NaN], and for numbers beyond the range such as
    [1e400]. *)
Inductive pyfloat : Type :=
| Fin (q : Q)
| PosInf
| NegInf
| NaN.

#[local] Unset Elimination Schemes.
Inductive json : Type :=
| JNull
| JBool (b : bool)
| JInt (z : Z)
| JFloat (f : pyfloat)
| JStr (s : string)
| JArr (items : list json)
| JObj (fields : list (string * json)).
#[local] Set Elimination Schemes.

Definition pydict := list (string * json).

Inductive outcome (A : Type) : Type :=
| Ok (a : A)
| Raise (msg : string).
Arguments Ok {A} a.
Arguments Raise {A} msg.

(** One reading of [datetime.now(timezone.utc)]: its [isoformat()] and
    [int(now.timestamp() * 1000)]. *)
Record instant := { iso : string; ms : Z }.

(** ** Dict operations *)

(** [d.get(k)], [None] when the key is absent. *)
Fixpoint dict_get (k : string) (d : pydict) : option json :=
  match d with
  | [] => None
  | (k', v) :: rest => if String.eqb k k' then Some v else dict_get k rest
  end.

(** [d.get(k, dflt)] *)
Definition dict_get_default (k : string) (d : pydict) (dflt : json) : json :=
  match dict_get k d with Some v => v | None => dflt end.

(** [k in d] *)
Definition dict_contains (k : string) (d : pydict) : bool :=
  match dict_get k d with Some _ => true | None => false end.

(** [d[k] = v]: the value is replaced in place, a new key goes last. *)
Fixpoint dict_set (k : string) (v : json) (d : pydict) : pydict :=
  match d with
  | [] => [(k, v)]
  | (k', v') :: rest =>
      if String.eqb k k' then (k', v) :: rest else (k', v') :: dict_set k v rest
  end.

(** [d.update(other)] *)
Definition dict_update (d other : pydict) : pydict :=
  fold_left (fun acc kv => dict_set (fst kv) (snd kv) acc) other d.

(** [d.pop(k, None)] *)
Fixpoint dict_pop (k : string) (d : pydict) : pydict :=
  match d with
  | [] => []
  | (k', v') :: rest =>
      if String.eqb k k' then rest else (k', v') :: dict_pop k rest
  end.

(** [d.setdefault(k, v)] *)
Definition dict_setdefault (k : string) (v : json) (d : pydict) : pydict :=
  if dict_contains k d then d else dict_set k v d.

(** ** Floats *)

(** How two floats compare; [None] when one of them is [nan], which is
    neither below, nor equal to, nor above anything. *)
Definition fcompare (a b : pyfloat) : option comparison :=
  match a with
  | NaN => None
  | Fin x =>
      match b with
      | NaN => None
      | Fin y => Some (x ?= y)%Q
      | PosInf => Some Lt
      | NegInf => Some Gt
      end
  | PosInf =>
      match b with NaN => None | PosInf => Some Eq | _ => Some Gt end
  | NegInf =>
      match b with NaN => None | NegInf => Some Eq | _ => Some Lt end
  end.

(** [a < b], [a <= b] and [a == b] *)
Definition fltb (a b : pyfloat) : bool :=
  match fcompare a b with Some Lt => true | _ => false end.

Definition fleb (a b : pyfloat) : bool :=
  match fcompare a b with Some Lt | Some Eq => true | _ => false end.

Definition feqb (a b : pyfloat) : bool :=
  match fcompare a b with Some Eq => true | _ => false end.

(** [bool(x)]: every float but zero is true, [nan] too. *)
Definition float_truthy (x : pyfloat) : bool :=
  match x with
  | Fin q => negb (Qeq_bool q 0)
  | _ => true
  end.

(** [a - b] *)
Definition fsub (a b : pyfloat) : pyfloat :=
  match a, b with
  | NaN, _ | _, NaN => NaN
  | Fin x, Fin y => Fin (x - y)
  | Fin _, PosInf => NegInf
  | Fin _, NegInf => PosInf
  | PosInf, PosInf => NaN
  | PosInf, _ => PosInf
  | NegInf, NegInf => NaN
  | NegInf, _ => NegInf
  end.

(** [a / b] for a divisor that is not zero; the one division of the
    program, at line 721, divides by at least 0.05. *)
Definition fdiv (a b : pyfloat) : pyfloat :=
  match a, b with
  | NaN, _ | _, NaN => NaN
  | Fin x, Fin y => Fin (x / y)
  | Fin _, _ => Fin 0
  | PosInf, Fin y => if Qle_bool 0 y then PosInf else NegInf
  | NegInf, Fin y => if Qle_bool 0 y then NegInf else PosInf
  | _, _ => NaN
  end.

(** Python truthiness, [bool(v)]. *)
Definition truthy (v : json) : bool :=
  match v with
  | JNull => false
  | JBool b => b
  | JInt z => negb (z =? 0)%Z
  | JFloat x => float_truthy x
  | JStr s => negb (String.eqb s "")
  | JArr items => match items with [] => false | _ => true end
  | JObj fields => match fields with [] => false | _ => true end
  end.

(** [v is None] *)
Definition is_none (v : json) : bool :=
  match v with JNull => true | _ => false end.

(** [max(a, b)] on floats: the first argument unless the second is
    strictly greater, so that [max(a, nan)] is [a]. *)
Definition py_max (a b : pyfloat) : pyfloat :=
  if fltb a b then b else a.

(** The longest delay [time.sleep] accepts: it converts the seconds to
    nanoseconds in a signed 64-bit integer. *)
Definition SLEEP_MAX : Q := 9223372036854775808 # 1000000000.

(** [time.sleep(secs)]: what it raises; a delay it accepts passes and
    changes nothing the model holds. *)
Definition time_sleep (secs : pyfloat) : outcome unit :=
  match secs with
  | NaN => Raise "Invalid value NaN (not a number)"
  | PosInf | NegInf => Raise "timestamp too large to convert to C _PyTime_t"
  | Fin q =>
      if Qle_bool SLEEP_MAX (Qabs q)
      then Raise "timestamp too large to convert to C _PyTime_t"
      else if Qle_bool 0 q then Ok tt
      else Raise "sleep length must be non-negative"
  end.

(** ** The runtime *)

Record runtime := {
  (** [float(n)] of an integer; [None] is [OverflowError] *)
  float_of_int : Z -> option Q;
  (** [float(s)] of a string, which can be [inf] or [nan]; [None] is
      [ValueError] *)
  float_of_str : string -> option pyfloat;
  (** [int(s)] of a string; [None] is [ValueError] *)
  int_of_str : string -> option Z;
  (** [str(v)] of a value that is not a string *)
  py_repr : json -> string;
  (** [s.strip()] *)
  str_strip : string -> string;
  (** [GREP_COMMAND_RE.search(s)] found a match *)
  grep_command_re_search : string -> bool;
  (** [json.load(open(path))]: the parsed document, or the exception of
      [open] or of the parser *)
  read_json : string -> outcome json;
  (** [_resolve_replay_events_path], as [str] of the resolved path *)
  resolve_path : string -> option string;
  (** successive readings of the wall clock *)
  clock : nat -> instant;
  (** [time.perf_counter() - started] as the worker of epoch [sid] reads
      it before the event of index [idx], in nanoseconds; the counter
      never goes back *)
  perf_elapsed_ns : Z -> nat -> N;
  REPLAY_DEFAULT_EVENTS_PATH : string;
  REPLAY_DEFAULT_SPEED : pyfloat;
  REPLAY_NO_CLIENT_GATE : bool
}.

Definition MAX_HISTORY : nat := 100.

Section Conversions.

Variable R : runtime.

(** [float(v)]; [None] when Python raises ([TypeError], [ValueError],
    [OverflowError]).  A float is returned as it is, [nan] and [inf]
    included. *)
Definition py_float (v : json) : option pyfloat :=
  match v with
  | JNull => None
  | JBool b => Some (Fin (if b then 1%Q else 0%Q))
  | JInt z => option_map Fin (float_of_int R z)
  | JFloat x => Some x
  | JStr s => float_of_str R s
  | JArr _ => None
  | JObj _ => None
  end.

(** Truncation towards zero, [int(x)] of a finite float. *)
Definition Qtrunc (q : Q) : Z := Z.quot (Qnum q) (Z.pos (Qden q)).

(** What [int(v)] does: it returns, or raises [TypeError] or [ValueError],
    or raises [OverflowError] (on an infinite float). *)
Inductive int_result : Type :=
| Int_value (z : Z)
| Int_type_or_value_error
| Int_overflow_error.

Definition py_int (v : json) : int_result :=
  match v with
  | JNull => Int_type_or_value_error
  | JBool b => Int_value (if b then 1%Z else 0%Z)
  | JInt z => Int_value z
  | JFloat (Fin q) => Int_value (Qtrunc q)
  | JFloat NaN => Int_type_or_value_error
  | JFloat _ => Int_overflow_error
  | JStr s =>
      match int_of_str R s with
      | Some z => Int_value z
      | None => Int_type_or_value_error
      end
  | JArr _ => Int_type_or_value_error
  | JObj _ => Int_type_or_value_error
  end.

(** [str(v)] *)
Definition py_str (v : json) : string :=
  match v with
  | JStr s => s
  | _ => py_repr R v
  end.

(** ** Event loader ([_load_replay_events]) *)

(** Lines 643-647: the copy of one record with its timestamp made a
    float, [0.0] when [float()] raises. *)
Definition normalize_event (event : pydict) : pydict :=
  let ts :=
    match py_float (dict_get_default "timestamp" event (JFloat (Fin 0))) with
    | Some x => x
    | None => Fin 0
    end in
  dict_set "timestamp" (JFloat ts) event.

(** Lines 639-648: the loop over [enumerate(payload)], from index [idx];
    an entry that is not a dict is skipped. *)
Fixpoint index_events (idx : nat) (payload : list json) : list (nat * pydict) :=
  match payload with
  | [] => []
  | JObj event :: rest => (idx, normalize_event event) :: index_events (S idx) rest
  | _ :: rest => index_events (S idx) rest
  end.

End Conversions.

(** [row[1].get('timestamp', 0.0)]: after [normalize_event] the value is
    always a float. *)
Definition event_timestamp (event : pydict) : pyfloat :=
  match dict_get_default "timestamp" event (JFloat (Fin 0)) with
  | JFloat x => x
  | _ => Fin 0
  end.

(** The sort key of line 650. *)
Definition sort_key (row : nat * pydict) : pyfloat * nat :=
  (event_timestamp (snd row), fst row).

(** [a < b] on the key tuples: the first components decide unless they
    are equal.  A [nan] is equal to nothing and below nothing, so a key
    with a [nan] is never below another and no other is below it.  (Tuple
    comparison takes one and the same object for equal, and [json.load]
    returns one object for every [NaN] literal; but the sort only ever
    asks whether a row of greater index is below one of smaller index,
    and there the answer is no either way.) *)
Definition key_ltb (a b : pyfloat * nat) : bool :=
  match fcompare (fst a) (fst b) with
  | Some Lt => true
  | Some Eq => (snd a <? snd b)%nat
  | _ => false
  end.

Definition row_ltb (x y : nat * pydict) : bool :=
  key_ltb (sort_key x) (sort_key y).

(** [list.sort(key=...)], as CPython (3.8 to 3.12, [listobject.c]) sorts a
    list of fewer than 64 rows: [count_run] finds the run the list begins
    with, ascending or strictly descending, a descending run is reversed,
    and [binarysort] inserts the remaining rows one by one, each at the
    place a binary search over the sorted part finds.  Only [<] is asked
    of the keys.  A longer list is cut into such runs, which are then
    merged; the result is the same wherever the order of the keys is
    total, that is when no timestamp is [nan]. *)

(** The rows of [rest] that go on an ascending run ending with [prev]. *)
Fixpoint run_ascending (prev : nat * pydict) (rest : list (nat * pydict))
  : nat :=
  match rest with
  | [] => 0
  | x :: rest' => if row_ltb x prev then 0 else S (run_ascending x rest')
  end.

(** The rows of [rest] that go on a strictly descending run. *)
Fixpoint run_descending (prev : nat * pydict) (rest : list (nat * pydict))
  : nat :=
  match rest with
  | [] => 0
  | x :: rest' => if row_ltb x prev then S (run_descending x rest') else 0
  end.

(** [count_run]: the length of the first run and whether it descends. *)
Definition count_run (rows : list (nat * pydict)) : nat * bool :=
  match rows with
  | [] => (0, false)
  | [x] => (1, false)
  | x :: y :: rest =>
      if row_ltb y x then (2 + run_descending y rest, true)
      else (2 + run_ascending y rest, false)
  end.

(** The binary search of [binarysort] for the place of [pivot] among
    [sorted], between [l] and [r]; [fuel] bounds the halvings. *)
Fixpoint bisect (fuel : nat) (pivot : nat * pydict)
  (sorted : list (nat * pydict)) (l r : nat) : nat :=
  match fuel with
  | 0 => l
  | S fuel =>
      if (l <? r)%nat then
        let p := l + (r - l) / 2 in
        match nth_error sorted p with
        | Some y =>
            if row_ltb pivot y then bisect fuel pivot sorted l p
            else bisect fuel pivot sorted (S p) r
        | None => l
        end
      else l
  end.

(** One round of [binarysort]: [pivot] is put at its place. *)
Definition binary_insert (sorted : list (nat * pydict)) (pivot : nat * pydict)
  : list (nat * pydict) :=
  let l := bisect (List.length sorted) pivot sorted 0 (List.length sorted) in
  firstn l sorted ++ pivot :: skipn l sorted.

Definition sort_rows (rows : list (nat * pydict)) : list (nat * pydict) :=
  let (n, descending) := count_run rows in
  let run := firstn n rows in
  let run := if descending then rev run else run in
  fold_left binary_insert (skipn n rows) run.

Section Loader.

Variable R : runtime.

(** Lines 631-637: the array of records of the parsed document, bare or
    under the key [events] or [data]. *)
Definition payload_records (payload : json) : outcome (list json) :=
  let payload :=
    match payload with
    | JObj d =>
        match dict_get "events" d with
        | Some (JArr l) => JArr l
        | _ =>
            match dict_get "data" d with
            | Some (JArr l) => JArr l
            | _ => payload
            end
        end
    | _ => payload
    end in
  match payload with
  | JArr l => Ok l
  | _ => Raise "events file must be a JSON array"
  end.

(** Lines 631-651, on the parsed document. *)
Definition events_of_payload (payload : json) : outcome (list pydict) :=
  match payload_records payload with
  | Raise msg => Raise msg
  | Ok l => Ok (map snd (sort_rows (index_events R 0 l)))
  end.

Definition _load_replay_events (events_path : string) : outcome (list pydict) :=
  match read_json R events_path with
  | Raise msg => Raise msg
  | Ok payload => events_of_payload payload
  end.

End Loader.

(** ** Shared state *)

(** The [replay_state] dict: its twelve keys never change. *)
Record ReplayState := {
  running : bool;
  completed : bool;
  session_id : Z;
  events_path : string;
  speed : pyfloat;
  events_total : nat;
  events_sent : nat;
  last_event_type : string;
  last_event_ts : option pyfloat;
  started_at : option string;
  finished_at : option string;
  error : option string
}.

(** One [key=value] of a [replay_state.update(...)]. *)
Inductive field_update : Type :=
| Set_running (b : bool)
| Set_completed (b : bool)
| Set_session_id (z : Z)
| Set_events_path (s : string)
| Set_speed (x : pyfloat)
| Set_events_total (n : nat)
| Set_events_sent (n : nat)
| Set_last_event_type (s : string)
| Set_last_event_ts (o : option pyfloat)
| Set_started_at (o : option string)
| Set_finished_at (o : option string)
| Set_error (o : option string).

Definition apply_update (s : ReplayState) (u : field_update) : ReplayState :=
  let '(Build_ReplayState r c i p v t n l ts sa fa e) := s in
  match u with
  | Set_running x => Build_ReplayState x c i p v t n l ts sa fa e
  | Set_completed x => Build_ReplayState r x i p v t n l ts sa fa e
  | Set_session_id x => Build_ReplayState r c x p v t n l ts sa fa e
  | Set_events_path x => Build_ReplayState r c i x v t n l ts sa fa e
  | Set_speed x => Build_ReplayState r c i p x t n l ts sa fa e
  | Set_events_total x => Build_ReplayState r c i p v x n l ts sa fa e
  | Set_events_sent x => Build_ReplayState r c i p v t x l ts sa fa e
  | Set_last_event_type x => Build_ReplayState r c i p v t n x ts sa fa e
  | Set_last_event_ts x => Build_ReplayState r c i p v t n l x sa fa e
  | Set_started_at x => Build_ReplayState r c i p v t n l ts x fa e
  | Set_finished_at x => Build_ReplayState r c i p v t n l ts sa x e
  | Set_error x => Build_ReplayState r c i p v t n l ts sa fa x
  end.

(** [replay_state.update(updates)] *)
Definition state_update (s : ReplayState) (updates : list field_update)
  : ReplayState :=
  fold_left apply_update updates s.

(** The payload of a ['replay_event'] message (lines 732-739). *)
Record replay_event_payload := {
  p_session_id : Z;
  p_index : nat;
  p_total : nat;
  p_event : pydict;
  p_events_path : string;
  p_sent_at : string
}.

(** What [socketio.emit] and [emit] send. *)
Inductive emission : Type :=
| Emit_replay_state (snapshot : ReplayState)
| Emit_command_executed (entry : pydict)
| Emit_replay_event (payload : replay_event_payload)
| Emit_connected (history : list pydict).

(** ** Worker threads *)

(** Where a [_replay_worker] thread stands.  Each point is one stretch of
    code that runs under one lock, or touches no shared data. *)
Inductive pc : Type :=
| AtEntry         (* line 709: base_ts *)
| AtLoopCheck     (* lines 713-716: next event, first check *)
| AtSleep         (* lines 718-724: current_ts, the sleep *)
| AtRecheck       (* lines 726-728: second check *)
| AtWaitState     (* lines 694-696 and 699-701: check of the wait *)
| AtWaitClients   (* lines 702-705: client count of the wait *)
| AtEmit          (* lines 732-740: the replay_event message *)
| AtLog           (* lines 741-746: log_command *)
| AtUpdate        (* lines 747-751: events_sent *)
| AtFinal         (* lines 753-758: terminal state *)
| Returned        (* left by one of the [return]s *)
| Finished        (* ran to the end *)
| Crashed.        (* an exception ended the thread *)

Record worker := {
  w_session_id : Z;
  w_events_path : string;
  w_events : list pydict;
  w_speed : pyfloat;
  w_base_ts : pyfloat;
  w_idx : nat;
  w_event : pydict;
  w_current_ts : pyfloat;
  w_pc : pc
}.

Definition worker_at (t : worker) (p : pc) : worker :=
  {| w_session_id := w_session_id t; w_events_path := w_events_path t;
     w_events := w_events t; w_speed := w_speed t; w_base_ts := w_base_ts t;
     w_idx := w_idx t; w_event := w_event t; w_current_ts := w_current_ts t;
     w_pc := p |}.

(** The arguments of [threading.Thread(target=_replay_worker, args=...)]. *)
Definition new_worker (sid : Z) (path : string) (events : list pydict)
  (speed : pyfloat) : worker :=
  {| w_session_id := sid; w_events_path := path; w_events := events;
     w_speed := speed; w_base_ts := Fin 0; w_idx := 0; w_event := [];
     w_current_ts := Fin 0; w_pc := AtEntry |}.

(** ** The machine *)

Record machine := {
  replay_state : ReplayState;
  command_history : list pydict;
  replay_connected_clients : Z;
  ticks : nat;              (* clock readings taken so far *)
  threads : list worker     (* the replay workers, in spawn order *)
}.

Definition with_replay_state (s : ReplayState) (m : machine) : machine :=
  {| replay_state := s; command_history := command_history m;
     replay_connected_clients := replay_connected_clients m;
     ticks := ticks m; threads := threads m |}.

Definition with_command_history (h : list pydict) (m : machine) : machine :=
  {| replay_state := replay_state m; command_history := h;
     replay_connected_clients := replay_connected_clients m;
     ticks := ticks m; threads := threads m |}.

Definition with_clients (n : Z) (m : machine) : machine :=
  {| replay_state := replay_state m; command_history := command_history m;
     replay_connected_clients := n; ticks := ticks m; threads := threads m |}.

Definition with_ticks (n : nat) (m : machine) : machine :=
  {| replay_state := replay_state m; command_history := command_history m;
     replay_connected_clients := replay_connected_clients m;
     ticks := n; threads := threads m |}.

Definition with_threads (ts : list worker) (m : machine) : machine :=
  {| replay_state := replay_state m; command_history := command_history m;
     replay_connected_clients := replay_connected_clients m;
     ticks := ticks m; threads := ts |}.

(** The module-level initial values (lines 92-108 and 143). *)
Definition initial_replay_state (R : runtime) : ReplayState :=
  {| running := false; completed := false; session_id := 0%Z;
     events_path := ""; speed := REPLAY_DEFAULT_SPEED R; events_total := 0;
     events_sent := 0; last_event_type := ""; last_event_ts := None;
     started_at := None; finished_at := None; error := None |}.

Definition initial_machine (R : runtime) : machine :=
  {| replay_state := initial_replay_state R; command_history := [];
     replay_connected_clients := 0%Z; ticks := 0; threads := [] |}.

(** ** The monad: state, output and exceptions *)

Definition M (A : Type) : Type :=
  machine -> outcome A * machine * list emission.

Definition ret {A : Type} (a : A) : M A := fun m => (Ok a, m, []).

Definition bind {A B : Type} (c : M A) (k : A -> M B) : M B :=
  fun m =>
    match c m with
    | (Ok a, m1, out1) =>
        match k a m1 with
        | (r, m2, out2) => (r, m2, out1 ++ out2)
        end
    | (Raise msg, m1, out1) => (Raise msg, m1, out1)
    end.

Definition raise {A : Type} (msg : string) : M A := fun m => (Raise msg, m, []).

(** [try: c  except Exception as e: handler(e)] *)
Definition try_except {A : Type} (c : M A) (handler : string -> M A) : M A :=
  fun m =>
    match c m with
    | (Ok a, m1, out1) => (Ok a, m1, out1)
    | (Raise msg, m1, out1) =>
        match handler msg m1 with
        | (r, m2, out2) => (r, m2, out1 ++ out2)
        end
    end.

Definition get : M machine := fun m => (Ok m, m, []).
Definition modify (f : machine -> machine) : M unit := fun m => (Ok tt, f m, []).
Definition socketio_emit (e : emission) : M unit := fun m => (Ok tt, m, [e]).
Definition lift {A : Type} (r : outcome A) : M A := fun m => (r, m, []).

Declare Scope monad_scope.
Delimit Scope monad_scope with monad.
Notation "x <- c1 ;; c2" := (bind c1 (fun x => c2))
  (at level 61, c1 at next level, right associativity) : monad_scope.
Notation "c1 ;; c2" := (bind c1 (fun _ => c2))
  (at level 61, right associativity) : monad_scope.
Open Scope monad_scope.

(** ** Operations *)

(** [type(v).__name__] *)
Definition py_type_name (v : json) : string :=
  match v with
  | JNull => "NoneType"
  | JBool _ => "bool"
  | JInt _ => "int"
  | JFloat _ => "float"
  | JStr _ => "str"
  | JArr _ => "list"
  | JObj _ => "dict"
  end.

(** [str(e)] of the [AttributeError] of [v.get] on a value without [get]. *)
Definition no_attribute_get (v : json) : string :=
  ("'" ++ py_type_name v ++ "' object has no attribute 'get'")%string.

(** [v == s] for a string literal [s] *)
Definition eq_str (v : json) (s : string) : bool :=
  match v with JStr s' => String.eqb s' s | _ => false end.

(** [command_history.append(entry)] followed by the eviction of lines
    199-200 (and 1284-1285, 1361-1362). *)
Definition history_append (entry : pydict) (history : list pydict)
  : list pydict :=
  let history := history ++ [entry] in
  if (MAX_HISTORY <? List.length history)%nat then tl history else history.

Section Operations.

Variable R : runtime.

(** [datetime.now(timezone.utc)]: the next reading of the clock. *)
Definition utcnow : M instant :=
  fun m => (Ok (clock R (ticks m)), with_ticks (S (ticks m)) m, []).

Definition _timestamp_payload : M pydict :=
  now <- utcnow ;;
  ret [("timestamp", JStr (iso now)); ("ts_ms", JInt (ms now))].

Definition _replay_state_snapshot : M ReplayState :=
  m <- get ;; ret (replay_state m).

(** [snapshot or _replay_state_snapshot()]: a snapshot has twelve keys and
    is never falsy. *)
Definition _emit_replay_state (snapshot : option ReplayState) : M ReplayState :=
  payload <- match snapshot with
             | Some s => ret s
             | None => _replay_state_snapshot
             end ;;
  socketio_emit (Emit_replay_state payload) ;;
  ret payload.

Definition _update_replay_state (updates : list field_update) : M ReplayState :=
  modify (fun m => with_replay_state
                     (state_update (replay_state m) updates) m) ;;
  snapshot <- _replay_state_snapshot ;;
  _emit_replay_state (Some snapshot) ;;
  ret snapshot.

(** Lines 189-214.  The [print]s to the container's terminal are left
    out, but not the [result.get] they evaluate, which raises on a truthy
    result that is not a dict. *)
Definition log_command (source command result is_error : json) : M pydict :=
  ts <- _timestamp_payload ;;
  let entry :=
    dict_update [("source", source); ("command", command);
                 ("result", result); ("is_error", is_error)] ts in
  modify (fun m => with_command_history
                     (history_append entry (command_history m)) m) ;;
  socketio_emit (Emit_command_executed entry) ;;
  if eq_str source "webui" && truthy result then
    match result with
    | JObj _ => ret entry
    | _ => raise (no_attribute_get result)
    end
  else ret entry.

(** Lines 285-316.  The [except (TypeError, ValueError)] of line 297 lets
    the [OverflowError] of [int(inf)] through. *)
Definition normalize_grep_no_match (command result is_error : json)
  : outcome (json * json) :=
  match result, command with
  | JObj rd, JStr c =>
      if grep_command_re_search R c then
        match py_int R (dict_get_default "exit_code" rd JNull) with
        | Int_overflow_error =>
            Raise "cannot convert float infinity to integer"
        | Int_type_or_value_error => Ok (result, is_error)
        | Int_value exit_code =>
            if negb (exit_code =? 1)%Z then Ok (result, is_error)
            else if match dict_get_default "output" rd JNull with
                    | JStr s => negb (String.eqb (str_strip R s) "")
                    | _ => false
                    end then Ok (result, is_error)
            else if truthy (dict_get_default "error" rd JNull)
                 then Ok (result, is_error)
            else
              let normalized := dict_set "success" (JBool true) rd in
              let normalized := dict_setdefault "type" (JStr "bash") normalized in
              let normalized := dict_pop "error" normalized in
              let normalized :=
                if truthy (dict_get_default "output" normalized JNull)
                then normalized
                else dict_set "output" (JStr "(no matches)") normalized in
              Ok (JObj normalized, JBool false)
        end
      else Ok (result, is_error)
  | _, _ => Ok (result, is_error)
  end.

(** What a handler answers: [jsonify(...)] and the status code. *)
Inductive response : Type :=
| Resp_ok                                          (* {'success': True} *)
| Resp_state (state : ReplayState)                 (* ... with 'state' *)
| Resp_error (status : nat) (err : option string). (* {'success': False} *)

(** Lines 1258-1293; [body] is what [request.get_json()] does. *)
Definition terminal_notify (body : outcome json) : M response :=
  try_except
    (data <- lift body ;;
     if truthy data then
       match data with
       | JObj d =>
           let command := dict_get_default "command" d (JStr "") in
           let result := dict_get_default "result" d JNull in
           let is_error := dict_get_default "is_error" d (JBool false) in
           normalized <- lift (normalize_grep_no_match command result
                                 is_error) ;;
           let (result, is_error) := normalized in
           let ts := dict_get_default "timestamp" d JNull in
           let ts_ms := dict_get_default "ts_ms" d JNull in
           let entry := [("source", JStr "terminal"); ("command", command);
                         ("result", result); ("is_error", is_error)] in
           let entry :=
             if is_none ts then entry else dict_set "timestamp" ts entry in
           let entry :=
             if is_none ts_ms then entry else dict_set "ts_ms" ts_ms entry in
           entry <- (if negb (dict_contains "timestamp" entry)
                        || negb (dict_contains "ts_ms" entry)
                     then p <- _timestamp_payload ;; ret (dict_update entry p)
                     else ret entry) ;;
           modify (fun m => with_command_history
                              (history_append entry (command_history m)) m) ;;
           socketio_emit (Emit_command_executed entry) ;;
           ret Resp_ok
       | _ => raise (no_attribute_get data)
       end
     else ret (Resp_error 400 None))
    (fun _ => ret (Resp_error 400 None)).

(** Lines 654-684. *)
Definition _format_event_command (event : pydict) : string :=
  let field k dflt := py_str R (dict_get_default k event (JStr dflt)) in
  let stripped := str_strip R (field "event_type" "event") in
  let event_type := if String.eqb stripped "" then "event" else stripped in
  let ty t := String.eqb event_type t in
  (if ty "file_read" then "[replay] file_read " ++ field "file_path" ""
   else if ty "file_write" then
     "[replay] file_write " ++ field "file_path" "" ++ " ("
       ++ field "operation" "create" ++ ")"
   else if ty "file_edit" then "[replay] file_edit " ++ field "file_path" ""
   else if ty "file_move" then
     "[replay] file_move " ++ field "old_path" "" ++ " -> " ++ field "new_path" ""
   else if ty "file_rename" then
     "[replay] file_rename " ++ field "old_path" "" ++ " -> "
       ++ field "new_path" ""
   else if ty "file_copy" then
     "[replay] file_copy " ++ field "source_path" "" ++ " -> "
       ++ field "dest_path" ""
   else if ty "file_delete" then "[replay] file_delete " ++ field "file_path" ""
   else if ty "file_search" then
     "[replay] file_search " ++ field "search_type" "glob" ++ " "
       ++ field "query" ""
   else if ty "file_browse" then
     "[replay] file_browse " ++ field "directory_path" ""
   else if ty "dir_create" then "[replay] dir_create " ++ field "dir_path" ""
   else if ty "context_switch" then
     "[replay] context_switch " ++ field "from_file" "" ++ " -> "
       ++ field "to_file" ""
   else if ty "cross_file_reference" then
     "[replay] cross_file_reference " ++ field "source_file" "" ++ " -> "
       ++ field "target_file" ""
   else if ty "error_encounter" then
     "[replay] error_encounter " ++ field "error_type" ""
   else if ty "error_response" then
     "[replay] error_response " ++ field "strategy" ""
   else "[replay] " ++ event_type)%string.

(** The test of lines 695, 700, 715 and 727:
    [not replay_state.get('running') or
     replay_state.get('session_id') != session_id]. *)
Definition session_inactive (sid : Z) (s : ReplayState) : bool :=
  negb (running s) || negb (session_id s =? sid)%Z.

(** [max(0.05, float(speed or 1.0))] of lines 721 and 773. *)
Definition speed_or_default (speed : pyfloat) : pyfloat :=
  py_max (Fin (1 # 20)) (if float_truthy speed then speed else Fin 1).

(** [max(0.0, (current_ts - base_ts) / max(0.05, float(speed or 1.0)))]
    of line 721. *)
Definition target_elapsed (current_ts base_ts speed : pyfloat) : pyfloat :=
  py_max (Fin 0) (fdiv (fsub current_ts base_ts) (speed_or_default speed)).

(** [time.perf_counter() - started] of line 722, in seconds. *)
Definition perf_elapsed (sid : Z) (idx : nat) : Q :=
  inject_Z (Z.of_N (perf_elapsed_ns R sid idx)) / 1000000000.

(** Lines 722-724: the time left before the event is due, and the sleep
    when some is left. *)
Definition sleep_until (target : pyfloat) (sid : Z) (idx : nat)
  : outcome unit :=
  let sleep_s := fsub target (Fin (perf_elapsed sid idx)) in
  if fltb (Fin 0) sleep_s then time_sleep sleep_s else Ok tt.

(** One step of [_replay_worker] (lines 708-758), with
    [_wait_for_replay_client] (lines 687-705) inlined at line 729. *)
Definition worker_step (t : worker) : M worker :=
  match w_pc t with
  | AtEntry =>
      match w_events t with
      | [] => ret (worker_at t AtLoopCheck)
      | first :: _ =>
          match py_float R (dict_get_default "timestamp" first
                              (JFloat (Fin 0))) with
          | Some base_ts =>
              ret {| w_session_id := w_session_id t;
                     w_events_path := w_events_path t;
                     w_events := w_events t; w_speed := w_speed t;
                     w_base_ts := base_ts; w_idx := 0; w_event := w_event t;
                     w_current_ts := w_current_ts t; w_pc := AtLoopCheck |}
          | None => raise "could not convert to float"
          end
      end
  | AtLoopCheck =>
      match nth_error (w_events t) (w_idx t) with
      | None => ret (worker_at t AtFinal)
      | Some event =>
          s <- _replay_state_snapshot ;;
          if session_inactive (w_session_id t) s then ret (worker_at t Returned)
          else
            ret {| w_session_id := w_session_id t;
                   w_events_path := w_events_path t;
                   w_events := w_events t; w_speed := w_speed t;
                   w_base_ts := w_base_ts t; w_idx := w_idx t;
                   w_event := event; w_current_ts := w_current_ts t;
                   w_pc := AtSleep |}
      end
  | AtSleep =>
      match py_float R (dict_get_default "timestamp" (w_event t)
                          (JFloat (w_base_ts t))) with
      | Some current_ts =>
          lift (sleep_until
                  (target_elapsed current_ts (w_base_ts t) (w_speed t))
                  (w_session_id t) (w_idx t)) ;;
          ret {| w_session_id := w_session_id t;
                 w_events_path := w_events_path t;
                 w_events := w_events t; w_speed := w_speed t;
                 w_base_ts := w_base_ts t; w_idx := w_idx t;
                 w_event := w_event t; w_current_ts := current_ts;
                 w_pc := AtRecheck |}
      | None => raise "could not convert to float"
      end
  | AtRecheck =>
      s <- _replay_state_snapshot ;;
      if session_inactive (w_session_id t) s then ret (worker_at t Returned)
      else ret (worker_at t AtWaitState)
  | AtWaitState =>
      s <- _replay_state_snapshot ;;
      if session_inactive (w_session_id t) s then ret (worker_at t Returned)
      else if REPLAY_NO_CLIENT_GATE R then ret (worker_at t AtEmit)
      else ret (worker_at t AtWaitClients)
  | AtWaitClients =>
      m <- get ;;
      if (0 <? replay_connected_clients m)%Z then ret (worker_at t AtEmit)
      else ret (worker_at t AtWaitState)
  | AtEmit =>
      now <- utcnow ;;
      socketio_emit (Emit_replay_event
        {| p_session_id := w_session_id t; p_index := w_idx t;
           p_total := List.length (w_events t); p_event := w_event t;
           p_events_path := w_events_path t; p_sent_at := iso now |}) ;;
      ret (worker_at t AtLog)
  | AtLog =>
      log_command (JStr "agent") (JStr (_format_event_command (w_event t)))
        (JObj [("success", JBool true);
               ("event_type",
                dict_get_default "event_type" (w_event t) (JStr "event"))])
        (JBool false) ;;
      ret (worker_at t AtUpdate)
  | AtUpdate =>
      _update_replay_state
        [Set_events_sent (w_idx t + 1);
         Set_last_event_type
           (py_str R (dict_get_default "event_type" (w_event t) (JStr "")));
         Set_last_event_ts (Some (w_current_ts t))] ;;
      ret {| w_session_id := w_session_id t;
             w_events_path := w_events_path t;
             w_events := w_events t; w_speed := w_speed t;
             w_base_ts := w_base_ts t; w_idx := S (w_idx t);
             w_event := w_event t; w_current_ts := w_current_ts t;
             w_pc := AtLoopCheck |}
  | AtFinal =>
      now <- utcnow ;;
      _update_replay_state
        [Set_running false; Set_completed true;
         Set_finished_at (Some (iso now)); Set_error None] ;;
      ret (worker_at t Finished)
  | Returned => ret t
  | Finished => ret t
  | Crashed => ret t
  end.

(** Lines 761-791. *)
Definition _start_replay_session (events_path : string) (speed' : pyfloat)
  : M ReplayState :=
  events <- lift (_load_replay_events R events_path) ;;
  match events with
  | [] => raise "events file is empty"
  | _ :: _ =>
      now <- utcnow ;;
      modify (fun m =>
        let previous_session := session_id (replay_state m) in
        with_replay_state
          (state_update (replay_state m)
             [Set_running true; Set_completed false;
              Set_session_id (previous_session + 1)%Z;
              Set_events_path events_path;
              Set_speed (speed_or_default speed');
              Set_events_total (List.length events); Set_events_sent 0;
              Set_last_event_type ""; Set_last_event_ts None;
              Set_started_at (Some (iso now)); Set_finished_at None;
              Set_error None]) m) ;;
      snapshot <- _replay_state_snapshot ;;
      _emit_replay_state (Some snapshot) ;;
      modify (fun m => with_threads
                (threads m ++ [new_worker (session_id snapshot) events_path
                                 events (speed snapshot)]) m) ;;
      ret snapshot
  end.

(** Lines 794-805; [notify_all] wakes the waiting workers, whose next
    step is then their check. *)
Definition _stop_replay_session (reason : string) : M ReplayState :=
  now <- utcnow ;;
  modify (fun m =>
    with_replay_state
      (state_update (replay_state m)
         [Set_running false; Set_completed false;
          Set_session_id (session_id (replay_state m) + 1)%Z;
          Set_finished_at (Some (iso now));
          Set_error (if String.eqb reason "stopped" || String.eqb reason ""
                     then None else Some reason)]) m) ;;
  snapshot <- _replay_state_snapshot ;;
  _emit_replay_state (Some snapshot) ;;
  ret snapshot.

(** Lines 1135-1137. *)
Definition replay_status : M response :=
  s <- _replay_state_snapshot ;; ret (Resp_state s).

(** Lines 1140-1169, from the two values read off the request body:
    [events_path_raw] (line 1143) and [speed_raw] (line 1144). *)
Definition replay_start (events_path_raw : string) (speed_raw : json)
  : M response :=
  let speed :=
    match py_float R speed_raw with
    | Some x => py_max (Fin (1 # 20)) x
    | None => REPLAY_DEFAULT_SPEED R
    end in
  match resolve_path R events_path_raw with
  | None =>
      let fallback := if String.eqb events_path_raw ""
                      then REPLAY_DEFAULT_EVENTS_PATH R
                      else events_path_raw in
      ret (Resp_error 404 (Some ("events file not found: " ++ fallback)%string))
  | Some events_path =>
      s <- _replay_state_snapshot ;;
      (if running s then _stop_replay_session "restarted" ;; ret tt
       else ret tt) ;;
      try_except
        (snapshot <- _start_replay_session events_path speed ;;
         ret (Resp_state snapshot))
        (fun e =>
           now <- utcnow ;;
           _update_replay_state
             [Set_running false; Set_completed false;
              Set_events_path events_path; Set_error (Some e);
              Set_finished_at (Some (iso now))] ;;
           ret (Resp_error 400 (Some e)))
  end.

(** Lines 1172-1175. *)
Definition replay_stop : M response :=
  snapshot <- _stop_replay_session "stopped" ;;
  ret (Resp_state snapshot).

(** [command_history[-20:]] *)
Definition last_20 (history : list pydict) : list pydict :=
  skipn (List.length history - 20) history.

(** Lines 1378-1391. *)
Definition handle_connect : M unit :=
  modify (fun m => with_clients (replay_connected_clients m + 1)%Z m) ;;
  m <- get ;;
  socketio_emit (Emit_connected (last_20 (command_history m))) ;;
  s <- _replay_state_snapshot ;;
  socketio_emit (Emit_replay_state s).

(** Lines 1394-1400. *)
Definition handle_disconnect : M unit :=
  modify (fun m => with_clients
                     (Z.max 0 (replay_connected_clients m - 1)) m).

(** ** Interleaving *)

(** What can happen next: a worker thread takes its next step, or a
    request handler runs. *)
Inductive action : Type :=
| Act_worker (i : nat)
| Act_replay_start (events_path_raw : string) (speed_raw : json)
| Act_replay_stop
| Act_replay_status
| Act_connect
| Act_disconnect
| Act_log_command (source command result is_error : json)
| Act_terminal_notify (body : outcome json).

Definition set_thread (i : nat) (t : worker) (m : machine) : machine :=
  with_threads (firstn i (threads m) ++ t :: skipn (S i) (threads m)) m.

(** Thread [i] takes one step; an exception ends the thread. *)
Definition thread_step (i : nat) : M unit :=
  fun m =>
    match nth_error (threads m) i with
    | None => (Ok tt, m, [])
    | Some t =>
        match worker_step t m with
        | (Ok t', m', out) => (Ok tt, set_thread i t' m', out)
        | (Raise _, m', out) => (Ok tt, set_thread i (worker_at t Crashed) m', out)
        end
    end.

Definition discard {A : Type} (c : M A) : M unit :=
  fun m => match c m with (_, m', out) => (Ok tt, m', out) end.

(** The effect of one action; what a handler answers, or that it raised,
    stays with its caller. *)
Definition perform (a : action) : M unit :=
  match a with
  | Act_worker i => thread_step i
  | Act_replay_start p s => discard (replay_start p s)
  | Act_replay_stop => discard replay_stop
  | Act_replay_status => discard replay_status
  | Act_connect => handle_connect
  | Act_disconnect => handle_disconnect
  | Act_log_command s c r e => discard (log_command s c r e)
  | Act_terminal_notify b => discard (terminal_notify b)
  end.

(** A schedule runs its actions in order; each message is recorded with
    the action that sent it. *)
Fixpoint exec (schedule : list action) (m : machine)
  : machine * list (action * emission) :=
  match schedule with
  | [] => (m, [])
  | a :: rest =>
      match perform a m with
      | (_, m1, out1) =>
          match exec rest m1 with
          | (m2, out2) => (m2, map (pair a) out1 ++ out2)
          end
      end
  end.

End Operations.

(** ** A runtime to run the model on *)

Definition decimal (n : nat) : string :=
  NilEmpty.string_of_uint (Nat.to_uint n).

(** A runtime whose only file holds [doc]: integers convert exactly,
    no string is a number, paths resolve to themselves, the clock
    reads [T0], [T1], ... and the performance counter stands still. *)
Definition test_runtime (doc : outcome json) (no_client_gate : bool)
  : runtime :=
  {| float_of_int := fun z => Some (inject_Z z);
     float_of_str := fun _ => None;
     int_of_str := fun _ => None;
     py_repr := fun _ => "<repr>";
     str_strip := fun s => s;
     grep_command_re_search := fun _ => false;
     read_json := fun _ => doc;
     resolve_path := fun p => Some p;
     clock := fun n => {| iso := "T" ++ decimal n; ms := Z.of_nat n |};
     perf_elapsed_ns := fun _ _ => 0%N;
     REPLAY_DEFAULT_EVENTS_PATH := "/hippocamp/replay/events_clean.json";
     REPLAY_DEFAULT_SPEED := Fin 1;
     REPLAY_NO_CLIENT_GATE := no_client_gate |}.

(** The records of an array that are dicts, in order. *)
Definition records_of (l : list json) : list pydict :=
  flat_map (fun v => match v with JObj d => [d] | _ => [] end) l.

(** [a] may stand before [b]: [b]'s key is not below [a]'s. *)
Definition row_le (a b : nat * pydict) : Prop :=
  key_ltb (sort_key b) (sort_key a) = false.

(** The row carries a timestamp the order knows. *)
Definition comparable (row : nat * pydict) : Prop :=
  event_timestamp (snd row) <> NaN.

(** The record gets a timestamp the order knows: its own is not [nan]. *)
Definition timestamp_not_nan (R : runtime) (v : json) : Prop :=
  match v with
  | JObj d =>
      py_float R (dict_get_default "timestamp" d (JFloat (Fin 0))) <> Some NaN
  | _ => True
  end.

(** The request supplies the field [k]: [data.get(k) is not None]. *)
Definition supplied (k : string) (d : pydict) : bool :=
  negb (is_none (dict_get_default k d JNull)).

(** The entries of the ['command_executed'] messages among [out]: every
    append to the history broadcasts its entry. *)
Definition entries_of (out : list emission) : list pydict :=
  flat_map (fun e => match e with
                     | Emit_command_executed entry => [entry]
                     | _ => []
                     end) out.

(** The last [n] elements. *)
Definition keep_last {A : Type} (n : nat) (l : list A) : list A :=
  skipn (List.length l - n) l.

(** A computation satisfies the transition relation [T] when every run of
    it does: [T m out m'] for the machine before, the messages sent and
    the machine after. *)
Definition sat (T : machine -> list emission -> machine -> Prop)
  {A : Type} (c : M A) : Prop :=
  forall m r m' out, c m = (r, m', out) -> T m out m'.

(** The history after is the history before with the broadcast entries
    appended one by one. *)
Definition history_follows (m : machine) (out : list emission) (m' : machine)
  : Prop :=
  command_history m' =
  fold_left (fun h e => history_append e h) (entries_of out) (command_history m).

(** ** Runs of a worker *)

(** The worker takes [fuel] steps with nothing else running in between. *)
Fixpoint run_worker (R : runtime) (fuel : nat) (t : worker) : M worker :=
  match fuel with
  | 0 => ret t
  | S fuel => t' <- worker_step R t ;; run_worker R fuel t'
  end.










(** The payloads of the ['replay_event'] messages among [out]. *)
Definition replay_events_of (out : list emission) : list replay_event_payload :=
  flat_map (fun e => match e with
                     | Emit_replay_event p => [p]
                     | _ => []
                     end) out.

(** The messages thread [i] sent in a trace. *)
Definition sent_by (i : nat) (trace : list (action * emission))
  : list emission :=
  flat_map (fun ae => match fst ae with
                      | Act_worker j => if (j =? i)%nat then [snd ae] else []
                      | _ => []
                      end) trace.

(** The worker has an event left and has not passed the last check for
    it, or it has ended. *)
Definition uncommitted (t : worker) : bool :=
  match w_pc t with
  | AtEntry => match w_events t with [] => false | _ :: _ => true end
  | AtLoopCheck => (w_idx t <? List.length (w_events t))%nat
  | AtSleep | AtRecheck | AtWaitState => true
  | AtWaitClients | AtEmit | AtLog | AtUpdate | AtFinal => false
  | Returned | Finished | Crashed => true
  end.

(** The events a worker can still send without a further check: the one
    whose checks have all passed. *)
Definition in_flight (t : worker) : nat :=
  match w_pc t with
  | AtWaitClients | AtEmit => 1
  | _ => 0
  end.

(** The epoch does not go back and the threads stay what and where they
    are; new ones come last. *)
Definition session_follows (m : machine) (out : list emission) (m' : machine)
  : Prop :=
  (session_id (replay_state m) <= session_id (replay_state m'))%Z /\
  forall i t, nth_error (threads m) i = Some t ->
              nth_error (threads m') i = Some t.

(** The epoch and the threads are untouched. *)
Definition session_kept (m : machine) (out : list emission) (m' : machine)
  : Prop :=
  session_id (replay_state m') = session_id (replay_state m) /\
  threads m' = threads m.

(** The event carries a float under [timestamp], as every loaded event
    does. *)
Definition has_float_timestamp (event : pydict) : Prop :=
  exists x, dict_get "timestamp" event = Some (JFloat x).


(** ** Further handlers and helpers *)

(** Characters the path helpers look for. *)
Definition double_quote : Ascii.ascii := Ascii.ascii_of_nat 34.
Definition apostrophe : Ascii.ascii := Ascii.ascii_of_nat 39.
Definition slash : Ascii.ascii := Ascii.ascii_of_nat 47.
Definition backslash : Ascii.ascii := Ascii.ascii_of_nat 92.

(** [s[n:]] *)
Fixpoint drop (n : nat) (s : string) : string :=
  match n, s with
  | 0, _ => s
  | S n, EmptyString => EmptyString
  | S n, String _ rest => drop n rest
  end.

(** [s.replace(a, b)] for single characters *)
Fixpoint replace_char (a b : Ascii.ascii) (s : string) : string :=
  match s with
  | EmptyString => EmptyString
  | String c rest =>
      String (if Ascii.eqb c a then b else c) (replace_char a b rest)
  end.

(** [s.lstrip(c)] for a single character *)
Fixpoint lstrip_char (c : Ascii.ascii) (s : string) : string :=
  match s with
  | EmptyString => EmptyString
  | String x rest => if Ascii.eqb x c then lstrip_char c rest else s
  end.

(** [s.rstrip(c)] for a single character *)
Fixpoint rstrip_char (c : Ascii.ascii) (s : string) : string :=
  match s with
  | EmptyString => EmptyString
  | String x rest =>
      match rstrip_char c rest with
      | EmptyString => if Ascii.eqb x c then EmptyString else String x EmptyString
      | kept => String x kept
      end
  end.

(** [s[-1]], when there is one *)
Fixpoint last_char (s : string) : option Ascii.ascii :=
  match s with
  | EmptyString => None
  | String x EmptyString => Some x
  | String _ rest => last_char rest
  end.

Section FurtherOperations.

Variable R : runtime.

(** Lines 221-227. *)
Definition strip_outer_quotes (value : json) : json :=
  match value with
  | JStr v =>
      let s := str_strip R v in
      match String.get 0 s, last_char s with
      | Some first, Some final =>
          if (2 <=? String.length s)%nat && Ascii.eqb first final
             && (Ascii.eqb first double_quote || Ascii.eqb first apostrophe)
          then JStr (String.substring 1 (String.length s - 2) s)
          else JStr s
      | _, _ => JStr s
      end
  | _ => value
  end.

(** Lines 257-271; [value.strip()] raises on what is not a string. *)
Definition normalize_data_relative_path (value : json) : outcome string :=
  match strip_outer_quotes (if truthy value then value else JStr "") with
  | JStr unquoted =>
      let raw := str_strip R unquoted in
      if String.eqb raw "" then Ok ""
      else
        let raw := replace_char backslash slash raw in
        if String.eqb raw "/hippocamp/data" || String.eqb raw "hippocamp/data"
           || String.eqb raw "data" || String.eqb raw "."
           || String.eqb raw "./"
        then Ok ""
        else
          let raw :=
            if String.prefix "/hippocamp/data/" raw
            then drop (String.length "/hippocamp/data/") raw
            else if String.prefix "hippocamp/data/" raw
            then drop (String.length "hippocamp/data/") raw
            else if String.prefix "data/" raw
            then drop (String.length "data/") raw
            else raw in
          let raw := if String.prefix "/" raw then lstrip_char slash raw
                     else raw in
          Ok (rstrip_char slash raw)
  | other =>
      Raise ("'" ++ py_type_name other ++ "' object has no attribute 'strip'")%string
  end.

(** Lines 1296-1311; [body] is what [request.get_json()] does. *)
Definition log_command_api (body : outcome json) : M response :=
  try_except
    (data <- lift body ;;
     match (if truthy data then data else JObj []) with
     | JObj d =>
         let command := dict_get_default "command" d (JStr "") in
         let source := dict_get_default "source" d (JStr "agent") in
         let result := dict_get_default "result" d JNull in
         let is_error := dict_get_default "is_error" d (JBool false) in
         normalized <- lift (normalize_grep_no_match R command result
                               is_error) ;;
         let (result, is_error) := normalized in
         if negb (truthy command)
         then ret (Resp_error 400 (Some "Missing command"))
         else log_command R source command result is_error ;; ret Resp_ok
     | other => raise (no_attribute_get other)
     end)
    (fun e => ret (Resp_error 400 (Some e))).

End FurtherOperations.

(** ** Statements about runs *)

(** What schedule-wide statements say of one message of a worker bound to
    epoch [sid], reading [events] from [path]: an event message carries
    that epoch, path and count, and the event is the one the trace has at
    the index the message gives; a history entry is marked as the
    agent's and as no error. *)
Definition worker_message (sid : Z) (path : string) (events : list pydict)
  (e : emission) : Prop :=
  match e with
  | Emit_replay_event p =>
      p_session_id p = sid /\ p_events_path p = path /\
      p_total p = List.length events /\
      nth_error events (p_index p) = Some (p_event p)
  | Emit_command_executed entry =>
      dict_get "source" entry = Some (JStr "agent") /\
      dict_get "is_error" entry = Some (JBool false)
  | Emit_replay_state _ => True
  | Emit_connected _ => False
  end.

(** The worker's current event is the one at its index, where it has one. *)
Definition at_its_event (t : worker) : Prop :=
  match w_pc t with
  | AtSleep | AtRecheck | AtWaitState | AtWaitClients | AtEmit | AtLog
  | AtUpdate => nth_error (w_events t) (w_idx t) = Some (w_event t)
  | _ => True
  end.

(** A worker in order: its events carry float timestamps, as loaded
    events do, and it holds one of its events where it has one. *)
Definition worker_ok (t : worker) : Prop :=
  Forall has_float_timestamp (w_events t) /\
  at_its_event t.

(** The threads of the pool were spawned with strictly growing epochs, none
    beyond the current one, and each of them is in order. *)
Definition pool_ok (m : machine) : Prop :=
  StronglySorted Z.lt (map w_session_id (threads m)) /\
  Forall (fun t => (w_session_id t <= session_id (replay_state m))%Z)
         (threads m) /\
  Forall worker_ok (threads m).

(** The client count a schedule leads to. *)
Definition count_after (schedule : list action) (n : Z) : Z :=
  fold_left (fun n a => match a with
                        | Act_connect => (n + 1)%Z
                        | Act_disconnect => Z.max 0 (n - 1)
                        | _ => n
                        end) schedule n.

(** The client count is untouched. *)
Definition clients_kept (m : machine) (out : list emission) (m' : machine)
  : Prop :=
  replay_connected_clients m' = replay_connected_clients m.







(** The epoch does not go back, and the threads are the ones there were
    followed by the new ones, each with an epoch that was not in use and
    is by now, in growing order, and each of them in order. *)
Definition spawned (m : machine) (out : list emission) (m' : machine) : Prop :=
  (session_id (replay_state m) <= session_id (replay_state m'))%Z /\
  exists extra,
    threads m' = threads m ++ extra /\
    StronglySorted Z.lt (map w_session_id extra) /\
    Forall (fun t => (session_id (replay_state m) < w_session_id t
                      <= session_id (replay_state m'))%Z /\ worker_ok t) extra.

(** * Properties *)

(** ** Dicts *)

Lemma dict_get_set_same (k : string) (v : json) (d : pydict) :
  dict_get k (dict_set k v d) = Some v.
Proof.
  induction d as [|[k' v'] d IH]; simpl.
  - now rewrite String.eqb_refl.
  - destruct (String.eqb k k') eqn:E; simpl; rewrite E; auto.
Qed.

(** ** The order of the floats *)

Lemma fcompare_opp (a b : pyfloat) :
  fcompare b a = option_map CompOpp (fcompare a b).
Proof.
  destruct a as [x| | |], b as [y| | |]; cbn; try reflexivity.
  now rewrite Qcompare_antisym.
Qed.

Lemma fcompare_total (a b : pyfloat) :
  a <> NaN -> b <> NaN -> exists c, fcompare a b = Some c.
Proof.
  destruct a, b; cbn; intros Ha Hb; try contradiction; eexists; reflexivity.
Qed.

Lemma fcompare_nan (a b : pyfloat) :
  fcompare a b <> None -> a <> NaN /\ b <> NaN.
Proof. destruct a, b; cbn; intros H; split; congruence. Qed.

Lemma fcompare_trans (a b c : pyfloat) (o : comparison) :
  fcompare a b = Some o -> fcompare b c = Some o -> fcompare a c = Some o.
Proof.
  destruct a as [x| | |], b as [y| | |], c as [z| | |]; cbn;
    intros H1 H2; try congruence.
  injection H1 as H1. injection H2 as H2. f_equal. destruct o.
  - apply Qeq_alt in H1, H2. apply Qeq_alt. now rewrite H1.
  - apply Qlt_alt in H1, H2. apply Qlt_alt. now apply Qlt_trans with y.
  - apply Qgt_alt in H1, H2. apply Qgt_alt. now apply Qlt_trans with y.
Qed.

Lemma fcompare_eq_l (a b c : pyfloat) :
  fcompare a b = Some Eq -> fcompare a c = fcompare b c.
Proof.
  destruct a as [x| | |], b as [y| | |], c as [z| | |]; cbn;
    intros H; try congruence.
  injection H as H. apply Qeq_alt in H. f_equal.
  destruct (Qcompare_spec y z) as [E|L|G].
  - apply Qeq_alt. now rewrite H.
  - apply Qlt_alt. now rewrite H.
  - apply Qgt_alt. now rewrite H.
Qed.

Lemma fcompare_eq_r (a b c : pyfloat) :
  fcompare b c = Some Eq -> fcompare a b = fcompare a c.
Proof.
  intros H. rewrite (fcompare_opp b a), (fcompare_opp c a).
  f_equal. symmetry. apply fcompare_eq_l.
  rewrite fcompare_opp, H. reflexivity.
Qed.

Lemma fltb_Fin (x y : Q) : fltb (Fin x) (Fin y) = true <-> (x < y)%Q.
Proof.
  unfold fltb. cbn [fcompare]. rewrite Qlt_alt.
  destruct (x ?= y)%Q; intuition discriminate.
Qed.

Lemma fltb_Fin_false (x y : Q) : fltb (Fin x) (Fin y) = false <-> (y <= x)%Q.
Proof.
  rewrite <- not_true_iff_false, fltb_Fin. split.
  - apply Qnot_lt_le.
  - apply Qle_not_lt.
Qed.

Lemma fleb_Fin (x y : Q) : fleb (Fin x) (Fin y) = true <-> (x <= y)%Q.
Proof.
  unfold fleb. cbn [fcompare]. rewrite Qle_alt.
  destruct (x ?= y)%Q; intuition discriminate.
Qed.


Lemma fltb_fleb (a b : pyfloat) : fltb a b = true -> fleb a b = true.
Proof.
  unfold fltb, fleb. destruct (fcompare a b) as [[| |]|]; congruence.
Qed.

(** ** The order of the sort *)

Lemma key_ltb_true_iff (a b : pyfloat * nat) :
  key_ltb a b = true <->
  fltb (fst a) (fst b) = true \/
  (feqb (fst a) (fst b) = true /\ snd a < snd b).
Proof.
  unfold key_ltb, fltb, feqb.
  destruct (fcompare (fst a) (fst b)) as [[| |]|]; rewrite ?Nat.ltb_lt;
    intuition discriminate.
Qed.

Lemma key_ltb_false_iff (a b : pyfloat * nat) :
  fst a <> NaN -> fst b <> NaN ->
  key_ltb b a = false <->
  fltb (fst a) (fst b) = true \/
  (feqb (fst a) (fst b) = true /\ snd a <= snd b).
Proof.
  intros Ha Hb. unfold key_ltb, fltb, feqb.
  rewrite (fcompare_opp (fst a) (fst b)).
  destruct (fcompare_total Ha Hb) as [[| |] ->]; cbn [option_map CompOpp];
    rewrite ?Nat.ltb_ge; intuition discriminate.
Qed.

Lemma row_le_trans (a b c : nat * pydict) :
  comparable a -> comparable b -> comparable c ->
  row_le a b -> row_le b c -> row_le a c.
Proof.
  unfold row_le, comparable, row_ltb. intros Ha Hb Hc.
  rewrite !key_ltb_false_iff by assumption. unfold fltb, feqb. simpl.
  set (x := event_timestamp (snd a)). set (y := event_timestamp (snd b)).
  set (z := event_timestamp (snd c)).
  destruct (fcompare x y) as [[| |]|] eqn:Exy;
    destruct (fcompare y z) as [[| |]|] eqn:Eyz;
    intros [H1|[H1 L1]] [H2|[H2 L2]]; try discriminate.
  - right. rewrite (fcompare_trans _ _ _ Exy Eyz). split; [reflexivity | lia].
  - left. now rewrite (fcompare_eq_l _ _ z Exy), Eyz.
  - left. now rewrite <- (fcompare_eq_r x _ _ Eyz), Exy.
  - left. now rewrite (fcompare_trans _ _ _ Exy Eyz).
Qed.

Lemma row_lt_le (a b : nat * pydict) :
  row_ltb a b = true -> row_le a b.
Proof.
  unfold row_le, row_ltb. rewrite key_ltb_true_iff.
  unfold key_ltb, fltb, feqb. rewrite (fcompare_opp (fst (sort_key a))).
  destruct (fcompare (fst (sort_key a)) (fst (sort_key b))) as [[| |]|];
    cbn [option_map CompOpp];
    intros [H|[H L]]; try discriminate; try reflexivity.
  apply Nat.ltb_ge. lia.
Qed.

Lemma row_le_total (a b : nat * pydict) :
  comparable a -> comparable b -> row_ltb a b = false -> row_le b a.
Proof. intros _ _ H. exact H. Qed.

Lemma row_lt_le_trans (x y z : nat * pydict) :
  comparable x -> comparable y -> comparable z ->
  row_ltb x y = true -> row_le y z -> row_ltb x z = true.
Proof.
  intros Hx Hy Hz Hlt Hle.
  destruct (row_ltb x z) eqn:E; [reflexivity|].
  assert (H : row_le y x) by (apply row_le_trans with z; assumption).
  unfold row_le in H. unfold row_ltb in Hlt. congruence.
Qed.

(** ** The sort *)

Lemma in_firstn {A : Type} (k : nat) (l : list A) (x : A) :
  In x (firstn k l) -> In x l.
Proof.
  intros H. rewrite <- (firstn_skipn k l). apply in_or_app. now left.
Qed.

Lemma in_skipn {A : Type} (k : nat) (l : list A) (x : A) :
  In x (skipn k l) -> In x l.
Proof.
  intros H. rewrite <- (firstn_skipn k l). apply in_or_app. now right.
Qed.

Lemma strongly_sorted_app_inv {A : Type} (le : A -> A -> Prop) (l1 l2 : list A) :
  StronglySorted le (l1 ++ l2) ->
  StronglySorted le l1 /\ StronglySorted le l2 /\
  (forall a b, In a l1 -> In b l2 -> le a b).
Proof.
  induction l1 as [|x l1 IH]; cbn; intros H.
  - split; [constructor|]. split; [exact H|]. intros a b [].
  - inversion H as [|? ? Hs Hall]; subst.
    destruct (IH Hs) as [H1 [H2 Hc]]. apply Forall_app in Hall as [Ha1 Ha2].
    split; [now constructor|]. split; [exact H2|].
    intros a b [<-|Ha] Hb; [|now apply Hc].
    rewrite Forall_forall in Ha2. now apply Ha2.
Qed.

Lemma sorted_app {A : Type} (lt : A -> A -> Prop) (l1 l2 : list A) :
  StronglySorted lt l1 -> StronglySorted lt l2 ->
  (forall a b, In a l1 -> In b l2 -> lt a b) ->
  StronglySorted lt (l1 ++ l2).
Proof.
  induction 1 as [|x l1 Hs IH Hall]; intros H2 Hc; [exact H2|].
  cbn. constructor.
  - apply IH; [exact H2|]. intros a b Ha Hb. apply Hc; [now right | exact Hb].
  - apply Forall_app. split; [exact Hall|].
    apply Forall_forall. intros b Hb. apply Hc; [now left | exact Hb].
Qed.

Lemma binary_insert_perm (sorted : list (nat * pydict)) (x : nat * pydict) :
  Permutation (binary_insert sorted x) (x :: sorted).
Proof.
  unfold binary_insert.
  set (l := bisect _ _ _ _ _).
  transitivity (x :: firstn l sorted ++ skipn l sorted);
    [|now rewrite firstn_skipn].
  symmetry. apply Permutation_middle.
Qed.

Lemma binarysort_perm (rest acc : list (nat * pydict)) :
  Permutation (fold_left binary_insert rest acc) (acc ++ rest).
Proof.
  revert acc. induction rest as [|x rest IH]; intros acc; cbn.
  - now rewrite app_nil_r.
  - rewrite IH, binary_insert_perm. apply Permutation_middle.
Qed.

Lemma sort_rows_perm (rows : list (nat * pydict)) :
  Permutation (sort_rows rows) rows.
Proof.
  unfold sort_rows. destruct (count_run rows) as [n descending].
  rewrite binarysort_perm.
  transitivity (firstn n rows ++ skipn n rows); [|now rewrite firstn_skipn].
  apply Permutation_app_tail.
  destruct descending; [symmetry; apply Permutation_rev | reflexivity].
Qed.

(** The runs [count_run] finds. *)
Lemma run_ascending_sorted (rest : list (nat * pydict)) :
  forall prev, Forall comparable (prev :: rest) ->
  StronglySorted row_le (prev :: firstn (run_ascending prev rest) rest).
Proof.
  induction rest as [|x rest IH]; intros prev Hc; cbn.
  - repeat constructor.
  - destruct (row_ltb x prev) eqn:E; cbn; [repeat constructor|].
    inversion Hc as [|? ? Hp Hc']; subst.
    specialize (IH x Hc'). constructor; [exact IH|].
    inversion IH as [|? ? Hs Hall]; subst.
    constructor; [exact E|].
    rewrite Forall_forall in Hall |- *. intros z Hz.
    assert (Hzc : comparable z).
    { rewrite Forall_forall in Hc'. apply Hc'. right.
      eapply in_firstn; eassumption. }
    apply row_le_trans with x;
      [exact Hp | now inversion Hc' | exact Hzc | exact E | now apply Hall].
Qed.

Lemma run_descending_sorted (rest : list (nat * pydict)) :
  forall prev, Forall comparable (prev :: rest) ->
  StronglySorted (fun a b => row_le b a)
    (prev :: firstn (run_descending prev rest) rest).
Proof.
  induction rest as [|x rest IH]; intros prev Hc; cbn.
  - repeat constructor.
  - destruct (row_ltb x prev) eqn:E; cbn; [|repeat constructor].
    inversion Hc as [|? ? Hp Hc']; subst.
    specialize (IH x Hc'). constructor; [exact IH|].
    inversion IH as [|? ? Hs Hall]; subst.
    constructor; [now apply row_lt_le|].
    rewrite Forall_forall in Hall |- *. intros z Hz.
    assert (Hzc : comparable z).
    { rewrite Forall_forall in Hc'. apply Hc'. right.
      eapply in_firstn; eassumption. }
    apply (@row_le_trans z x prev);
      [exact Hzc | now inversion Hc' | exact Hp | now apply Hall
      | now apply row_lt_le].
Qed.

Lemma strongly_sorted_rev {A : Type} (le : A -> A -> Prop) (l : list A) :
  StronglySorted (fun a b => le b a) l -> StronglySorted le (rev l).
Proof.
  induction 1 as [|x l Hs IH Hall]; cbn; [constructor|].
  apply sorted_app; [exact IH | repeat constructor|].
  intros a b Ha [<-|[]]. rewrite Forall_forall in Hall.
  apply Hall. now apply in_rev.
Qed.

Lemma count_run_sorted (rows : list (nat * pydict)) :
  Forall comparable rows ->
  StronglySorted row_le
    (if snd (count_run rows) then rev (firstn (fst (count_run rows)) rows)
     else firstn (fst (count_run rows)) rows).
Proof.
  intros Hc. destruct rows as [|x [|y rest]]; cbn [count_run].
  - constructor.
  - repeat constructor.
  - inversion Hc as [|? ? Hx Hc']; subst.
    destruct (row_ltb y x) eqn:E; cbn [fst snd Nat.add firstn].
    + apply strongly_sorted_rev.
      pose proof (run_descending_sorted Hc') as H.
      constructor; [exact H|].
      inversion H as [|? ? Hs Hall]; subst.
      constructor; [now apply row_lt_le|].
      rewrite Forall_forall in Hall |- *. intros z Hz.
      assert (Hzc : comparable z).
      { rewrite Forall_forall in Hc'. apply Hc'. right.
        eapply in_firstn; eassumption. }
      apply (@row_le_trans z y x);
        [exact Hzc | now inversion Hc' | exact Hx | now apply Hall
        | now apply row_lt_le].
    + pose proof (run_ascending_sorted Hc') as H.
      constructor; [exact H|].
      inversion H as [|? ? Hs Hall]; subst.
      constructor; [exact E|].
      rewrite Forall_forall in Hall |- *. intros z Hz.
      assert (Hzc : comparable z).
      { rewrite Forall_forall in Hc'. apply Hc'. right.
        eapply in_firstn; eassumption. }
      apply (@row_le_trans x y z);
        [exact Hx | now inversion Hc' | exact Hzc | exact E | now apply Hall].
Qed.

Lemma StronglySorted_nth_error {A : Type} (le : A -> A -> Prop) (l : list A) :
  StronglySorted le l ->
  forall p q a b, p < q -> nth_error l p = Some a -> nth_error l q = Some b ->
  le a b.
Proof.
  induction 1 as [|x l Hs IH Hall]; intros p q a b Hpq Hp Hq.
  - destruct p; discriminate.
  - destruct q as [|q]; [lia|]. simpl in Hq. destruct p as [|p]; simpl in Hp.
    + injection Hp as <-. rewrite Forall_forall in Hall.
      apply Hall. eapply nth_error_In; eauto.
    + apply (IH p q); auto. lia.
Qed.

(** The binary search finds the place of the pivot in a sorted list. *)
Lemma bisect_spec (pivot : nat * pydict) (a : list (nat * pydict)) :
  comparable pivot -> Forall comparable a -> StronglySorted row_le a ->
  forall fuel l r,
    r - l <= fuel -> l <= r -> r <= List.length a ->
    (forall i y, i < l -> nth_error a i = Some y -> row_ltb pivot y = false) ->
    (forall i y, r <= i -> nth_error a i = Some y -> row_ltb pivot y = true) ->
    let k := bisect fuel pivot a l r in
    k <= List.length a /\
    (forall i y, i < k -> nth_error a i = Some y -> row_ltb pivot y = false) /\
    (forall i y, k <= i -> nth_error a i = Some y -> row_ltb pivot y = true).
Proof.
  intros Hp Hc Hs. rewrite Forall_forall in Hc.
  induction fuel as [|fuel IH]; intros l r Hf Hlr Hr Hlo Hhi; cbn [bisect].
  - assert (l = r) by lia. subst r. split; [exact Hr|]. split; assumption.
  - destruct (Nat.ltb_spec l r) as [Hlt|Hge].
    + assert (Hhalf : (r - l) / 2 < r - l) by (apply Nat.div_lt; lia).
      set (p := l + (r - l) / 2) in *.
      assert (Hpr : p < r) by (unfold p; lia).
      destruct (nth_error a p) as [y|] eqn:Ey;
        [|apply nth_error_None in Ey; lia].
      assert (Hyc : comparable y) by (apply Hc; eapply nth_error_In; eauto).
      destruct (row_ltb pivot y) eqn:E.
      * apply IH; try (unfold p; lia); [exact Hlo|].
        intros i z Hi Hz.
        destruct (Nat.eq_dec i p) as [->|Hne]; [congruence|].
        apply row_lt_le_trans with y; auto.
        -- apply Hc. eapply nth_error_In; eauto.
        -- apply (StronglySorted_nth_error Hs (p := p) (q := i)); auto. lia.
      * apply IH; try lia; [|exact Hhi].
        intros i z Hi Hz.
        destruct (Nat.eq_dec i p) as [->|Hne]; [congruence|].
        apply (@row_le_trans z y pivot); auto.
        -- apply Hc. eapply nth_error_In; eauto.
        -- apply (StronglySorted_nth_error Hs (p := i) (q := p)); auto. lia.
    + assert (l = r) by lia. subst r. split; [exact Hr|]. split; assumption.
Qed.

Lemma in_firstn_nth {A : Type} (k : nat) (l : list A) (x : A) :
  In x (firstn k l) -> exists i, i < k /\ nth_error l i = Some x.
Proof.
  intros H. apply In_nth_error in H as [i Hi]. exists i.
  assert (Hlt : i < List.length (firstn k l)) by (apply nth_error_Some; congruence).
  rewrite length_firstn in Hlt. split; [lia|].
  rewrite nth_error_firstn in Hi.
  destruct (Nat.ltb_spec i k); [exact Hi | lia].
Qed.

Lemma in_skipn_nth {A : Type} (k : nat) (l : list A) (x : A) :
  In x (skipn k l) -> exists i, k <= i /\ nth_error l i = Some x.
Proof.
  intros H. apply In_nth_error in H as [i Hi]. exists (k + i).
  split; [lia|]. now rewrite <- nth_error_skipn.
Qed.

Lemma binary_insert_sorted (sorted : list (nat * pydict)) (pivot : nat * pydict) :
  comparable pivot -> Forall comparable sorted ->
  StronglySorted row_le sorted ->
  StronglySorted row_le (binary_insert sorted pivot).
Proof.
  intros Hp Hc Hs. unfold binary_insert.
  destruct (@bisect_spec pivot sorted Hp Hc Hs (List.length sorted) 0
              (List.length sorted)) as [Hk [Hlo Hhi]];
    try lia.
  { intros i y Hi Hy. exfalso. assert (i < List.length sorted)
      by (apply nth_error_Some; congruence). lia. }
  set (k := bisect _ _ _ _ _) in *.
  rewrite <- (firstn_skipn k sorted) in Hs.
  apply strongly_sorted_app_inv in Hs as [H1 [H2 Hcross]].
  apply sorted_app; [exact H1| |].
  - constructor; [exact H2|]. apply Forall_forall. intros y Hy.
    apply in_skipn_nth in Hy as [i [Hi Hy]].
    apply row_lt_le. now apply (Hhi i).
  - intros x y Hx [<-|Hy]; [|now apply Hcross].
    apply in_firstn_nth in Hx as [i [Hi Hx]]. now apply (Hlo i).
Qed.

Lemma binarysort_sorted (rest : list (nat * pydict)) :
  forall acc, Forall comparable rest -> Forall comparable acc ->
  StronglySorted row_le acc ->
  StronglySorted row_le (fold_left binary_insert rest acc).
Proof.
  induction rest as [|x rest IH]; intros acc Hr Ha Hs; cbn; [exact Hs|].
  inversion Hr as [|? ? Hx Hr']; subst.
  apply IH; [exact Hr'| |now apply binary_insert_sorted].
  eapply Permutation_Forall; [symmetry; apply binary_insert_perm|].
  now constructor.
Qed.

Lemma sort_rows_sorted (rows : list (nat * pydict)) :
  Forall comparable rows -> StronglySorted row_le (sort_rows rows).
Proof.
  intros Hc. pose proof (count_run_sorted Hc) as Hrun.
  unfold sort_rows. destruct (count_run rows) as [n descending].
  cbn [fst snd] in Hrun.
  assert (Hc' : Forall comparable (firstn n rows ++ skipn n rows))
    by now rewrite firstn_skipn.
  apply Forall_app in Hc' as [H1 H2].
  apply binarysort_sorted; [exact H2 | | exact Hrun].
  destruct descending; [|exact H1].
  eapply Permutation_Forall; [apply Permutation_rev | exact H1].
Qed.

Lemma event_timestamp_normalize (R : runtime) (event : pydict) :
  event_timestamp (normalize_event R event) =
  match py_float R (dict_get_default "timestamp" event (JFloat (Fin 0))) with
  | Some x => x
  | None => Fin 0
  end.
Proof.
  unfold event_timestamp, normalize_event, dict_get_default at 1.
  now rewrite dict_get_set_same.
Qed.

(** ** The rows of the loader *)

Lemma index_events_fst (R : runtime) (l : list json) (idx : nat) :
  Forall (fun row => idx <= fst row) (index_events R idx l).
Proof.
  revert idx. induction l as [|v l IH]; intros idx; simpl; [constructor|].
  assert (H : Forall (fun row => idx <= fst row) (index_events R (S idx) l)).
  { eapply Forall_impl; [|apply IH]. simpl. intros; lia. }
  destruct v; auto.
Qed.

Lemma index_events_NoDup (R : runtime) (l : list json) (idx : nat) :
  NoDup (map fst (index_events R idx l)).
Proof.
  revert idx. induction l as [|v l IH]; intros idx; simpl; [constructor|].
  destruct v; auto. simpl. constructor; [|apply IH].
  intros Hin. apply in_map_iff in Hin as [row [Hrow Hin]].
  pose proof (index_events_fst R l (S idx)) as H.
  rewrite Forall_forall in H. apply H in Hin. lia.
Qed.

Lemma index_events_snd (R : runtime) (l : list json) (idx : nat) :
  map snd (index_events R idx l) = map (normalize_event R) (records_of l).
Proof.
  revert idx. induction l as [|v l IH]; intros idx; simpl; [reflexivity|].
  destruct v; simpl; auto. now rewrite IH.
Qed.

Lemma index_events_comparable (R : runtime) (l : list json) (idx : nat) :
  Forall (timestamp_not_nan R) l ->
  Forall comparable (index_events R idx l).
Proof.
  revert idx. induction l as [|v l IH]; intros idx H; simpl; [constructor|].
  inversion H as [|? ? Hv Hl]; subst.
  destruct v; auto. constructor; [|now apply IH].
  unfold comparable. cbn [snd]. rewrite event_timestamp_normalize.
  cbn in Hv. destruct (py_float R _) as [x|]; congruence.
Qed.

Lemma sorted_rows_order (rows : list (nat * pydict)) :
  NoDup (map fst rows) ->
  Forall comparable rows ->
  forall p q a b, p < q ->
    nth_error (sort_rows rows) p = Some a ->
    nth_error (sort_rows rows) q = Some b ->
    fleb (event_timestamp (snd a)) (event_timestamp (snd b)) = true /\
    (feqb (event_timestamp (snd a)) (event_timestamp (snd b)) = true ->
     fst a < fst b).
Proof.
  intros Hnd Hc p q a b Hpq Hp Hq.
  assert (Hne : fst a <> fst b).
  { assert (Hnd' : NoDup (map fst (sort_rows rows))).
    { eapply Permutation_NoDup; [|exact Hnd].
      apply Permutation_map. symmetry. apply sort_rows_perm. }
    intros Heq. rewrite NoDup_nth_error in Hnd'.
    assert (p = q); [|lia]. apply Hnd'.
    - rewrite length_map. apply nth_error_Some. congruence.
    - rewrite !nth_error_map, Hp, Hq. simpl. now rewrite Heq. }
  assert (Hc' : Forall comparable (sort_rows rows)).
  { eapply Permutation_Forall; [symmetry; apply sort_rows_perm | exact Hc]. }
  rewrite Forall_forall in Hc'.
  assert (Ha : comparable a) by (apply Hc'; eapply nth_error_In; eauto).
  assert (Hb : comparable b) by (apply Hc'; eapply nth_error_In; eauto).
  pose proof (StronglySorted_nth_error (sort_rows_sorted Hc) Hpq Hp Hq) as H.
  unfold row_le in H. rewrite key_ltb_false_iff in H by assumption.
  simpl in H. unfold fleb, fltb, feqb in *.
  destruct (fcompare (event_timestamp (snd a)) (event_timestamp (snd b)))
    as [[| |]|]; destruct H as [H|[H L]]; try discriminate;
    split; try reflexivity; intros; try discriminate; lia.
Qed.

Lemma load_of_records (R : runtime) (events_path : string) (payload : json)
  (l : list json) :
  read_json R events_path = Ok payload ->
  payload_records payload = Ok l ->
  _load_replay_events R events_path =
  Ok (map snd (sort_rows (index_events R 0 l))).
Proof.
  intros Hread Hrec. unfold _load_replay_events, events_of_payload.
  now rewrite Hread, Hrec.
Qed.

(** C1, as the specification states it, fails: a trace document can hold
    the timestamp [NaN], which [json.load] accepts and [float()] returns
    as it is, and among keys with a [nan] the sort finds nothing to
    reorder.  The records with timestamps 2, NaN, 1 are loaded in this
    very order, 2.0 before 1.0. *)
Lemma nan_timestamp_breaks_order :
  let doc := JArr [JObj [("timestamp", JInt 2)];
                   JObj [("timestamp", JFloat NaN)];
                   JObj [("timestamp", JInt 1)]] in
  _load_replay_events (test_runtime (Ok doc) false) "trace.json" =
    Ok [[("timestamp", JFloat (Fin 2))]; [("timestamp", JFloat NaN)];
        [("timestamp", JFloat (Fin 1))]] /\
  ~ (forall (R : runtime) (events_path : string) (payload : json)
       (l : list json),
       read_json R events_path = Ok payload ->
       payload_records payload = Ok l ->
       exists rows,
         _load_replay_events R events_path = Ok (map snd rows) /\
         Permutation rows (index_events R 0 l) /\
         (forall p q a b, p < q ->
            nth_error rows p = Some a -> nth_error rows q = Some b ->
            fleb (event_timestamp (snd a)) (event_timestamp (snd b)) = true /\
            (feqb (event_timestamp (snd a)) (event_timestamp (snd b)) = true ->
             fst a < fst b))).
Proof.
  intros doc.
  assert (Hload : _load_replay_events (test_runtime (Ok doc) false) "trace.json" =
    Ok [[("timestamp", JFloat (Fin 2))]; [("timestamp", JFloat NaN)];
        [("timestamp", JFloat (Fin 1))]]) by (vm_compute; reflexivity).
  split; [exact Hload|].
  intros H.
  destruct (H (test_runtime (Ok doc) false) "trace.json" doc _ eq_refl eq_refl)
    as [rows [Hrows [_ Hord]]].
  rewrite Hload in Hrows. injection Hrows as Hrows.
  destruct rows as [|a [|b [|c [|]]]]; try discriminate Hrows.
  injection Hrows as Ha _ Hc.
  destruct (Hord 0 2 a c) as [Hle _]; [lia | reflexivity | reflexivity |].
  rewrite <- Ha, <- Hc in Hle. vm_compute in Hle. discriminate Hle.
Qed.

(** C1, amended.  When no record has the timestamp [nan], the loader
    returns the records sorted ascending by (timestamp, original index): a
    record that comes earlier in the result has a timestamp that is not
    greater, and among equal timestamps the smaller original index, so
    that ties keep their original order.  For records with timestamps 3,
    1, 2 at indices 0, 1, 2 the loaded order is indices 1, 2, 0. *)
Theorem load_sorted_by_timestamp_then_index (R : runtime)
  (events_path : string) (payload : json) (l : list json) :
  read_json R events_path = Ok payload ->
  payload_records payload = Ok l ->
  Forall (timestamp_not_nan R) l ->
  exists rows,
    _load_replay_events R events_path = Ok (map snd rows) /\
    Permutation rows (index_events R 0 l) /\
    (forall p q a b, p < q ->
       nth_error rows p = Some a -> nth_error rows q = Some b ->
       fleb (event_timestamp (snd a)) (event_timestamp (snd b)) = true /\
       (feqb (event_timestamp (snd a)) (event_timestamp (snd b)) = true ->
        fst a < fst b)) /\
    (forall e0 e1 e2, l = [JObj e0; JObj e1; JObj e2] ->
       py_float R (dict_get_default "timestamp" e0 (JFloat (Fin 0)))
         = Some (Fin 3) ->
       py_float R (dict_get_default "timestamp" e1 (JFloat (Fin 0)))
         = Some (Fin 1) ->
       py_float R (dict_get_default "timestamp" e2 (JFloat (Fin 0)))
         = Some (Fin 2) ->
       rows = [(1, normalize_event R e1); (2, normalize_event R e2);
               (0, normalize_event R e0)]).
Proof.
  intros Hread Hrec Hnan. exists (sort_rows (index_events R 0 l)).
  split; [now apply load_of_records with payload|].
  split; [apply sort_rows_perm|].
  split; [apply sorted_rows_order;
          [apply index_events_NoDup | now apply index_events_comparable]|].
  intros e0 e1 e2 -> H0 H1 H2.
  assert (T0 : event_timestamp (normalize_event R e0) = Fin 3)
    by now rewrite event_timestamp_normalize, H0.
  assert (T1 : event_timestamp (normalize_event R e1) = Fin 1)
    by now rewrite event_timestamp_normalize, H1.
  assert (T2 : event_timestamp (normalize_event R e2) = Fin 2)
    by now rewrite event_timestamp_normalize, H2.
  assert (L10 : row_ltb (1, normalize_event R e1) (0, normalize_event R e0)
                = true)
    by (unfold row_ltb, sort_key, key_ltb; cbn [fst snd]; now rewrite T0, T1).
  assert (L21 : row_ltb (2, normalize_event R e2) (1, normalize_event R e1)
                = false)
    by (unfold row_ltb, sort_key, key_ltb; cbn [fst snd]; now rewrite T1, T2).
  assert (L20 : row_ltb (2, normalize_event R e2) (0, normalize_event R e0)
                = true)
    by (unfold row_ltb, sort_key, key_ltb; cbn [fst snd]; now rewrite T0, T2).
  cbn [index_events]. unfold sort_rows. cbn [count_run]. rewrite L10.
  cbn [run_descending]. rewrite L21.
  cbn [Nat.add firstn skipn rev app fold_left]. unfold binary_insert.
  cbn [List.length bisect Nat.ltb Nat.leb Nat.sub Nat.add].
  change ((2 / 2)%nat) with 1. cbn [nth_error]. rewrite L20.
  cbn [Nat.ltb Nat.leb Nat.sub Nat.add]. change ((1 / 2)%nat) with 0.
  cbn [nth_error Nat.add]. rewrite L21. cbn. reflexivity.
Qed.

Lemma load_sorted_by_timestamp_then_index_witness :
  let l := [JObj [("timestamp", JInt 3); ("event_type", JStr "c")];
            JObj [("timestamp", JFloat (Fin 1)); ("event_type", JStr "a")];
            JObj [("timestamp", JInt 2); ("event_type", JStr "b")]] in
  let R := test_runtime (Ok (JObj [("events", JArr l)])) false in
  exists rows,
    _load_replay_events R "trace.json" = Ok (map snd rows) /\
    Permutation rows (index_events R 0 l) /\
    rows = [(1, [("timestamp", JFloat (Fin 1)); ("event_type", JStr "a")]);
            (2, [("timestamp", JFloat (Fin 2)); ("event_type", JStr "b")]);
            (0, [("timestamp", JFloat (Fin 3)); ("event_type", JStr "c")])].
Proof.
  intros l R.
  destruct (@load_sorted_by_timestamp_then_index
              R "trace.json" (JObj [("events", JArr l)]) l eq_refl eq_refl)
    as [rows [Hload [Hperm [_ Hex]]]].
  - repeat constructor; discriminate.
  - exists rows. split; [exact Hload|]. split; [exact Hperm|].
    rewrite (Hex _ _ _ eq_refl eq_refl eq_refl eq_refl). reflexivity.
Defined.

(** C7.  Loading an array never fails on a single record: every entry
    that is a dict is kept (normalised), every other entry is skipped,
    and a dict whose timestamp is absent or not convertible to a number
    is kept with timestamp 0.0 and its other fields as they were. *)
Theorem load_tolerates_bad_records (R : runtime) (events_path : string)
  (l : list json) :
  read_json R events_path = Ok (JArr l) ->
  exists evs,
    _load_replay_events R events_path = Ok evs /\
    Permutation evs (map (normalize_event R) (records_of l)) /\
    (forall d, In (JObj d) l ->
       dict_get "timestamp" d = None \/
       (exists v, dict_get "timestamp" d = Some v /\ py_float R v = None) ->
       normalize_event R d = dict_set "timestamp" (JFloat (Fin 0)) d /\
       In (dict_set "timestamp" (JFloat (Fin 0)) d) evs).
Proof.
  intros Hread.
  exists (map snd (sort_rows (index_events R 0 l))).
  split; [now apply load_of_records with (JArr l)|].
  assert (Hperm : Permutation (map snd (sort_rows (index_events R 0 l)))
                    (map (normalize_event R) (records_of l))).
  { rewrite <- (index_events_snd R l 0).
    apply Permutation_map, sort_rows_perm. }
  split; [exact Hperm|].
  intros d Hin Hts.
  assert (Hnorm : normalize_event R d = dict_set "timestamp" (JFloat (Fin 0)) d).
  { unfold normalize_event, dict_get_default.
    destruct Hts as [-> | [v [-> Hv]]]; simpl; [reflexivity | now rewrite Hv]. }
  split; [exact Hnorm|].
  eapply Permutation_in; [symmetry; exact Hperm|].
  rewrite <- Hnorm. apply in_map. unfold records_of.
  apply in_flat_map. exists (JObj d). split; [exact Hin | now left].
Qed.

Lemma load_tolerates_bad_records_witness :
  let l := [JInt 7; JObj [("timestamp", JStr "soon"); ("event_type", JStr "x")];
            JStr "noise"; JObj [("event_type", JStr "y")]] in
  exists evs,
    _load_replay_events (test_runtime (Ok (JArr l)) false) "trace.json" = Ok evs /\
    In [("timestamp", JFloat (Fin 0)); ("event_type", JStr "x")] evs /\
    In [("event_type", JStr "y"); ("timestamp", JFloat (Fin 0))] evs /\
    List.length evs = 2.
Proof.
  intros l.
  destruct (@load_tolerates_bad_records
              (test_runtime (Ok (JArr l)) false) "trace.json" l eq_refl)
    as [evs [Hload [Hperm Hkept]]].
  exists evs. split; [exact Hload|]. split; [|split].
  - apply (Hkept [("timestamp", JStr "soon"); ("event_type", JStr "x")]).
    + simpl; auto.
    + right. exists (JStr "soon"). split; reflexivity.
  - apply (Hkept [("event_type", JStr "y")]).
    + simpl; auto.
    + left. reflexivity.
  - rewrite (Permutation_length Hperm). reflexivity.
Defined.

(** ** Stop *)

Lemma stop_runs (R : runtime) (reason : string) (m : machine) :
  let snap :=
    state_update (replay_state m)
      [Set_running false; Set_completed false;
       Set_session_id (session_id (replay_state m) + 1)%Z;
       Set_finished_at (Some (iso (clock R (ticks m))));
       Set_error (if String.eqb reason "stopped" || String.eqb reason ""
                  then None else Some reason)] in
  _stop_replay_session R reason m =
  (Ok snap, with_replay_state snap (with_ticks (S (ticks m)) m),
   [Emit_replay_state snap]).
Proof. reflexivity. Qed.

(** C10.  Stop sets [completed] to false whatever the state was: after a
    stop (also one that follows a finished replay) the status snapshot
    reports running=false and completed=false, and the epoch is one more
    than before although no worker took part. *)
Theorem stop_clears_completed (R : runtime) (reason : string) (m : machine) :
  exists snap m',
    _stop_replay_session R reason m = (Ok snap, m', [Emit_replay_state snap]) /\
    replay_status m' = (Ok (Resp_state snap), m', []) /\
    running snap = false /\
    completed snap = false /\
    session_id snap = (session_id (replay_state m) + 1)%Z /\
    threads m' = threads m.
Proof.
  eexists. eexists. split; [apply stop_runs|].
  destruct m as [[r c i p v t n l ts sa fa e] h cl tk th].
  repeat split.
Qed.

(** ** Start *)

Lemma start_session_fails (R : runtime) (events_path : string) (speed' : pyfloat)
  (m : machine) (msg : string) :
  _load_replay_events R events_path = Raise msg \/
  (_load_replay_events R events_path = Ok [] /\ msg = "events file is empty") ->
  _start_replay_session R events_path speed' m = (Raise msg, m, []).
Proof.
  unfold _start_replay_session, bind, lift.
  intros [-> | [-> ->]]; reflexivity.
Qed.

Lemma replay_start_fails (R : runtime) (events_path_raw events_path : string)
  (speed_raw : json) (m : machine) (msg : string) :
  resolve_path R events_path_raw = Some events_path ->
  _load_replay_events R events_path = Raise msg \/
  (_load_replay_events R events_path = Ok [] /\ msg = "events file is empty") ->
  let m1 := if running (replay_state m)
            then snd (fst (_stop_replay_session R "restarted" m)) else m in
  let snap := state_update (replay_state m1)
                [Set_running false; Set_completed false;
                 Set_events_path events_path; Set_error (Some msg);
                 Set_finished_at (Some (iso (clock R (ticks m1))))] in
  replay_start R events_path_raw speed_raw m =
  (Ok (Resp_error 400 (Some msg)),
   with_replay_state snap (with_ticks (S (ticks m1)) m1),
   (if running (replay_state m)
    then snd (_stop_replay_session R "restarted" m) else [])
   ++ [Emit_replay_state snap]).
Proof.
  intros Hres Hload. unfold replay_start. rewrite Hres.
  unfold bind at 1. cbn [_replay_state_snapshot bind get ret].
  destruct (running (replay_state m)) eqn:Hrun.
  - unfold bind at 1. unfold bind at 1. rewrite stop_runs.
    cbn [ret app]. unfold try_except, bind at 1.
    rewrite (start_session_fails R _ _ _ Hload). reflexivity.
  - unfold bind at 1. cbn [ret app]. unfold try_except, bind at 1.
    rewrite (start_session_fails R _ _ _ Hload). reflexivity.
Qed.

(** C3, as the specification states it, fails: a start request whose
    trace is empty does not leave the shared replay state as it was.  From
    the initial state the failed start stores the message in [error]. *)
Lemma failed_start_changes_replay_state :
  ~ (forall (R : runtime) (events_path_raw events_path : string)
       (speed_raw : json) (m m' : machine) (r : outcome response)
       (out : list emission),
       resolve_path R events_path_raw = Some events_path ->
       (exists msg, _load_replay_events R events_path = Raise msg) \/
       _load_replay_events R events_path = Ok [] ->
       replay_start R events_path_raw speed_raw m = (r, m', out) ->
       replay_state m' = replay_state m).
Proof.
  intros H.
  pose (R := test_runtime (Ok (JArr [])) false).
  specialize (H R "trace.json" "trace.json" JNull (initial_machine R)
                _ _ _ eq_refl (or_intror eq_refl) eq_refl).
  apply (f_equal error) in H. discriminate H.
Qed.

(** C3, amended.  When loading fails (the document cannot be read, is
    not an array, or has no usable record), [_start_replay_session]
    raises before it touches anything: no epoch is allocated and the
    machine is as before.  The start handler returns the error to the
    caller with status 400, spawns no worker, and records the failure in
    the shared state: running=false, completed=false, the requested
    path, the message in [error] and the time in [finished_at]; the other
    fields keep their values, except that the epoch is one more when a
    session was running, since the handler stops it before it loads. *)
Theorem failed_start_records_error (R : runtime)
  (events_path_raw path : string) (speed_raw : json) (speed' : pyfloat)
  (m : machine) (msg : string) :
  resolve_path R events_path_raw = Some path ->
  _load_replay_events R path = Raise msg \/
  (_load_replay_events R path = Ok [] /\ msg = "events file is empty") ->
  _start_replay_session R path speed' m = (Raise msg, m, []) /\
  exists m' out,
    replay_start R events_path_raw speed_raw m =
      (Ok (Resp_error 400 (Some msg)), m', out) /\
    threads m' = threads m /\
    running (replay_state m') = false /\
    completed (replay_state m') = false /\
    events_path (replay_state m') = path /\
    error (replay_state m') = Some msg /\
    (exists t, finished_at (replay_state m') = Some t) /\
    session_id (replay_state m') =
      (if running (replay_state m) then session_id (replay_state m) + 1
       else session_id (replay_state m))%Z /\
    speed (replay_state m') = speed (replay_state m) /\
    events_total (replay_state m') = events_total (replay_state m) /\
    events_sent (replay_state m') = events_sent (replay_state m) /\
    last_event_type (replay_state m') = last_event_type (replay_state m) /\
    last_event_ts (replay_state m') = last_event_ts (replay_state m) /\
    started_at (replay_state m') = started_at (replay_state m).
Proof.
  intros Hres Hload. split; [now apply start_session_fails|].
  eexists. eexists. split; [exact (@replay_start_fails R _ _ speed_raw m _ Hres Hload)|].
  destruct m as [[r c i p v t n l ts sa fa e] h cl tk th].
  destruct r; cbn; repeat split; eauto.
Qed.

Lemma failed_start_records_error_witness :
  let R := test_runtime (Ok (JStr "not an array")) false in
  let m := initial_machine R in
  exists m' out,
    replay_start R "trace.json" (JFloat (Fin 2)) m =
      (Ok (Resp_error 400 (Some "events file must be a JSON array")), m', out) /\
    error (replay_state m') = Some "events file must be a JSON array" /\
    session_id (replay_state m') = 0%Z.
Proof.
  intros R m.
  destruct (@failed_start_records_error R "trace.json" "trace.json"
              (JFloat (Fin 2)) (Fin 2) m "events file must be a JSON array"
              eq_refl (or_introl eq_refl))
    as [_ [m' [out [Hrun [_ [_ [_ [_ [Herr [_ [Hsid _]]]]]]]]]]].
  exists m', out. repeat split; assumption.
Defined.

(** ** Empty traces *)

Lemma load_no_records (R : runtime) (events_path : string) (l : list json) :
  read_json R events_path = Ok (JArr l) ->
  records_of l = [] ->
  _load_replay_events R events_path = Ok [].
Proof.
  intros Hread Hnone.
  rewrite (@load_of_records R events_path (JArr l) l Hread eq_refl).
  f_equal. apply Permutation_nil.
  change (@nil pydict) with (map (normalize_event R) []).
  rewrite <- Hnone, <- (index_events_snd R l 0).
  symmetry. apply Permutation_map, sort_rows_perm.
Qed.

(** C6.  A trace that loads to no usable event (in particular an array
    none of whose entries is a dict) makes the start fail: the session
    function raises, the handler answers the caller with the error, and
    no worker is spawned. *)
Theorem empty_trace_start_fails (R : runtime)
  (events_path_raw events_path : string) (speed_raw : json) (speed' : pyfloat)
  (m : machine) :
  resolve_path R events_path_raw = Some events_path ->
  _load_replay_events R events_path = Ok [] \/
  (exists l, read_json R events_path = Ok (JArr l) /\ records_of l = []) ->
  _start_replay_session R events_path speed' m =
    (Raise "events file is empty", m, []) /\
  exists m' out,
    replay_start R events_path_raw speed_raw m =
      (Ok (Resp_error 400 (Some "events file is empty")), m', out) /\
    threads m' = threads m /\
    running (replay_state m') = false.
Proof.
  intros Hres Hempty.
  assert (Hload : _load_replay_events R events_path = Ok []).
  { destruct Hempty as [H | [l [Hread Hnone]]]; [exact H|].
    now apply load_no_records with l. }
  split; [apply start_session_fails; now right|].
  eexists. eexists.
  split; [exact (@replay_start_fails R _ _ speed_raw m _ Hres
                  (or_intror (conj Hload eq_refl)))|].
  destruct m as [[r c i p v t n l ts sa fa e] h cl tk th].
  destruct r; cbn; split; reflexivity.
Qed.

Lemma empty_trace_start_fails_witness :
  let R := test_runtime (Ok (JArr [JInt 1; JStr "two"; JNull])) false in
  let m := initial_machine R in
  _start_replay_session R "trace.json" (Fin 1) m =
    (Raise "events file is empty", m, []) /\
  exists m' out,
    replay_start R "trace.json" JNull m =
      (Ok (Resp_error 400 (Some "events file is empty")), m', out) /\
    threads m' = [].
Proof.
  intros R m.
  destruct (@empty_trace_start_fails R "trace.json" "trace.json" JNull (Fin 1) m
              eq_refl
              (or_intror (ex_intro _ [JInt 1; JStr "two"; JNull]
                            (conj eq_refl eq_refl))))
    as [Hs [m' [out [Hrun [Hth _]]]]].
  split; [exact Hs|]. exists m', out. split; [exact Hrun | exact Hth].
Defined.

(** ** Stopping twice *)

(** C5, as the specification states it, fails: the second of two stops
    in a row does not return the snapshot of the first; each stop
    allocates a new epoch. *)
Lemma stop_twice_snapshots_differ :
  ~ (forall (R : runtime) (m m1 m2 : machine) (s1 s2 : ReplayState)
       (o1 o2 : list emission),
       _stop_replay_session R "stopped" m = (Ok s1, m1, o1) ->
       _stop_replay_session R "stopped" m1 = (Ok s2, m2, o2) ->
       s2 = s1).
Proof.
  intros H.
  pose (R := test_runtime (Ok JNull) false).
  specialize (H R (initial_machine R) _ _ _ _ _ _ eq_refl eq_refl).
  apply (f_equal session_id) in H. discriminate H.
Qed.

(** C5, amended.  Two stops in a row both return a snapshot with
    running=false, completed=false and error=null; the second differs
    from the first in the epoch, which it increments again, and in
    [finished_at], which it overwrites with the time of the second call,
    and in nothing else. *)
Theorem stop_twice_same_but_epoch_and_time (R : runtime) (m : machine) :
  exists s1 m1 s2 m2,
    replay_stop R m = (Ok (Resp_state s1), m1, [Emit_replay_state s1]) /\
    replay_stop R m1 = (Ok (Resp_state s2), m2, [Emit_replay_state s2]) /\
    running s1 = false /\ running s2 = false /\
    completed s1 = false /\ completed s2 = false /\
    error s1 = None /\ error s2 = None /\
    session_id s2 = (session_id s1 + 1)%Z /\
    finished_at s2 = Some (iso (clock R (S (ticks m)))) /\
    events_path s2 = events_path s1 /\
    speed s2 = speed s1 /\
    events_total s2 = events_total s1 /\
    events_sent s2 = events_sent s1 /\
    last_event_type s2 = last_event_type s1 /\
    last_event_ts s2 = last_event_ts s1 /\
    started_at s2 = started_at s1.
Proof.
  destruct m as [[r c i p v t n l ts sa fa e] h cl tk th].
  do 4 eexists. split; [reflexivity|]. split; [reflexivity|].
  cbn. repeat split.
Qed.

(** ** The command history *)

Lemma history_append_last (entry : pydict) (history : list pydict) :
  last (history_append entry history) [] = entry.
Proof.
  unfold history_append.
  destruct (MAX_HISTORY <? List.length (history ++ [entry]))%nat eqn:E.
  - destruct history as [|x history]; [discriminate E|].
    simpl. apply last_last.
  - apply last_last.
Qed.

(** C9.  In the terminal-notify path the caller's timestamp survives
    only if the request supplies both [timestamp] and [ts_ms]: then the
    stored entry carries the two supplied values and the clock is not
    read.  If one of them (or both) is missing, both fields of the stored
    entry are the server's current time, and a supplied value is lost.
    An entry is stored for every request with a non-empty dict as its
    body, unless [normalize_grep_no_match] raises (the [OverflowError] of
    an infinite [exit_code]): then the handler answers 400 and stores
    nothing. *)
Theorem notify_keeps_timestamp_only_if_both (R : runtime) (d : pydict)
  (m : machine) :
  d <> [] ->
  match normalize_grep_no_match R (dict_get_default "command" d (JStr ""))
          (dict_get_default "result" d JNull)
          (dict_get_default "is_error" d (JBool false)) with
  | Raise _ =>
      terminal_notify R (Ok (JObj d)) m = (Ok (Resp_error 400 None), m, [])
  | Ok (result, is_error) =>
      exists entry m',
        terminal_notify R (Ok (JObj d)) m =
          (Ok Resp_ok, m', [Emit_command_executed entry]) /\
        last (command_history m') [] = entry /\
        dict_get "result" entry = Some result /\
        dict_get "is_error" entry = Some is_error /\
        (supplied "timestamp" d && supplied "ts_ms" d = true ->
         dict_get "timestamp" entry
           = Some (dict_get_default "timestamp" d JNull) /\
         dict_get "ts_ms" entry = Some (dict_get_default "ts_ms" d JNull) /\
         ticks m' = ticks m) /\
        (supplied "timestamp" d && supplied "ts_ms" d = false ->
         dict_get "timestamp" entry = Some (JStr (iso (clock R (ticks m)))) /\
         dict_get "ts_ms" entry = Some (JInt (ms (clock R (ticks m)))) /\
         ticks m' = S (ticks m))
  end.
Proof.
  intros Hd.
  assert (Ht : truthy (JObj d) = true) by (destruct d; [contradiction | reflexivity]).
  destruct (normalize_grep_no_match R (dict_get_default "command" d (JStr ""))
              (dict_get_default "result" d JNull)
              (dict_get_default "is_error" d (JBool false)))
    as [[result is_error]|msg] eqn:E;
    unfold terminal_notify, supplied, try_except, bind at 1, lift;
    rewrite Ht; unfold bind at 1; rewrite E; [|reflexivity].
  set (ts := dict_get_default "timestamp" d JNull).
  set (ts_ms := dict_get_default "ts_ms" d JNull).
  destruct (is_none ts) eqn:E1; destruct (is_none ts_ms) eqn:E2; cbn;
    (eexists; eexists; split; [reflexivity|]);
    (split; [cbn; apply history_append_last|]);
    (split; [reflexivity|]); (split; [reflexivity|]);
    split; intros H; try discriminate H; repeat split.
Qed.

Lemma notify_keeps_timestamp_only_if_both_witness :
  let R := test_runtime (Ok JNull) false in
  let d := [("command", JStr "ls"); ("timestamp", JStr "2020-01-01T00:00:00")] in
  exists entry m',
    terminal_notify R (Ok (JObj d)) (initial_machine R) =
      (Ok Resp_ok, m', [Emit_command_executed entry]) /\
    command_history m' = [entry] /\
    dict_get "timestamp" entry = Some (JStr "T0") /\
    dict_get "ts_ms" entry = Some (JInt 0).
Proof.
  intros R d.
  pose proof (@notify_keeps_timestamp_only_if_both R d (initial_machine R)) as H.
  cbn [normalize_grep_no_match dict_get_default dict_get d String.eqb
       Ascii.eqb Bool.eqb] in H.
  destruct H as [entry [m' [Hrun [_ [_ [_ [_ Hlost]]]]]]]; [discriminate|].
  exists entry, m'. split; [exact Hrun|].
  destruct (Hlost eq_refl) as [H1 [H2 _]].
  split; [|split; assumption].
  injection Hrun as <- <-. reflexivity.
Defined.

(** ** Transition relations along a computation *)

Section Frame.

Variable T : machine -> list emission -> machine -> Prop.
Hypothesis T_nil : forall m, T m [] m.
Hypothesis T_app : forall m o1 m1 o2 m2,
  T m o1 m1 -> T m1 o2 m2 -> T m (o1 ++ o2) m2.

Lemma sat_ret {A : Type} (a : A) : sat T (ret a).
Proof. intros m r m' out H. injection H as _ <- <-. apply T_nil. Qed.

Lemma sat_raise {A : Type} (msg : string) : sat T (@raise A msg).
Proof. intros m r m' out H. injection H as _ <- <-. apply T_nil. Qed.

Lemma sat_lift {A : Type} (r : outcome A) : sat T (lift r).
Proof. intros m r' m' out H. injection H as _ <- <-. apply T_nil. Qed.

Lemma sat_get : sat T get.
Proof. intros m r m' out H. injection H as _ <- <-. apply T_nil. Qed.

Lemma sat_modify (f : machine -> machine) :
  (forall m, T m [] (f m)) -> sat T (modify f).
Proof. intros Hf m r m' out H. injection H as _ <- <-. apply Hf. Qed.

Lemma sat_emit (e : emission) :
  (forall m, T m [e] m) -> sat T (socketio_emit e).
Proof. intros He m r m' out H. injection H as _ <- <-. apply He. Qed.

Lemma sat_bind {A B : Type} (c : M A) (k : A -> M B) :
  sat T c -> (forall a, sat T (k a)) -> sat T (bind c k).
Proof.
  intros Hc Hk m r m' out H. unfold bind in H.
  destruct (c m) as [[[a|msg] m1] out1] eqn:E1.
  - destruct (k a m1) as [[r2 m2] out2] eqn:E2.
    injection H as _ <- <-.
    eapply T_app; [eapply Hc | eapply Hk]; eassumption.
  - injection H as _ <- <-. eapply Hc; eassumption.
Qed.

Lemma sat_try_except {A : Type} (c : M A) (h : string -> M A) :
  sat T c -> (forall msg, sat T (h msg)) -> sat T (try_except c h).
Proof.
  intros Hc Hh m r m' out H. unfold try_except in H.
  destruct (c m) as [[[a|msg] m1] out1] eqn:E1.
  - injection H as _ <- <-. eapply Hc; eassumption.
  - destruct (h msg m1) as [[r2 m2] out2] eqn:E2.
    injection H as _ <- <-.
    eapply T_app; [eapply Hc | eapply Hh]; eassumption.
Qed.

Lemma sat_discard {A : Type} (c : M A) : sat T c -> sat T (discard c).
Proof.
  intros Hc m r m' out H. unfold discard in H.
  destruct (c m) as [[r1 m1] out1] eqn:E1.
  injection H as _ <- <-. eapply Hc; eassumption.
Qed.

(** The append to the history and its broadcast, taken together. *)
Lemma sat_modify_emit {B : Type} (f : machine -> machine) (e : emission)
  (k : M B) :
  (forall m, T m [e] (f m)) -> sat T k ->
  sat T (modify f ;; socketio_emit e ;; k).
Proof.
  intros Hfe Hk m r m' out H. unfold bind, modify, socketio_emit in H.
  destruct (k (f m)) as [[r2 m2] out2] eqn:E2.
  injection H as _ <- <-. simpl.
  change (e :: out2) with ([e] ++ out2).
  eapply T_app; [apply Hfe | eapply Hk; eassumption].
Qed.

(** A schedule satisfies what each of its actions does. *)
Lemma sat_exec (R : runtime) :
  (forall a, sat T (perform R a)) ->
  forall schedule m m' trace,
    exec R schedule m = (m', trace) -> T m (map snd trace) m'.
Proof.
  intros Ha schedule. induction schedule as [|a rest IH]; intros m m' trace H.
  - injection H as <- <-. apply T_nil.
  - simpl in H. destruct (perform R a m) as [[r m1] out1] eqn:E1.
    destruct (exec R rest m1) as [m2 out2] eqn:E2.
    injection H as <- <-. rewrite map_app, map_map. simpl. rewrite map_id.
    eapply T_app; [eapply Ha | eapply IH]; eassumption.
Qed.

(** A worker's step inside the thread pool. *)
Lemma sat_thread_step (R : runtime) (i : nat) :
  (forall t, sat T (worker_step R t)) ->
  (forall m out m' j t, T m out m' -> T m out (set_thread j t m')) ->
  sat T (thread_step R i).
Proof.
  intros Hw Hset m r m' out H. unfold thread_step in H.
  destruct (nth_error (threads m) i) as [t|].
  - destruct (worker_step R t m) as [[[t'|msg] m1] out1] eqn:E;
      injection H as _ <- <-; apply Hset; eapply Hw; eassumption.
  - injection H as _ <- <-. apply T_nil.
Qed.

End Frame.

(** One step of the proof that an operation satisfies a relation: follow
    the structure of the code down to the primitive operations. *)
Ltac sat_step tnil tapp :=
  first
    [ apply (sat_ret tnil)
    | apply (sat_raise tnil)
    | apply (sat_lift tnil)
    | apply (sat_get tnil)
    | apply sat_discard
    | apply (sat_modify_emit tapp)
    | apply (sat_bind tapp); [|intros ?]
    | apply (sat_try_except tapp); [|intros ?]
    | match goal with
      | |- sat _ (match ?x with _ => _ end) => destruct x
      end ].

Ltac unfold_operations :=
  unfold replay_start, replay_stop, replay_status, handle_connect,
    handle_disconnect, terminal_notify, worker_step, log_command,
    _start_replay_session, _stop_replay_session, _update_replay_state,
    _emit_replay_state, _replay_state_snapshot, _timestamp_payload.

(** ** The history follows the broadcast entries *)

Lemma entries_of_app (o1 o2 : list emission) :
  entries_of (o1 ++ o2) = entries_of o1 ++ entries_of o2.
Proof. unfold entries_of. apply flat_map_app. Qed.

Lemma history_follows_nil (m : machine) : history_follows m [] m.
Proof. reflexivity. Qed.

Lemma history_follows_app (m : machine) (o1 : list emission) (m1 : machine)
  (o2 : list emission) (m2 : machine) :
  history_follows m o1 m1 -> history_follows m1 o2 m2 ->
  history_follows m (o1 ++ o2) m2.
Proof.
  unfold history_follows. intros H1 H2.
  now rewrite entries_of_app, fold_left_app, <- H1.
Qed.

Ltac history_leaf :=
  first [ intros ?m; reflexivity
        | intros ?m ?r ?m' ?out ?H;
          match goal with
          | H : _ = (_, _, _) |- _ => injection H as _ <- <-; reflexivity
          end ].

Lemma worker_step_history (R : runtime) (t : worker) :
  sat history_follows (worker_step R t).
Proof.
  unfold_operations.
  repeat sat_step history_follows_nil history_follows_app; history_leaf.
Qed.

Lemma perform_history (R : runtime) (a : action) :
  sat history_follows (perform R a).
Proof.
  destruct a; unfold perform;
    [ apply sat_thread_step;
      [ exact history_follows_nil
      | apply worker_step_history
      | intros m out m' j t H; exact H ]
    | .. ];
    unfold_operations;
    repeat sat_step history_follows_nil history_follows_app; history_leaf.
Qed.

(** ** The bound of the history *)

Lemma keep_last_drop_prefix {A : Type} (n : nat) (p q : list A) :
  n <= List.length q -> keep_last n (p ++ q) = keep_last n q.
Proof.
  intros Hn. unfold keep_last. rewrite length_app, skipn_app.
  rewrite skipn_all2 by lia. simpl. f_equal. lia.
Qed.

Lemma keep_last_length {A : Type} (n : nat) (l : list A) :
  List.length (keep_last n l) = Nat.min n (List.length l).
Proof. unfold keep_last. rewrite length_skipn. lia. Qed.

Lemma keep_last_short {A : Type} (n : nat) (l : list A) :
  List.length l <= n -> keep_last n l = l.
Proof.
  intros H. unfold keep_last. replace (List.length l - n) with 0 by lia.
  reflexivity.
Qed.

Lemma history_append_keep_last (entry : pydict) (history : list pydict) :
  List.length history <= MAX_HISTORY ->
  history_append entry history = keep_last MAX_HISTORY (history ++ [entry]).
Proof.
  intros H. unfold history_append.
  destruct (MAX_HISTORY <? List.length (history ++ [entry]))%nat eqn:E.
  - apply Nat.ltb_lt in E. rewrite length_app in E.
    change (List.length [entry]) with 1 in E.
    unfold keep_last. rewrite length_app.
    change (List.length [entry]) with 1.
    replace (List.length history + 1 - MAX_HISTORY) with 1
      by (revert H E; generalize MAX_HISTORY; intros; lia).
    reflexivity.
  - apply Nat.ltb_ge in E. now rewrite keep_last_short.
Qed.

Lemma keep_last_idem_app {A : Type} (n : nat) (l es : list A) :
  keep_last n (keep_last n l ++ es) = keep_last n (l ++ es).
Proof.
  destruct (Nat.le_gt_cases (List.length l) n) as [Hle|Hgt].
  - now rewrite (@keep_last_short A n l Hle).
  - transitivity (keep_last n ((firstn (List.length l - n) l
                                  ++ skipn (List.length l - n) l) ++ es));
      [|now rewrite firstn_skipn].
    rewrite <- app_assoc.
    rewrite (@keep_last_drop_prefix A n (firstn (List.length l - n) l));
      [reflexivity|].
    rewrite length_app, length_skipn. lia.
Qed.

Lemma fold_history_append (entries history : list pydict) :
  List.length history <= MAX_HISTORY ->
  fold_left (fun h e => history_append e h) entries history =
  keep_last MAX_HISTORY (history ++ entries).
Proof.
  revert history. induction entries as [|e entries IH]; intros history H; simpl.
  - rewrite app_nil_r. now rewrite keep_last_short.
  - rewrite IH.
    + rewrite history_append_keep_last by exact H.
      rewrite keep_last_idem_app, <- app_assoc. reflexivity.
    + rewrite history_append_keep_last by exact H.
      rewrite keep_last_length. apply Nat.le_min_l.
Qed.

(** C8.  Whatever the handlers and workers do, in whatever order, the
    history holds at most [MAX_HISTORY] = 100 entries: it is the last 100
    of what it held followed by the entries appended since, in append
    order.  From an empty history, once 100 + k entries (k > 0) have been
    appended exactly 100 remain: the k oldest are gone and the others are
    in append order.  This covers [log_command], [terminal_notify] and the
    replay workers, which append through [log_command]. *)
Theorem history_bounded (R : runtime) (schedule : list action)
  (m m' : machine) (trace : list (action * emission)) :
  exec R schedule m = (m', trace) ->
  List.length (command_history m) <= MAX_HISTORY ->
  List.length (command_history m') <= MAX_HISTORY /\
  command_history m' =
    keep_last MAX_HISTORY (command_history m ++ entries_of (map snd trace)) /\
  (forall k, 0 < k -> command_history m = [] ->
     List.length (entries_of (map snd trace)) = MAX_HISTORY + k ->
     command_history m' = skipn k (entries_of (map snd trace)) /\
     List.length (command_history m') = MAX_HISTORY).
Proof.
  intros Hexec Hlen.
  pose proof (@sat_exec _ history_follows_nil history_follows_app R
                (perform_history R) _ _ _ _ Hexec) as H.
  unfold history_follows in H. rewrite fold_history_append in H by exact Hlen.
  split; [rewrite H, keep_last_length; apply Nat.le_min_l|].
  split; [exact H|].
  intros k Hk Hempty Hn. rewrite H, Hempty. simpl.
  split.
  - unfold keep_last. rewrite Hn. f_equal. apply Nat.add_sub_swap, Nat.le_refl.
  - rewrite keep_last_length, Hn. apply Nat.min_l, Nat.le_add_r.
Qed.

(** ** Runs of a worker *)

(** Evaluate the monadic code of a run as far as the hypotheses allow. *)
Ltac run_code :=
  unfold bind, ret, raise, lift, get, modify, socketio_emit, utcnow,
    _replay_state_snapshot, _update_replay_state, _emit_replay_state,
    log_command, _timestamp_payload, worker_at, dict_get_default;
  cbn -[session_inactive _format_event_command state_update py_str Z.ltb].


Lemma replay_events_of_app (o1 o2 : list emission) :
  replay_events_of (o1 ++ o2) = replay_events_of o1 ++ replay_events_of o2.
Proof. unfold replay_events_of. apply flat_map_app. Qed.

Lemma loaded_events_have_float_timestamps (R : runtime) (path : string)
  (events : list pydict) :
  _load_replay_events R path = Ok events ->
  Forall has_float_timestamp events.
Proof.
  unfold _load_replay_events, events_of_payload.
  destruct (read_json R path) as [payload|]; [|discriminate].
  destruct (payload_records payload) as [l|]; [|discriminate].
  intros H. injection H as <-.
  eapply Permutation_Forall.
  - apply Permutation_map. symmetry. apply sort_rows_perm.
  - rewrite index_events_snd. apply Forall_map, Forall_forall.
    intros d _. eexists. apply dict_get_set_same.
Qed.

(** ** Epochs and threads along a computation *)

Lemma session_follows_nil (m : machine) : session_follows m [] m.
Proof. split; [apply Z.le_refl | auto]. Qed.

Lemma session_follows_app (m : machine) (o1 : list emission) (m1 : machine)
  (o2 : list emission) (m2 : machine) :
  session_follows m o1 m1 -> session_follows m1 o2 m2 ->
  session_follows m (o1 ++ o2) m2.
Proof.
  intros [H1 T1] [H2 T2]. split; [now apply Z.le_trans with (1 := H1) | auto].
Qed.

Lemma session_kept_nil (m : machine) : session_kept m [] m.
Proof. split; reflexivity. Qed.

Lemma session_kept_app (m : machine) (o1 : list emission) (m1 : machine)
  (o2 : list emission) (m2 : machine) :
  session_kept m o1 m1 -> session_kept m1 o2 m2 ->
  session_kept m (o1 ++ o2) m2.
Proof. intros [H1 T1] [H2 T2]. split; congruence. Qed.

Ltac open_machine :=
  match goal with
  | m : machine |- _ =>
      destruct m as [[?r ?c ?i ?p ?v ?t ?n ?l ?ts ?sa ?fa ?e] ?h ?cl ?tk ?th]
  end.

Ltac session_leaf :=
  first [ intros ?m ?r ?m' ?out ?H;
          match goal with
          | H : _ = (_, _, _) |- _ => injection H as _ <- <-
          end
        | intros ?m ];
  open_machine; unfold session_follows, session_kept; cbn;
  split;
  [ first [reflexivity | lia]
  | first [ reflexivity
          | intros ?i ?t ?Hi;
            first [ assumption
                  | rewrite nth_error_app1;
                    [assumption | apply nth_error_Some; congruence] ] ] ].

Lemma worker_step_session_kept (R : runtime) (t : worker) :
  sat session_kept (worker_step R t).
Proof.
  unfold_operations.
  repeat sat_step session_kept_nil session_kept_app; session_leaf.
Qed.

Lemma handler_session_follows (R : runtime) (a : action) :
  (forall i, a <> Act_worker i) -> sat session_follows (perform R a).
Proof.
  intros Ha. destruct a; unfold perform; [now contradiction (Ha i)|..];
    unfold_operations;
    repeat sat_step session_follows_nil session_follows_app; session_leaf.
Qed.

(** ** Threads in the pool *)

Lemma set_thread_same (i : nat) (t t0 : worker) (m : machine) :
  nth_error (threads m) i = Some t0 ->
  nth_error (threads (set_thread i t m)) i = Some t.
Proof.
  intros H. unfold set_thread. cbn [threads with_threads].
  assert (Hlt : i < List.length (threads m)) by (apply nth_error_Some; congruence).
  rewrite nth_error_app2; rewrite length_firstn, Nat.min_l by lia; [|lia].
  now rewrite Nat.sub_diag.
Qed.

Lemma set_thread_other (i j : nat) (t tj : worker) (m : machine) :
  i <> j ->
  nth_error (threads m) j = Some tj ->
  nth_error (threads (set_thread j t m)) i = nth_error (threads m) i.
Proof.
  intros Hne H. unfold set_thread. cbn [threads with_threads].
  assert (Hlt : j < List.length (threads m)) by (apply nth_error_Some; congruence).
  destruct (Nat.lt_ge_cases i j) as [Hij|Hij].
  - rewrite nth_error_app1 by (rewrite length_firstn; lia).
    rewrite nth_error_firstn.
    destruct (Nat.ltb_spec i j); [reflexivity | lia].
  - rewrite nth_error_app2; rewrite length_firstn, Nat.min_l by lia; [|lia].
    destruct (i - j) as [|d] eqn:Hd; [lia|]. cbn [nth_error].
    rewrite nth_error_skipn. f_equal. lia.
Qed.

(** An action other than a step of thread [i] leaves thread [i] as it is
    and does not take the epoch back. *)
Lemma perform_keeps_thread (R : runtime) (a : action) (i : nat) (t : worker)
  (m m' : machine) (r : outcome unit) (out : list emission) :
  perform R a m = (r, m', out) ->
  a <> Act_worker i ->
  nth_error (threads m) i = Some t ->
  nth_error (threads m') i = Some t /\
  (session_id (replay_state m) <= session_id (replay_state m'))%Z.
Proof.
  intros Hrun Ha Hi.
  assert (Hh : (forall k, a <> Act_worker k) ->
               nth_error (threads m') i = Some t /\
               (session_id (replay_state m) <= session_id (replay_state m'))%Z).
  { intros Hk.
    destruct (@handler_session_follows R a Hk _ _ _ _ Hrun) as [Hs Ht].
    split; [now apply Ht | exact Hs]. }
  destruct a as [j| | | | | | |]; try (apply Hh; intros; discriminate).
  clear Hh. assert (Hij : i <> j) by congruence.
  cbn in Hrun. unfold thread_step in Hrun.
  destruct (nth_error (threads m) j) as [tj|] eqn:Hj.
  - destruct (worker_step R tj m) as [[[t'|msg] m1] o1] eqn:E;
      injection Hrun as _ <- <-;
      destruct (@worker_step_session_kept R tj _ _ _ _ E) as [Hs Ht];
      (split; [|cbn; rewrite Hs; apply Z.le_refl]);
      rewrite set_thread_other with (tj := tj); congruence.
  - injection Hrun as _ <- <-. split; [exact Hi | apply Z.le_refl].
Qed.

Lemma sent_by_app (i : nat) (t1 t2 : list (action * emission)) :
  sent_by i (t1 ++ t2) = sent_by i t1 ++ sent_by i t2.
Proof. unfold sent_by. apply flat_map_app. Qed.

Lemma sent_by_other (i : nat) (a : action) (out : list emission) :
  a <> Act_worker i -> sent_by i (map (pair a) out) = [].
Proof.
  intros Ha. induction out as [|e out IH]; [reflexivity|].
  cbn. destruct a as [j| | | | | | |]; try exact IH.
  destruct (Nat.eqb_spec j i) as [->|]; [congruence | exact IH].
Qed.

Lemma sent_by_self (i : nat) (out : list emission) :
  sent_by i (map (pair (Act_worker i)) out) = out.
Proof.
  induction out as [|e out IH]; [reflexivity|].
  cbn. rewrite Nat.eqb_refl. cbn. now f_equal.
Qed.

(** ** A superseded worker *)

Lemma superseded_check (sid : Z) (s : ReplayState) :
  session_id s <> sid -> session_inactive sid s = true.
Proof.
  intros H. unfold session_inactive.
  destruct (Z.eqb_spec (session_id s) sid); [contradiction|].
  apply orb_true_r.
Qed.

(** A superseded worker that is not committed to an event takes a step
    that sends nothing and changes nothing, and stays uncommitted. *)
Lemma superseded_step (R : runtime) (t : worker) (m : machine) :
  uncommitted t = true ->
  session_id (replay_state m) <> w_session_id t ->
  exists r,
    worker_step R t m = (r, m, []) /\
    match r with
    | Ok t' => uncommitted t' = true /\ w_session_id t' = w_session_id t
    | Raise _ => True
    end.
Proof.
  intros Hun Hsup. apply superseded_check in Hsup.
  destruct t as [sid path evs sp base idx ev cur p].
  unfold uncommitted in Hun. cbn in Hun, Hsup.
  destruct p; try discriminate Hun; unfold worker_step; cbn [w_pc w_events w_idx
    w_event w_base_ts w_session_id].
  - destruct evs as [|first rest]; [discriminate|].
    destruct (py_float R _); eexists; (split; [reflexivity|]); cbn; auto.
  - destruct (nth_error evs idx) eqn:E.
    + run_code. rewrite Hsup. eexists. split; [reflexivity|]. cbn. auto.
    + apply nth_error_None in E. apply Nat.ltb_lt in Hun. lia.
  - destruct (py_float R _); [unfold bind, lift; destruct (sleep_until _ _ _ _)|];
      eexists; (split; [reflexivity|]); cbn; auto.
  - run_code. rewrite Hsup. eexists. split; [reflexivity|]. cbn. auto.
  - run_code. rewrite Hsup. eexists. split; [reflexivity|]. cbn. auto.
  - eexists. split; [reflexivity|]. cbn. auto.
  - eexists. split; [reflexivity|]. cbn. auto.
  - eexists. split; [reflexivity|]. cbn. auto.
Qed.

Lemma superseded_thread_step (R : runtime) (i : nat) (t : worker) (m : machine) :
  nth_error (threads m) i = Some t ->
  uncommitted t = true ->
  session_id (replay_state m) <> w_session_id t ->
  exists t',
    thread_step R i m = (Ok tt, set_thread i t' m, []) /\
    uncommitted t' = true /\
    w_session_id t' = w_session_id t.
Proof.
  intros Hi Hun Hsup.
  destruct (superseded_step R t m Hun Hsup) as [r [Hstep Hr]].
  unfold thread_step. rewrite Hi, Hstep. destruct r as [t'|msg].
  - exists t'. split; [reflexivity | exact Hr].
  - exists (worker_at t Crashed). repeat split.
Qed.

(** Under any schedule a superseded, uncommitted worker sends nothing and
    stays superseded and uncommitted. *)
Lemma superseded_silent (R : runtime) (schedule : list action) :
  forall (m m' : machine) (i : nat) (t : worker)
         (trace : list (action * emission)),
  nth_error (threads m) i = Some t ->
  uncommitted t = true ->
  (w_session_id t < session_id (replay_state m))%Z ->
  exec R schedule m = (m', trace) ->
  sent_by i trace = [] /\
  exists t', nth_error (threads m') i = Some t' /\
             uncommitted t' = true /\
             (w_session_id t' < session_id (replay_state m'))%Z.
Proof.
  induction schedule as [|a rest IH]; intros m m' i t trace Hi Hun Hsup Hexec.
  - injection Hexec as <- <-. split; [reflexivity|]. exists t. auto.
  - simpl in Hexec.
    destruct (perform R a m) as [[r m1] out1] eqn:Hp.
    destruct (exec R rest m1) as [m2 out2] eqn:He.
    injection Hexec as <- <-. rewrite sent_by_app.
    assert (Hdec : a = Act_worker i \/ a <> Act_worker i).
    { destruct a as [j| | | | | | |]; try (right; discriminate).
      destruct (Nat.eq_dec j i) as [->|]; [now left | right; congruence]. }
    destruct Hdec as [->|Hother].
    + destruct (@superseded_thread_step R i t m Hi Hun) as [t' [Hstep [Hun' Hsid']]];
        [lia|].
      cbn in Hp. rewrite Hstep in Hp. injection Hp as _ <- <-.
      apply (IH _ _ i t') in He; auto.
      * now apply set_thread_same with t.
      * cbn. lia.
    + destruct (@perform_keeps_thread R a i t m m1 r out1 Hp Hother Hi)
        as [Hi1 Hle].
      rewrite (@sent_by_other i a out1 Hother).
      apply (IH _ _ i t) in He; auto. lia.
Qed.

(** Whatever it is doing, a step of a superseded worker leaves the epoch
    alone and uses up what it has in flight. *)
Lemma superseded_step_in_flight (R : runtime) (t : worker) (m : machine) :
  session_id (replay_state m) <> w_session_id t ->
  exists r m1 out,
    worker_step R t m = (r, m1, out) /\
    session_id (replay_state m1) = session_id (replay_state m) /\
    List.length (replay_events_of out)
      + match r with Ok t' => in_flight t' | Raise _ => 0 end <= in_flight t /\
    match r with
    | Ok t' => w_session_id t' = w_session_id t
    | Raise _ => True
    end.
Proof.
  intros Hsup. apply superseded_check in Hsup.
  destruct t as [sid path evs sp base idx ev cur p].
  destruct m as [[r c i pth v tot n l ts sa fa e] h cl tk th].
  cbn in Hsup.
  destruct p; unfold worker_step; cbn [w_pc w_events w_idx w_event w_base_ts
    w_session_id].
  - destruct evs as [|first rest]; [|destruct (py_float R _)];
      do 3 eexists; (split; [reflexivity|]); cbn; auto.
  - destruct (nth_error evs idx) eqn:E.
    + run_code. rewrite Hsup. do 3 eexists. split; [reflexivity|]. cbn. auto.
    + do 3 eexists. split; [reflexivity|]. cbn. auto.
  - destruct (py_float R _); [unfold bind, lift; destruct (sleep_until _ _ _ _)|];
      do 3 eexists; (split; [reflexivity|]); cbn; auto.
  - run_code. rewrite Hsup. do 3 eexists. split; [reflexivity|]. cbn. auto.
  - run_code. rewrite Hsup. do 3 eexists. split; [reflexivity|]. cbn. auto.
  - run_code. destruct (0 <? cl)%Z;
      do 3 eexists; (split; [reflexivity|]); cbn; auto.
  - run_code. do 3 eexists. split; [reflexivity|]. cbn. auto.
  - run_code. do 3 eexists. split; [reflexivity|]. cbn. auto.
  - run_code. do 3 eexists. split; [reflexivity|]. cbn. auto.
  - run_code. do 3 eexists. split; [reflexivity|]. cbn. auto.
  - do 3 eexists. split; [reflexivity|]. cbn. auto.
  - do 3 eexists. split; [reflexivity|]. cbn. auto.
  - do 3 eexists. split; [reflexivity|]. cbn. auto.
Qed.

(** Under any schedule a superseded worker sends at most the event it
    has in flight. *)
Lemma superseded_bounded (R : runtime) (schedule : list action) :
  forall (m m' : machine) (i : nat) (t : worker)
         (trace : list (action * emission)),
  nth_error (threads m) i = Some t ->
  (w_session_id t < session_id (replay_state m))%Z ->
  exec R schedule m = (m', trace) ->
  List.length (replay_events_of (sent_by i trace)) <= in_flight t.
Proof.
  induction schedule as [|a rest IH]; intros m m' i t trace Hi Hsup Hexec.
  - injection Hexec as <- <-. apply Nat.le_0_l.
  - simpl in Hexec.
    destruct (perform R a m) as [[r m1] out1] eqn:Hp.
    destruct (exec R rest m1) as [m2 out2] eqn:He.
    injection Hexec as <- <-.
    rewrite sent_by_app, replay_events_of_app, length_app.
    assert (Hdec : a = Act_worker i \/ a <> Act_worker i).
    { destruct a as [j| | | | | | |]; try (right; discriminate).
      destruct (Nat.eq_dec j i) as [->|]; [now left | right; congruence]. }
    destruct Hdec as [->|Hother].
    + destruct (@superseded_step_in_flight R t m) as [r' [m1' [o [Hstep [Hs [Hb Hsid]]]]]];
        [lia|].
      cbn in Hp. unfold thread_step in Hp. rewrite Hi, Hstep in Hp.
      rewrite sent_by_self.
      destruct (@worker_step_session_kept R t _ _ _ _ Hstep) as [_ Hth].
      destruct r' as [t'|msg]; injection Hp as _ <- <-.
      * apply (IH _ _ i t') in He.
        -- lia.
        -- apply set_thread_same with t. now rewrite Hth.
        -- cbn. rewrite Hs, Hsid. exact Hsup.
      * apply (IH _ _ i (worker_at t Crashed)) in He.
        -- cbn in He. lia.
        -- apply set_thread_same with t. now rewrite Hth.
        -- cbn. rewrite Hs. exact Hsup.
    + destruct (@perform_keeps_thread R a i t m m1 r out1 Hp Hother Hi)
        as [Hi1 Hle].
      rewrite (@sent_by_other i a out1 Hother). cbn [replay_events_of flat_map List.length].
      apply (IH _ _ i t) in He; auto. lia.
Qed.

Lemma run_worker_returned (R : runtime) (fuel : nat) (t : worker) (m : machine) :
  w_pc t = Returned -> run_worker R fuel t m = (Ok t, m, []).
Proof.
  intros H. induction fuel as [|fuel IH]; [reflexivity|].
  simpl. unfold bind, worker_step. rewrite H. cbn. now rewrite IH.
Qed.

(** C4, as the specification states it, fails: a worker can still send
    an event after a new epoch has been assigned.  Here the worker of
    session 1 has passed its checks and found a client; a second start
    request then stops session 1 and assigns epochs 2 and 3; the next step
    of the old worker sends its event all the same. *)
Lemma superseded_worker_still_sends :
  ~ (forall (R : runtime) (m m' : machine) (i : nat) (t : worker)
       (schedule : list action) (trace : list (action * emission)),
       nth_error (threads m) i = Some t ->
       (w_session_id t < session_id (replay_state m))%Z ->
       exec R schedule m = (m', trace) ->
       replay_events_of (sent_by i trace) = []).
Proof.
  intros H.
  pose (R := test_runtime
               (Ok (JArr [JObj [("timestamp", JInt 0);
                                ("event_type", JStr "file_read")]])) false).
  pose (m := fst (exec R [Act_connect; Act_replay_start "trace.json" JNull;
                          Act_worker 0; Act_worker 0; Act_worker 0;
                          Act_worker 0; Act_worker 0; Act_worker 0;
                          Act_replay_start "trace.json" JNull]
                    (initial_machine R))).
  assert (Hsent : replay_events_of (sent_by 0 (snd (exec R [Act_worker 0] m)))
                  <> []) by (vm_compute; discriminate).
  assert (Hold : match nth_error (threads m) 0 with
                 | Some t => (w_session_id t <? session_id (replay_state m))%Z
                 | None => false
                 end = true) by (vm_compute; reflexivity).
  destruct (nth_error (threads m) 0) as [t|] eqn:Ht; [|discriminate Hold].
  apply Z.ltb_lt in Hold.
  exact (Hsent (H R m _ 0 t [Act_worker 0] _ Ht Hold (surjective_pairing _))).
Qed.

(** C4, amended.  When one of the worker's checks (at the head of the
    loop, after the sleep, in the wait for a client) finds the session
    not running or its epoch not current, the worker returns: that step
    sends nothing and leaves the machine as it is, and so does every
    later step.  Once a newer epoch is assigned, a worker that has not yet
    passed the last check for its event sends nothing at all, under any
    interleaving; a worker that had passed it can still send that one
    event, and no other. *)
Theorem superseded_worker_stops (R : runtime) :
  (forall (t : worker) (m : machine),
     (w_pc t = AtLoopCheck /\ w_idx t < List.length (w_events t)) \/
     w_pc t = AtRecheck \/ w_pc t = AtWaitState ->
     session_inactive (w_session_id t) (replay_state m) = true ->
     worker_step R t m = (Ok (worker_at t Returned), m, []) /\
     forall fuel m2,
       run_worker R fuel (worker_at t Returned) m2 =
       (Ok (worker_at t Returned), m2, [])) /\
  (forall (schedule : list action) (m m' : machine) (i : nat) (t : worker)
          (trace : list (action * emission)),
     nth_error (threads m) i = Some t ->
     (w_session_id t < session_id (replay_state m))%Z ->
     exec R schedule m = (m', trace) ->
     List.length (replay_events_of (sent_by i trace)) <= in_flight t /\
     (uncommitted t = true -> sent_by i trace = [])).
Proof.
  split.
  - intros t m Hpc Hin. split.
    + destruct t as [sid path evs sp base idx ev cur p]. cbn in *.
      destruct Hpc as [[-> Hidx] | [-> | ->]]; unfold worker_step;
        cbn [w_pc w_events w_idx w_session_id].
      * destruct (nth_error evs idx) eqn:E;
          [|apply nth_error_None in E; lia].
        run_code. now rewrite Hin.
      * run_code. now rewrite Hin.
      * run_code. now rewrite Hin.
    + intros fuel m2. now apply run_worker_returned.
  - intros schedule m m' i t trace Hi Hsup Hexec. split.
    + now apply superseded_bounded with (1 := Hi) (3 := Hexec).
    + intros Hun.
      now destruct (@superseded_silent R schedule m m' i t trace
                      Hi Hun Hsup Hexec).
Qed.

Lemma superseded_worker_stops_witness :
  let R := test_runtime
             (Ok (JArr [JObj [("timestamp", JInt 0);
                              ("event_type", JStr "file_read")]])) false in
  let m := fst (exec R [Act_connect; Act_replay_start "trace.json" JNull;
                        Act_worker 0; Act_worker 0; Act_replay_stop]
                  (initial_machine R)) in
  sent_by 0 (snd (exec R [Act_worker 0; Act_connect; Act_worker 0;
                          Act_worker 0] m)) = [].
Proof.
  intros R m.
  destruct (superseded_worker_stops R) as [_ H].
  destruct (nth_error (threads m) 0) as [t|] eqn:Ht; [|discriminate Ht].
  apply (H [Act_worker 0; Act_connect; Act_worker 0; Act_worker 0] m
           (fst (exec R [Act_worker 0; Act_connect; Act_worker 0;
                         Act_worker 0] m)) 0 t).
  - exact Ht.
  - injection Ht as <-. reflexivity.
  - apply surjective_pairing.
  - injection Ht as <-. reflexivity.
Defined.

Lemma history_bounded_witness :
  let R := test_runtime (Ok JNull) false in
  let schedule :=
    repeat (Act_log_command (JStr "webui") (JStr "ls") JNull (JBool false)) 101
    ++ [Act_terminal_notify (Ok (JObj [("command", JStr "pwd")]))] in
  let m' := fst (exec R schedule (initial_machine R)) in
  let appended := entries_of (map snd (snd (exec R schedule (initial_machine R)))) in
  List.length appended = MAX_HISTORY + 2 /\
  command_history m' = skipn 2 appended /\
  List.length (command_history m') = MAX_HISTORY.
Proof.
  intros R schedule m' appended.
  assert (Hn : List.length appended = MAX_HISTORY + 2) by (vm_compute; reflexivity).
  split; [exact Hn|].
  destruct (@history_bounded R schedule (initial_machine R) m'
              (snd (exec R schedule (initial_machine R))))
    as [_ [_ H]].
  - apply surjective_pairing.
  - apply Nat.le_0_l.
  - apply (H 2); [apply Nat.lt_0_succ | reflexivity | exact Hn].
Defined.

(** * Further properties *)

(** ** More on the loader *)

Lemma dict_get_set_other (k k' : string) (v : json) (d : pydict) :
  k <> k' -> dict_get k' (dict_set k v d) = dict_get k' d.
Proof.
  intros Hne. induction d as [|[k0 v0] d IH]; simpl.
  - destruct (String.eqb_spec k' k); congruence.
  - destruct (String.eqb_spec k k0) as [->|]; simpl.
    + destruct (String.eqb_spec k' k0); congruence.
    + now rewrite IH.
Qed.

(** X1.  A document that wraps the array in a dict, under [events] or,
    failing that, under [data], loads exactly as the bare array does. *)
Theorem load_wrapper_as_bare_array (R : runtime) (path : string)
  (d : pydict) (l : list json) :
  read_json R path = Ok (JObj d) ->
  dict_get "events" d = Some (JArr l) \/
  ((forall l', dict_get "events" d <> Some (JArr l')) /\
   dict_get "data" d = Some (JArr l)) ->
  _load_replay_events R path = events_of_payload R (JArr l).
Proof.
  intros Hread Hd. unfold _load_replay_events. rewrite Hread.
  unfold events_of_payload, payload_records.
  destruct Hd as [-> | [Hno ->]]; [reflexivity|].
  destruct (dict_get "events" d) as [[| | | | |l'|]|]; try reflexivity.
  now contradiction (Hno l').
Qed.

Lemma load_wrapper_as_bare_array_witness :
  let l := [JObj [("timestamp", JInt 2)]; JObj [("timestamp", JInt 1)]] in
  let d := [("events", JStr "none"); ("data", JArr l)] in
  let R := test_runtime (Ok (JObj d)) false in
  _load_replay_events R "trace.json" =
  Ok [[("timestamp", JFloat (Fin 1))]; [("timestamp", JFloat (Fin 2))]].
Proof.
  intros l d R.
  rewrite (@load_wrapper_as_bare_array R "trace.json" d l eq_refl).
  - reflexivity.
  - right. split; [intros l'; discriminate | reflexivity].
Defined.

(** X2.  The loader raises in two cases only: when the file cannot be
    opened or parsed, with that exception, and when the document is
    neither an array nor a dict holding an array under [events] or [data],
    with "events file must be a JSON array".  Every other document
    loads. *)
Theorem load_raises_only_without_array (R : runtime) (path : string) :
  (forall msg, read_json R path = Raise msg ->
               _load_replay_events R path = Raise msg) /\
  (forall payload, read_json R path = Ok payload ->
     match payload with
     | JArr _ => False
     | JObj d => (forall l, dict_get "events" d <> Some (JArr l)) /\
                 (forall l, dict_get "data" d <> Some (JArr l))
     | _ => True
     end ->
     _load_replay_events R path = Raise "events file must be a JSON array") /\
  (forall payload l, read_json R path = Ok payload ->
     payload_records payload = Ok l ->
     exists events, _load_replay_events R path = Ok events).
Proof.
  unfold _load_replay_events, events_of_payload. split; [|split].
  - intros msg ->. reflexivity.
  - intros payload -> Hshape. unfold payload_records.
    destruct payload as [| | | | |l|d]; try reflexivity; [contradiction|].
    destruct Hshape as [He Hd].
    destruct (dict_get "events" d) as [[| | | | |l'|]|];
      try (destruct (dict_get "data" d) as [[| | | | |l''|]|];
           try reflexivity; now contradiction (Hd l'')).
    now contradiction (He l').
  - intros payload l -> ->. eexists. reflexivity.
Qed.

Lemma load_raises_only_without_array_witness :
  let R := test_runtime (Ok (JObj [("events", JInt 3); ("rows", JArr [])])) false in
  _load_replay_events R "trace.json" = Raise "events file must be a JSON array".
Proof.
  intros R.
  destruct (load_raises_only_without_array R "trace.json") as [_ [H _]].
  apply (H (JObj [("events", JInt 3); ("rows", JArr [])]) eq_refl).
  split; intros l; discriminate.
Defined.

(** X3.  Loading touches nothing but the timestamp: as many events are
    loaded as the array has dict entries, and every loaded event comes
    from one of them, with a float under [timestamp] and every other key
    as that entry has it. *)
Theorem load_keeps_other_fields (R : runtime) (path : string) (l : list json) :
  read_json R path = Ok (JArr l) ->
  exists events,
    _load_replay_events R path = Ok events /\
    List.length events = List.length (records_of l) /\
    forall ev, In ev events ->
      has_float_timestamp ev /\
      exists d, In (JObj d) l /\
                forall k, k <> "timestamp" -> dict_get k ev = dict_get k d.
Proof.
  intros Hread.
  pose proof (@load_of_records R path (JArr l) l Hread eq_refl) as Hload.
  eexists. split; [exact Hload|].
  assert (Hperm : Permutation (map snd (sort_rows (index_events R 0 l)))
                    (map (normalize_event R) (records_of l))).
  { rewrite <- (index_events_snd R l 0).
    apply Permutation_map, sort_rows_perm. }
  split; [rewrite (Permutation_length Hperm); apply length_map|].
  intros ev Hin. split.
  - pose proof (loaded_events_have_float_timestamps R path Hload) as Hfl.
    rewrite Forall_forall in Hfl. now apply Hfl.
  - apply (Permutation_in _ Hperm) in Hin.
    apply in_map_iff in Hin as [d [<- Hd]]. exists d. split.
    + unfold records_of in Hd. apply in_flat_map in Hd as [v [Hv Hdv]].
      destruct v; try contradiction. destruct Hdv as [->|[]]. exact Hv.
    + intros k Hk. unfold normalize_event.
      apply dict_get_set_other. congruence.
Qed.

Lemma load_keeps_other_fields_witness :
  let l := [JObj [("event_type", JStr "file_read"); ("file_path", JStr "a.txt")];
            JInt 4] in
  let R := test_runtime (Ok (JArr l)) false in
  exists events,
    _load_replay_events R "trace.json" = Ok events /\
    List.length events = 1.
Proof.
  intros l R.
  destruct (@load_keeps_other_fields R "trace.json" l eq_refl)
    as [events [Hload [Hlen _]]].
  exists events. split; [exact Hload | exact Hlen].
Defined.

(** ** More on start and stop *)

Lemma speed_floor (s : pyfloat) :
  fleb (Fin (1 # 20)) (speed_or_default s) = true.
Proof.
  unfold speed_or_default, py_max.
  destruct (fltb (Fin (1 # 20)) (if float_truthy s then s else Fin 1)) eqn:E.
  - now apply fltb_fleb.
  - reflexivity.
Qed.

Lemma start_session_runs (R : runtime) (path : string) (speed' : pyfloat)
  (m : machine) (first : pydict) (rest : list pydict) :
  _load_replay_events R path = Ok (first :: rest) ->
  let snap :=
    state_update (replay_state m)
      [Set_running true; Set_completed false;
       Set_session_id (session_id (replay_state m) + 1)%Z;
       Set_events_path path;
       Set_speed (speed_or_default speed');
       Set_events_total (List.length (first :: rest)); Set_events_sent 0;
       Set_last_event_type ""; Set_last_event_ts None;
       Set_started_at (Some (iso (clock R (ticks m))));
       Set_finished_at None; Set_error None] in
  _start_replay_session R path speed' m =
  (Ok snap,
   with_threads (threads m ++ [new_worker (session_id snap) path
                                 (first :: rest) (speed snap)])
     (with_replay_state snap (with_ticks (S (ticks m)) m)),
   [Emit_replay_state snap]).
Proof.
  intros Hload. unfold _start_replay_session, bind at 1, lift.
  rewrite Hload. reflexivity.
Qed.

(** X4.  A start on a trace that loads to at least one event publishes
    the initial state of a session (running, not completed, no event
    sent, no error, the next epoch, the count of the loaded events, a
    speed of at least 0.05) and spawns exactly one worker, bound to that
    epoch, path, events and speed; history and client count stay. *)
Theorem start_publishes_and_spawns (R : runtime) (path : string)
  (speed' : pyfloat) (m : machine) (events : list pydict) :
  _load_replay_events R path = Ok events ->
  events <> [] ->
  exists snap m',
    _start_replay_session R path speed' m =
      (Ok snap, m', [Emit_replay_state snap]) /\
    replay_state m' = snap /\
    running snap = true /\ completed snap = false /\
    session_id snap = (session_id (replay_state m) + 1)%Z /\
    events_path snap = path /\
    events_total snap = List.length events /\ events_sent snap = 0 /\
    last_event_type snap = "" /\ last_event_ts snap = None /\
    finished_at snap = None /\ error snap = None /\
    fleb (Fin (1 # 20)) (speed snap) = true /\
    threads m' =
      threads m ++ [new_worker (session_id snap) path events (speed snap)] /\
    command_history m' = command_history m /\
    replay_connected_clients m' = replay_connected_clients m.
Proof.
  intros Hload Hne. destruct events as [|first rest]; [contradiction|].
  eexists. eexists.
  split; [exact (@start_session_runs R path speed' m first rest Hload)|].
  destruct m as [[r c i p v t n l ts sa fa e] h cl tk th].
  cbn. repeat split. apply speed_floor.
Qed.

Lemma start_publishes_and_spawns_witness :
  let R := test_runtime (Ok (JArr [JObj [("timestamp", JInt 5)]])) false in
  exists snap m',
    _start_replay_session R "trace.json" (Fin 0) (initial_machine R) =
      (Ok snap, m', [Emit_replay_state snap]) /\
    session_id snap = 1%Z /\ fleb (Fin (1 # 20)) (speed snap) = true /\
    List.length (threads m') = 1.
Proof.
  intros R.
  destruct (@start_publishes_and_spawns R "trace.json" (Fin 0) (initial_machine R)
              [[("timestamp", JFloat (Fin 5))]] eq_refl)
    as [snap [m' [Hrun [_ [_ [_ [Hsid [_ [_ [_ [_ [_ [_ [_ [Hsp [Hth _]]]]]]]]]]]]]]]].
  - discriminate.
  - exists snap, m'. repeat split; try assumption.
    rewrite Hth. reflexivity.
Defined.

(** X5.  A start request while a session is running replaces it: the
    handler first publishes the stop (not running, error "restarted", the
    epoch one up), then the new session (running, no error, the epoch two
    up), and spawns the new worker with that epoch; the caller gets the new
    snapshot. *)
Theorem restart_replaces_running_session (R : runtime)
  (events_path_raw path : string) (speed_raw : json) (m : machine)
  (events : list pydict) :
  resolve_path R events_path_raw = Some path ->
  _load_replay_events R path = Ok events ->
  events <> [] ->
  running (replay_state m) = true ->
  exists stopped snap m',
    replay_start R events_path_raw speed_raw m =
      (Ok (Resp_state snap), m',
       [Emit_replay_state stopped; Emit_replay_state snap]) /\
    replay_state m' = snap /\
    running stopped = false /\ error stopped = Some "restarted" /\
    session_id stopped = (session_id (replay_state m) + 1)%Z /\
    running snap = true /\ error snap = None /\
    session_id snap = (session_id (replay_state m) + 2)%Z /\
    exists sp, threads m' =
               threads m ++ [new_worker (session_id snap) path events sp].
Proof.
  intros Hres Hload Hne Hrun. destruct events as [|first rest]; [contradiction|].
  unfold replay_start. rewrite Hres.
  unfold bind at 1. cbn [_replay_state_snapshot bind get ret]. rewrite Hrun.
  unfold bind at 1. unfold bind at 1. rewrite stop_runs.
  cbn [ret app]. unfold try_except, bind at 1.
  rewrite (@start_session_runs R path _ _ first rest Hload).
  do 3 eexists. split; [reflexivity|].
  destruct m as [[r c i p v t n l ts sa fa e] h cl tk th].
  cbn. repeat split; try lia. eexists. reflexivity.
Qed.

Lemma restart_replaces_running_session_witness :
  let R := test_runtime (Ok (JArr [JObj [("timestamp", JInt 5)]])) false in
  let m := fst (exec R [Act_replay_start "trace.json" JNull] (initial_machine R)) in
  exists stopped snap m',
    replay_start R "trace.json" JNull m =
      (Ok (Resp_state snap), m',
       [Emit_replay_state stopped; Emit_replay_state snap]) /\
    session_id snap = 3%Z /\ List.length (threads m') = 2.
Proof.
  intros R m.
  destruct (@restart_replaces_running_session R "trace.json" "trace.json" JNull m
              [[("timestamp", JFloat (Fin 5))]] eq_refl eq_refl)
    as [stopped [snap [m' [Hrun [_ [_ [_ [_ [_ [_ [Hsid [sp Hth]]]]]]]]]]]].
  - discriminate.
  - reflexivity.
  - exists stopped, snap, m'. split; [exact Hrun|]. split; [exact Hsid|].
    rewrite Hth. reflexivity.
Defined.

(** X6.  A start request whose path does not resolve to a file is
    answered 404 and does nothing else: the state is untouched, nothing is
    sent, and a running session is not stopped. *)
Theorem start_with_unknown_path_does_nothing (R : runtime)
  (events_path_raw : string) (speed_raw : json) (m : machine) :
  resolve_path R events_path_raw = None ->
  exists msg,
    replay_start R events_path_raw speed_raw m =
      (Ok (Resp_error 404 (Some msg)), m, []).
Proof.
  intros Hres. unfold replay_start. rewrite Hres. eexists. reflexivity.
Qed.

Lemma start_with_unknown_path_does_nothing_witness :
  let R0 := test_runtime (Ok JNull) false in
  let R := {| float_of_int := float_of_int R0; float_of_str := float_of_str R0;
              int_of_str := int_of_str R0; py_repr := py_repr R0;
              str_strip := str_strip R0;
              grep_command_re_search := grep_command_re_search R0;
              read_json := read_json R0; resolve_path := fun _ => None;
              clock := clock R0; perf_elapsed_ns := perf_elapsed_ns R0;
              REPLAY_DEFAULT_EVENTS_PATH := REPLAY_DEFAULT_EVENTS_PATH R0;
              REPLAY_DEFAULT_SPEED := Fin 1; REPLAY_NO_CLIENT_GATE := false |} in
  exists msg,
    replay_start R "" JNull (initial_machine R) =
      (Ok (Resp_error 404 (Some msg)), initial_machine R, []).
Proof.
  intros R0 R.
  exact (@start_with_unknown_path_does_nothing R "" JNull (initial_machine R)
           eq_refl).
Defined.

(** ** More on the history handlers *)

(** Without a command there is nothing for the grep rule to look at. *)
Lemma normalize_without_command (R : runtime) (command result is_error : json) :
  grep_command_re_search R "" = false ->
  truthy command = false ->
  normalize_grep_no_match R command result is_error = Ok (result, is_error).
Proof.
  intros Hg Hc. unfold normalize_grep_no_match.
  destruct result; try reflexivity.
  destruct command as [| | | |c| |]; try reflexivity.
  cbn in Hc. apply negb_false_iff, String.eqb_eq in Hc. subst c.
  now rewrite Hg.
Qed.

(** X7.  [log_command_api] refuses a request without a command.  When the
    body cannot be parsed it answers 400 with the parser's message.  When
    the parsed body is falsy (null, empty), or is a dict whose [command]
    is missing or falsy, it answers 400 "Missing command" (the grep
    pattern does not match the empty string).  Either way it appends
    nothing and sends nothing. *)
Theorem log_command_api_needs_command (R : runtime) (body : outcome json)
  (m : machine) :
  grep_command_re_search R "" = false ->
  match body with
  | Raise e =>
      log_command_api R body m = (Ok (Resp_error 400 (Some e)), m, [])
  | Ok data =>
      truthy data = false \/
      (exists d, data = JObj d /\
                 truthy (dict_get_default "command" d (JStr "")) = false) ->
      log_command_api R body m =
      (Ok (Resp_error 400 (Some "Missing command")), m, [])
  end.
Proof.
  intros Hg. destruct body as [data|e]; [|reflexivity].
  intros [Hf | [d [-> Hc]]]; unfold log_command_api, try_except, bind at 1, lift.
  - rewrite Hf. cbn. reflexivity.
  - assert (Hd : (if truthy (JObj d) then JObj d else JObj []) = JObj d
                 \/ d = []).
    { destruct d; [now right | now left]. }
    destruct Hd as [-> | ->]; [|reflexivity].
    unfold bind at 1, lift.
    rewrite (@normalize_without_command R _ _ _ Hg Hc), Hc. reflexivity.
Qed.

Lemma log_command_api_needs_command_witness :
  let R := test_runtime (Ok JNull) false in
  log_command_api R (Ok (JObj [("source", JStr "webui"); ("command", JStr "")]))
    (initial_machine R) =
  (Ok (Resp_error 400 (Some "Missing command")), initial_machine R, []) /\
  log_command_api R (Raise "400 Bad Request") (initial_machine R) =
  (Ok (Resp_error 400 (Some "400 Bad Request")), initial_machine R, []).
Proof.
  intros R. split.
  - apply (@log_command_api_needs_command R
             (Ok (JObj [("source", JStr "webui"); ("command", JStr "")]))
             (initial_machine R) eq_refl).
    right. eexists. split; reflexivity.
  - exact (@log_command_api_needs_command R (Raise "400 Bad Request")
             (initial_machine R) eq_refl).
Defined.




(** X9.  [terminal_notify] answers 400 and does nothing when the body
    cannot be read, is falsy (absent, null, empty) or is not a dict: the
    history is untouched and nothing is broadcast. *)
Theorem terminal_notify_rejects (R : runtime) (body : outcome json)
  (m : machine) :
  match body with
  | Raise _ => True
  | Ok (JObj d) => d = []
  | Ok _ => True
  end ->
  terminal_notify R body m = (Ok (Resp_error 400 None), m, []).
Proof.
  intros Hb. unfold terminal_notify, try_except, bind at 1, lift.
  destruct body as [data|msg]; [|reflexivity].
  destruct data as [| b | z | q | s | items | d]; try reflexivity.
  - destruct b; reflexivity.
  - destruct (truthy (JInt z)); reflexivity.
  - destruct (truthy (JFloat q)); reflexivity.
  - destruct (truthy (JStr s)); reflexivity.
  - destruct items; reflexivity.
  - subst d. reflexivity.
Qed.

Lemma terminal_notify_rejects_witness :
  let R := test_runtime (Ok JNull) false in
  terminal_notify R (Ok (JArr [JStr "ls"])) (initial_machine R) =
  (Ok (Resp_error 400 None), initial_machine R, []).
Proof.
  intros R. now apply terminal_notify_rejects.
Defined.

(** ** Descriptions and grep results *)

(** X10.  Every description of a replayed event starts with "[replay] ",
    whatever the event holds. *)
Theorem format_event_command_prefix (R : runtime) (event : pydict) :
  exists rest, _format_event_command R event = ("[replay] " ++ rest)%string.
Proof.
  unfold _format_event_command.
  repeat match goal with
         | |- context [if ?b then _ else _] => destruct b
         end;
    eexists; cbn; reflexivity.
Qed.

Lemma dict_get_pop_other (k k' : string) (d : pydict) :
  k <> k' -> dict_get k' (dict_pop k d) = dict_get k' d.
Proof.
  intros Hne. induction d as [|[k0 v0] d IH]; simpl; [reflexivity|].
  destruct (String.eqb_spec k k0) as [->|]; simpl.
  - destruct (String.eqb_spec k' k0); congruence.
  - now rewrite IH.
Qed.

Lemma dict_get_none_not_in (k : string) (d : pydict) :
  dict_get k d = None <-> ~ In k (map fst d).
Proof.
  induction d as [|[k0 v0] d IH]; simpl; [tauto|].
  destruct (String.eqb_spec k k0) as [->|Hne].
  - split; [discriminate | intros H; exfalso; apply H; now left].
  - rewrite IH. split; intros H; [intros [E|E]; congruence | tauto].
Qed.

Lemma dict_set_keys (k : string) (v : json) (d : pydict) :
  map fst (dict_set k v d) =
  if dict_contains k d then map fst d else map fst d ++ [k].
Proof.
  unfold dict_contains. induction d as [|[k0 v0] d IH]; simpl; [reflexivity|].
  destruct (String.eqb_spec k k0) as [->|Hne]; simpl; [reflexivity|].
  rewrite IH. destruct (dict_get k d); reflexivity.
Qed.

Lemma dict_set_NoDup (k : string) (v : json) (d : pydict) :
  NoDup (map fst d) -> NoDup (map fst (dict_set k v d)).
Proof.
  intros H. rewrite dict_set_keys. unfold dict_contains.
  destruct (dict_get k d) eqn:E; [exact H|].
  apply dict_get_none_not_in in E.
  apply NoDup_app; [exact H | repeat constructor; intros [] | ].
  intros x Hx [<-|[]]. contradiction.
Qed.

Lemma dict_get_pop_same (k : string) (d : pydict) :
  NoDup (map fst d) -> dict_get k (dict_pop k d) = None.
Proof.
  induction d as [|[k0 v0] d IH]; simpl; [reflexivity|].
  intros H. inversion H as [|? ? Hnot Hnd]; subst.
  destruct (String.eqb_spec k k0) as [->|Hne]; simpl.
  - now apply dict_get_none_not_in.
  - destruct (String.eqb_spec k k0); [contradiction | now apply IH].
Qed.

(** X11.  When [normalize_grep_no_match] returns, it returns what it was
    given, or it has turned a grep that found nothing into a success: the
    command is a grep, the result a dict with exit code 1 and no truthy
    error, and what comes back is not an error and has [success] true, a
    [type], a truthy [output] and no [error]; the other keys are as they
    were. *)
Theorem grep_no_match_normalised (R : runtime) (command result is_error : json)
  (result' is_error' : json) :
  normalize_grep_no_match R command result is_error
    = Ok (result', is_error') ->
  (result' = result /\ is_error' = is_error) \/
  (exists c rd n,
     command = JStr c /\ result = JObj rd /\
     grep_command_re_search R c = true /\
     py_int R (dict_get_default "exit_code" rd JNull) = Int_value 1 /\
     truthy (dict_get_default "error" rd JNull) = false /\
     result' = JObj n /\ is_error' = JBool false /\
     dict_get "success" n = Some (JBool true) /\
     dict_contains "type" n = true /\
     truthy (dict_get_default "output" n JNull) = true /\
     (NoDup (map fst rd) -> dict_get "error" n = None) /\
     (forall k, k <> "success" -> k <> "type" -> k <> "error" ->
                k <> "output" -> dict_get k n = dict_get k rd)).
Proof.
  unfold normalize_grep_no_match. intros H.
  destruct result as [| | | | | |rd]; try (left; now injection H as <- <-).
  destruct command as [| | | |c| |]; try (left; now injection H as <- <-).
  destruct (grep_command_re_search R c) eqn:Hg;
    [|left; now injection H as <- <-].
  destruct (py_int R (dict_get_default "exit_code" rd JNull)) as [code| |] eqn:Hc;
    [|left; now injection H as <- <-|discriminate H].
  destruct (Z.eqb_spec code 1) as [->|Hne]; cbn [negb] in H;
    [|left; now injection H as <- <-].
  match type of H with
  | (if ?b then _ else _) = _ => destruct b; [left; now injection H as <- <-|]
  end.
  destruct (truthy (dict_get_default "error" rd JNull)) eqn:He;
    [left; now injection H as <- <-|].
  right. injection H as <- <-.
  set (n1 := dict_set "success" (JBool true) rd).
  set (n2 := dict_setdefault "type" (JStr "bash") n1).
  set (n3 := dict_pop "error" n2).
  assert (Hn2 : forall k, k <> "type" -> dict_get k n2 = dict_get k n1).
  { intros k Hk. unfold n2, dict_setdefault.
    destruct (dict_contains "type" n1); [reflexivity|].
    apply dict_get_set_other. congruence. }
  assert (Ht2 : dict_contains "type" n2 = true).
  { unfold n2, dict_setdefault. destruct (dict_contains "type" n1) eqn:E;
      [exact E|]. unfold dict_contains. now rewrite dict_get_set_same. }
  assert (Ht3 : dict_contains "type" n3 = true).
  { unfold dict_contains, n3. rewrite dict_get_pop_other by discriminate.
    exact Ht2. }
  assert (Hs3 : dict_get "success" n3 = Some (JBool true)).
  { unfold n3. rewrite dict_get_pop_other, Hn2 by discriminate.
    apply dict_get_set_same. }
  assert (He3 : NoDup (map fst rd) -> dict_get "error" n3 = None).
  { intros Hnd. apply dict_get_pop_same. unfold n2, dict_setdefault.
    destruct (dict_contains "type" n1); repeat apply dict_set_NoDup; exact Hnd. }
  assert (Hk3 : forall k, k <> "success" -> k <> "type" -> k <> "error" ->
                          dict_get k n3 = dict_get k rd).
  { intros k H1 H2 H3. unfold n3.
    rewrite dict_get_pop_other, Hn2 by congruence.
    apply dict_get_set_other. congruence. }
  exists c, rd. eexists. repeat (split; [reflexivity || assumption|]).
  destruct (truthy (dict_get_default "output" n3 JNull)) eqn:Ho.
  - repeat split; auto.
  - unfold dict_contains, dict_get_default.
    rewrite dict_get_set_same.
    rewrite !dict_get_set_other by discriminate.
    fold (dict_contains "type" n3). repeat split; auto.
    intros k H1 H2 H3 H4. rewrite dict_get_set_other by congruence. auto.
Qed.

Lemma grep_no_match_normalised_witness :
  let R0 := test_runtime (Ok JNull) false in
  let R := {| float_of_int := float_of_int R0; float_of_str := float_of_str R0;
              int_of_str := int_of_str R0; py_repr := py_repr R0;
              str_strip := str_strip R0;
              grep_command_re_search := fun _ => true;
              read_json := read_json R0; resolve_path := resolve_path R0;
              clock := clock R0; perf_elapsed_ns := perf_elapsed_ns R0;
              REPLAY_DEFAULT_EVENTS_PATH := REPLAY_DEFAULT_EVENTS_PATH R0;
              REPLAY_DEFAULT_SPEED := Fin 1; REPLAY_NO_CLIENT_GATE := false |} in
  let result := JObj [("success", JBool false); ("exit_code", JInt 1);
                      ("error", JStr ""); ("output", JStr "")] in
  exists n,
    normalize_grep_no_match R (JStr "grep foo *.txt") result (JBool true)
      = Ok (JObj n, JBool false) /\
    dict_get "success" n = Some (JBool true) /\
    dict_get "error" n = None /\
    dict_get "exit_code" n = Some (JInt 1).
Proof.
  intros R0 R result.
  destruct (normalize_grep_no_match R (JStr "grep foo *.txt") result (JBool true))
    as [[r' e']|msg] eqn:E; [|vm_compute in E; discriminate E].
  destruct (grep_no_match_normalised R _ _ _ E)
    as [[Hr _] | [c [rd [n [_ [Hrd [_ [_ [_ [-> [-> [Hs [_ [_ [He Hk]]]]]]]]]]]]]]].
  - exfalso. subst r'. vm_compute in E. discriminate E.
  - injection Hrd as <-. exists n. split; [reflexivity|]. split; [exact Hs|].
    split.
    + apply He. vm_compute. repeat (constructor; [intros H; vm_compute in H; intuition discriminate|]). constructor.
    + rewrite Hk by discriminate. reflexivity.
Defined.

(** X23.  [normalize_grep_no_match] raises in one case only: the command
    is a grep and the exit code of the result is an infinite float, which
    [int] refuses with an [OverflowError] that the [except] clause of
    line 297 does not catch. *)
Theorem grep_rule_raises_only_on_overflow (R : runtime)
  (command result is_error : json) (msg : string) :
  normalize_grep_no_match R command result is_error = Raise msg <->
  msg = "cannot convert float infinity to integer" /\
  exists c rd,
    command = JStr c /\ result = JObj rd /\
    grep_command_re_search R c = true /\
    (dict_get_default "exit_code" rd JNull = JFloat PosInf \/
     dict_get_default "exit_code" rd JNull = JFloat NegInf).
Proof.
  unfold normalize_grep_no_match. split.
  - destruct result as [| | | | | |rd]; try discriminate.
    destruct command as [| | | |c| |]; try discriminate.
    destruct (grep_command_re_search R c) eqn:Hg; [|discriminate].
    destruct (dict_get_default "exit_code" rd JNull) as [|b|z|[q| | |]|s| |]
      eqn:E; cbn [py_int];
      try discriminate;
      try (intros H; injection H as <-; split; [reflexivity|];
           exists c, rd; auto);
      repeat match goal with
             | |- context [if ?b then _ else _] => destruct b
             | |- context [match int_of_str R s with _ => _ end] =>
                 destruct (int_of_str R s)
             end; discriminate.
  - intros [-> [c [rd [-> [-> [Hg [E | E]]]]]]]; now rewrite Hg, E.
Qed.

Lemma grep_rule_raises_only_on_overflow_witness :
  let R0 := test_runtime (Ok JNull) false in
  let R := {| float_of_int := float_of_int R0; float_of_str := float_of_str R0;
              int_of_str := int_of_str R0; py_repr := py_repr R0;
              str_strip := str_strip R0;
              grep_command_re_search := fun _ => true;
              read_json := read_json R0; resolve_path := resolve_path R0;
              clock := clock R0; perf_elapsed_ns := perf_elapsed_ns R0;
              REPLAY_DEFAULT_EVENTS_PATH := REPLAY_DEFAULT_EVENTS_PATH R0;
              REPLAY_DEFAULT_SPEED := Fin 1; REPLAY_NO_CLIENT_GATE := false |} in
  let d := [("command", JStr "grep x f");
            ("result", JObj [("exit_code", JFloat PosInf)])] in
  normalize_grep_no_match R (JStr "grep x f")
    (JObj [("exit_code", JFloat PosInf)]) (JBool false)
  = Raise "cannot convert float infinity to integer" /\
  terminal_notify R (Ok (JObj d)) (initial_machine R)
  = (Ok (Resp_error 400 None), initial_machine R, []).
Proof.
  intros R0 R d. split; [|reflexivity].
  apply (proj2 (@grep_rule_raises_only_on_overflow R (JStr "grep x f")
                  (JObj [("exit_code", JFloat PosInf)]) (JBool false) _)).
  split; [reflexivity|].
  exists "grep x f", [("exit_code", JFloat PosInf)]. auto.
Defined.

(** ** The delay of an event *)

(** The divisor of line 721 is a positive number or [inf]. *)
Lemma speed_divisor_cases (s : pyfloat) :
  (exists r, speed_or_default s = Fin r /\ (0 < r)%Q) \/
  speed_or_default s = PosInf.
Proof.
  unfold speed_or_default, py_max.
  destruct (fltb (Fin (1 # 20)) (if float_truthy s then s else Fin 1)) eqn:E.
  - destruct (if float_truthy s then s else Fin 1) as [r| | |];
      try discriminate E; [left | now right].
    exists r. split; [reflexivity|]. apply fltb_Fin in E.
    apply Qlt_trans with (1 # 20)%Q; [reflexivity | exact E].
  - left. exists (1 # 20)%Q. split; reflexivity.
Qed.

Lemma py_max_zero (x : pyfloat) :
  py_max (Fin 0) x = Fin 0 \/ (py_max (Fin 0) x = x /\ fltb (Fin 0) x = true).
Proof. unfold py_max. destruct (fltb (Fin 0) x); auto. Qed.

Lemma div_le_div (x y d : Q) : (0 < d)%Q -> (x <= y)%Q -> (x / d <= y / d)%Q.
Proof.
  intros Hd Hxy. unfold Qdiv. apply Qmult_le_compat_r; [exact Hxy|].
  apply Qinv_le_0_compat. now apply Qlt_le_weak.
Qed.

Lemma div_nonpos (x d : Q) : (0 < d)%Q -> (x <= 0)%Q -> (x / d <= 0)%Q.
Proof.
  intros Hd Hx. apply Qle_trans with (0 / d)%Q; [now apply div_le_div|].
  unfold Qdiv. rewrite Qmult_0_l. apply Qle_refl.
Qed.

Lemma py_max_zero_mono (x y : Q) :
  (x <= y)%Q -> fleb (py_max (Fin 0) (Fin x)) (py_max (Fin 0) (Fin y)) = true.
Proof.
  intros Hxy. unfold py_max.
  destruct (fltb (Fin 0) (Fin x)) eqn:Ex; destruct (fltb (Fin 0) (Fin y)) eqn:Ey;
    apply fleb_Fin.
  - exact Hxy.
  - apply fltb_Fin in Ex. apply fltb_Fin_false in Ey.
    exfalso. apply (Qlt_irrefl 0). apply Qlt_le_trans with x; [exact Ex|].
    now apply Qle_trans with y.
  - apply fltb_Fin in Ey. now apply Qlt_le_weak.
  - apply Qle_refl.
Qed.

Lemma fleb_py_max_zero (x : pyfloat) : fleb (Fin 0) (py_max (Fin 0) x) = true.
Proof.
  destruct (py_max_zero x) as [-> | [-> H]]; [reflexivity|].
  unfold fltb, fleb in *. destruct (fcompare (Fin 0) x) as [[| |]|]; congruence.
Qed.

(** X12.  The delay computed for an event is never negative, it is zero
    for an event that is not later than the first one, and a later
    timestamp never gets a shorter delay: the events of a sorted trace are
    scheduled in their order.  This holds of every float, [inf] and [nan]
    included. *)
Theorem target_elapsed_ordered (current_ts later_ts base_ts speed' : pyfloat) :
  fleb (Fin 0) (target_elapsed current_ts base_ts speed') = true /\
  (fleb current_ts base_ts = true ->
   target_elapsed current_ts base_ts speed' = Fin 0) /\
  (fleb current_ts later_ts = true ->
   fleb (target_elapsed current_ts base_ts speed')
        (target_elapsed later_ts base_ts speed') = true).
Proof.
  unfold target_elapsed. split; [apply fleb_py_max_zero|].
  destruct (speed_divisor_cases speed') as [[r [-> Hr]] | ->].
  - assert (Hr' : Qle_bool 0 r = true)
      by (apply Qle_bool_iff; now apply Qlt_le_weak).
    split.
    + destruct current_ts as [c| | |], base_ts as [b| | |];
        try discriminate; intros Hle; cbn [fsub fdiv]; rewrite ?Hr';
        try reflexivity.
      apply fleb_Fin in Hle. unfold py_max.
      assert (H : fltb (Fin 0) (Fin ((c - b) / r)) = false).
      { apply fltb_Fin_false. apply div_nonpos; [exact Hr|].
        apply Qplus_le_l with b. ring_simplify. exact Hle. }
      now rewrite H.
    + destruct current_ts as [c| | |], later_ts as [l| | |], base_ts as [b| | |];
        try discriminate; intros Hle; cbn [fsub fdiv]; rewrite ?Hr';
        try reflexivity;
        try (unfold py_max;
             match goal with
             | |- context [fltb (Fin 0) (Fin ?z)] =>
                 destruct (fltb (Fin 0) (Fin z)); reflexivity
             end).
      all: try (apply fleb_py_max_zero).
      apply fleb_Fin in Hle. apply py_max_zero_mono. apply div_le_div; [exact Hr|].
      apply Qplus_le_l with b. ring_simplify. exact Hle.
  - split.
    + destruct current_ts as [c| | |], base_ts as [b| | |];
        try discriminate; intros Hle; reflexivity.
    + destruct current_ts as [c| | |], later_ts as [l| | |], base_ts as [b| | |];
        try discriminate; intros Hle; reflexivity.
Qed.

Lemma target_elapsed_ordered_witness :
  target_elapsed (Fin 3) (Fin 5) (Fin 10) = Fin 0 /\
  fleb (target_elapsed (Fin 6) (Fin 5) (Fin 10))
       (target_elapsed PosInf (Fin 5) (Fin 10)) = true.
Proof.
  destruct (target_elapsed_ordered (Fin 3) (Fin 3) (Fin 5) (Fin 10)) as [_ [H _]].
  destruct (target_elapsed_ordered (Fin 6) PosInf (Fin 5) (Fin 10)) as [_ [_ H']].
  split; [apply H | apply H']; reflexivity.
Defined.




(** ** Observers *)

Lemma clients_kept_nil (m : machine) : clients_kept m [] m.
Proof. reflexivity. Qed.

Lemma clients_kept_app (m : machine) (o1 : list emission) (m1 : machine)
  (o2 : list emission) (m2 : machine) :
  clients_kept m o1 m1 -> clients_kept m1 o2 m2 -> clients_kept m (o1 ++ o2) m2.
Proof. unfold clients_kept. congruence. Qed.

Ltac clients_leaf :=
  first [ intros ?m ?r ?m' ?out ?H;
          match goal with
          | H : _ = (_, _, _) |- _ => injection H as _ <- <-
          end
        | intros ?m ];
  reflexivity.

Lemma other_actions_keep_clients (R : runtime) (a : action) :
  a <> Act_connect -> a <> Act_disconnect -> sat clients_kept (perform R a).
Proof.
  intros Hc Hd. destruct a; try contradiction; unfold perform;
    [ apply (sat_thread_step clients_kept_nil);
      [ intros t | intros ? ? ? ? ? Hk; exact Hk ]
    | .. ];
    unfold_operations;
    repeat sat_step clients_kept_nil clients_kept_app; clients_leaf.
Qed.

Lemma perform_clients (R : runtime) (a : action) (m m' : machine)
  (r : outcome unit) (out : list emission) :
  perform R a m = (r, m', out) ->
  replay_connected_clients m' = count_after [a] (replay_connected_clients m).
Proof.
  intros H.
  assert (Hk : a <> Act_connect -> a <> Act_disconnect ->
               replay_connected_clients m' = replay_connected_clients m).
  { intros Hc Hd. exact (@other_actions_keep_clients R a Hc Hd _ _ _ _ H). }
  destruct a; cbn [count_after fold_left];
    try (apply Hk; discriminate);
    injection H as _ <- <-; reflexivity.
Qed.

(** X14.  Only connects and disconnects move the count of connected
    observers: after any schedule the count is the one got by adding one
    per connect and taking one off per disconnect, never going below
    zero; so a count that is not negative stays so. *)
Theorem presence_count_follows (R : runtime) (schedule : list action)
  (m m' : machine) (trace : list (action * emission)) :
  exec R schedule m = (m', trace) ->
  replay_connected_clients m' =
    count_after schedule (replay_connected_clients m) /\
  ((0 <= replay_connected_clients m)%Z -> (0 <= replay_connected_clients m')%Z).
Proof.
  revert m m' trace.
  induction schedule as [|a rest IH]; intros m m' trace Hexec.
  - injection Hexec as <- <-. split; [reflexivity | auto].
  - simpl in Hexec.
    destruct (perform R a m) as [[r m1] out1] eqn:Hp.
    destruct (exec R rest m1) as [m2 out2] eqn:He.
    injection Hexec as <- <-.
    apply perform_clients in Hp. destruct (IH _ _ _ He) as [Hc Hnn].
    split.
    + rewrite Hc, Hp. reflexivity.
    + intros H0. apply Hnn. rewrite Hp. cbn.
      destruct a; try exact H0; lia.
Qed.

Lemma presence_count_follows_witness :
  let R := test_runtime (Ok JNull) false in
  let schedule := [Act_disconnect; Act_connect; Act_replay_stop; Act_connect;
                   Act_disconnect; Act_disconnect; Act_disconnect] in
  replay_connected_clients (fst (exec R schedule (initial_machine R))) = 0%Z.
Proof.
  intros R schedule.
  destruct (@presence_count_follows R schedule (initial_machine R)
              (fst (exec R schedule (initial_machine R)))
              (snd (exec R schedule (initial_machine R))))
    as [H _].
  - apply surjective_pairing.
  - rewrite H. reflexivity.
Defined.

(** X15.  A connecting observer is counted and is sent two messages: the
    most recent history, at most 20 entries and the last 20 when there are
    more, in order, and the replay state as it is; nothing else
    changes. *)
Theorem connect_greets_with_recent_history (m : machine) :
  exists recent m',
    handle_connect m =
      (Ok tt, m', [Emit_connected recent; Emit_replay_state (replay_state m)]) /\
    (exists older, command_history m = older ++ recent) /\
    List.length recent = Nat.min 20 (List.length (command_history m)) /\
    replay_connected_clients m' = (replay_connected_clients m + 1)%Z /\
    replay_state m' = replay_state m /\
    command_history m' = command_history m /\
    threads m' = threads m.
Proof.
  do 2 eexists. split; [reflexivity|].
  cbn [command_history with_clients replay_state replay_connected_clients
       threads].
  unfold last_20. split; [|split].
  - exists (firstn (List.length (command_history m) - 20) (command_history m)).
    symmetry. apply firstn_skipn.
  - rewrite length_skipn. lia.
  - repeat split.
Qed.

(** ** The sleep *)




(** The delay of an event is a number that is not negative, or [inf]. *)
Lemma target_elapsed_range (c b s : pyfloat) :
  (exists q, target_elapsed c b s = Fin q /\ (0 <= q)%Q) \/
  target_elapsed c b s = PosInf.
Proof.
  unfold target_elapsed.
  destruct (py_max_zero (fdiv (fsub c b) (speed_or_default s)))
    as [-> | [-> H]].
  - left. exists 0%Q. split; [reflexivity | apply Qle_refl].
  - destruct (fdiv (fsub c b) (speed_or_default s)) as [q| | |];
      try discriminate H; [left | now right].
    exists q. split; [reflexivity|]. apply fltb_Fin in H.
    now apply Qlt_le_weak.
Qed.

(** The sleep of line 724 passes or raises the overflow error. *)
Lemma sleep_until_outcome (R : runtime) (c b s : pyfloat) (sid : Z)
  (idx : nat) :
  sleep_until R (target_elapsed c b s) sid idx = Ok tt \/
  sleep_until R (target_elapsed c b s) sid idx
  = Raise "timestamp too large to convert to C _PyTime_t".
Proof.
  destruct (target_elapsed_range c b s) as [[q [-> Hq]] | ->];
    unfold sleep_until; cbn [fsub]; [|now right].
  destruct (fltb (Fin 0) (Fin (q - perf_elapsed R sid idx))) eqn:E;
    [|now left].
  cbn [time_sleep].
  destruct (Qle_bool SLEEP_MAX (Qabs (q - perf_elapsed R sid idx)));
    [now right|].
  apply fltb_Fin in E.
  assert (H : Qle_bool 0 (q - perf_elapsed R sid idx) = true)
    by (apply Qle_bool_iff; now apply Qlt_le_weak).
  rewrite H. now left.
Qed.

(** ** The presence check *)

Lemma float_of_timestamp (R : runtime) (event : pydict) (dflt x : pyfloat) :
  dict_get "timestamp" event = Some (JFloat x) ->
  py_float R (dict_get_default "timestamp" event (JFloat dflt)) = Some x.
Proof. intros Hx. unfold dict_get_default. now rewrite Hx. Qed.





(** ** Workers in order *)

Ltac step_leaf :=
  do 3 eexists; (split; [reflexivity|]); cbn;
  repeat split; auto; try discriminate;
  try (constructor; [cbn; auto | constructor]);
  try congruence; try (repeat split; congruence).

(** A step of a worker in order returns, the worker still in order and
    with its epoch, path and events, or it raises in the sleep, having
    changed and sent nothing; what it sends is marked as its own. *)
Lemma worker_step_ok (R : runtime) (t : worker) (m : machine) :
  worker_ok t ->
  exists r m' out,
    worker_step R t m = (r, m', out) /\
    Forall (worker_message (w_session_id t) (w_events_path t) (w_events t))
           out /\
    match r with
    | Ok t' =>
        worker_ok t' /\
        w_session_id t' = w_session_id t /\
        w_events_path t' = w_events_path t /\
        w_events t' = w_events t
    | Raise msg =>
        w_pc t = AtSleep /\ m' = m /\ out = [] /\
        msg = "timestamp too large to convert to C _PyTime_t"
    end.
Proof.
  intros [Hfl Hev].
  destruct t as [sid path evs sp base idx ev cur p].
  unfold at_its_event in Hev. cbn in Hfl, Hev.
  assert (Hin : forall e, In e evs -> has_float_timestamp e)
    by now apply Forall_forall.
  destruct p; unfold worker_step, worker_ok, at_its_event;
    cbn [w_pc w_events w_idx w_event w_base_ts w_session_id w_events_path
         w_speed].
  - destruct evs as [|first rest]; [step_leaf|].
    destruct (Hin first (or_introl eq_refl)) as [x Hx].
    rewrite (float_of_timestamp R first (Fin 0) Hx). step_leaf.
  - destruct (nth_error evs idx) as [event|] eqn:E; run_code;
      [destruct (session_inactive sid (replay_state m))|]; step_leaf.
  - destruct (Hin ev (nth_error_In _ _ Hev)) as [x Hx].
    rewrite (float_of_timestamp R ev base Hx). unfold bind, lift.
    destruct (sleep_until_outcome R x base sp sid idx) as [-> | ->];
      step_leaf.
  - run_code. destruct (session_inactive sid (replay_state m)); step_leaf.
  - run_code. destruct (session_inactive sid (replay_state m));
      [|destruct (REPLAY_NO_CLIENT_GATE R)]; step_leaf.
  - run_code. destruct (0 <? replay_connected_clients m)%Z; step_leaf.
  - run_code. step_leaf.
  - run_code. step_leaf.
  - run_code. step_leaf.
  - run_code. step_leaf.
  - step_leaf.
  - step_leaf.
  - step_leaf.
Qed.

(** ** The pool of workers *)

Lemma nth_error_split_at {A : Type} (l : list A) (j : nat) (x : A) :
  nth_error l j = Some x -> l = firstn j l ++ x :: skipn (S j) l.
Proof.
  revert j. induction l as [|y l IH]; intros [|j] H; try discriminate.
  - injection H as ->. reflexivity.
  - cbn [firstn skipn app]. f_equal. now apply IH.
Qed.

Lemma spawned_nil (m : machine) : spawned m [] m.
Proof.
  split; [apply Z.le_refl|]. exists []. rewrite app_nil_r.
  repeat split; constructor.
Qed.

Lemma spawned_app (m : machine) (o1 : list emission) (m1 : machine)
  (o2 : list emission) (m2 : machine) :
  spawned m o1 m1 -> spawned m1 o2 m2 -> spawned m (o1 ++ o2) m2.
Proof.
  intros [H1 [e1 [T1 [S1 F1]]]] [H2 [e2 [T2 [S2 F2]]]].
  split; [now apply Z.le_trans with (1 := H1)|].
  exists (e1 ++ e2). rewrite T2, T1, app_assoc. split; [reflexivity|].
  rewrite Forall_forall in F1, F2. split.
  - rewrite map_app. apply sorted_app; [exact S1 | exact S2|].
    intros a b Ha Hb.
    apply in_map_iff in Ha as [ta [<- Ha]]. apply in_map_iff in Hb as [tb [<- Hb]].
    destruct (F1 _ Ha) as [? _]. destruct (F2 _ Hb) as [? _]. lia.
  - apply Forall_app. split; apply Forall_forall; intros t Ht.
    + destruct (F1 _ Ht) as [? Hok]. split; [lia | exact Hok].
    + destruct (F2 _ Ht) as [? Hok]. split; [lia | exact Hok].
Qed.

Lemma start_spawned (R : runtime) (path : string) (speed' : pyfloat) :
  sat spawned (_start_replay_session R path speed').
Proof.
  intros m r m' out H.
  destruct (_load_replay_events R path) as [[|first rest]|msg] eqn:E.
  - rewrite (@start_session_fails R path speed' m "events file is empty") in H
      by (right; now split).
    injection H as _ <- <-. apply spawned_nil.
  - rewrite (@start_session_runs R path speed' m first rest E) in H.
    injection H as _ <- <-.
    pose proof (loaded_events_have_float_timestamps R path E) as Hfl.
    destruct m as [[r0 c i p v t n l ts sa fa e] h cl tk th].
    unfold spawned. cbn. split; [lia|]. eexists. split; [reflexivity|].
    split; [repeat constructor|]. constructor; [|constructor].
    cbn. split; [lia|]. split; [exact Hfl | exact I].
  - rewrite (@start_session_fails R path speed' m msg) in H by now left.
    injection H as _ <- <-. apply spawned_nil.
Qed.

Ltac unfold_handlers :=
  unfold replay_start, replay_stop, replay_status, handle_connect,
    handle_disconnect, terminal_notify, log_command,
    _stop_replay_session, _update_replay_state,
    _emit_replay_state, _replay_state_snapshot, _timestamp_payload.

Ltac spawned_leaf :=
  first
    [ apply start_spawned
    | first [ intros ?m ?r ?m' ?out ?H;
              match goal with
              | H : _ = (_, _, _) |- _ => injection H as _ <- <-
              end
            | intros ?m ];
      open_machine; unfold spawned; cbn;
      (split; [first [reflexivity | lia]|]);
      exists []; rewrite app_nil_r; repeat split; cbn; constructor ].

Lemma handler_spawned (R : runtime) (a : action) :
  (forall i, a <> Act_worker i) -> sat spawned (perform R a).
Proof.
  intros Ha. destruct a; unfold perform; [now contradiction (Ha i)|..];
    unfold_handlers;
    repeat first [apply start_spawned | sat_step spawned_nil spawned_app];
    spawned_leaf.
Qed.

(** Every action keeps the pool in order. *)
Lemma perform_pool_ok (R : runtime) (a : action) (m m' : machine)
  (r : outcome unit) (out : list emission) :
  pool_ok m -> perform R a m = (r, m', out) -> pool_ok m'.
Proof.
  intros [Hs [Hb Hok]] Hp.
  assert (Hh : (forall i, a <> Act_worker i) -> pool_ok m').
  { intros Ha.
    destruct (@handler_spawned R a Ha _ _ _ _ Hp) as [Hle [extra [Ht [Hse Hfe]]]].
    rewrite Forall_forall in Hb, Hok, Hfe.
    unfold pool_ok. rewrite Ht. split; [|split].
    - rewrite map_app. apply sorted_app; [exact Hs | exact Hse|].
      intros x y Hx Hy.
      apply in_map_iff in Hx as [tx [<- Hx]].
      apply in_map_iff in Hy as [ty [<- Hy]].
      specialize (Hb _ Hx). destruct (Hfe _ Hy) as [? _]. lia.
    - apply Forall_app. split; apply Forall_forall; intros t Hin.
      + specialize (Hb _ Hin). lia.
      + destruct (Hfe _ Hin) as [? _]. lia.
    - apply Forall_app. split; apply Forall_forall; intros t Hin.
      + now apply Hok.
      + now destruct (Hfe _ Hin). }
  destruct a as [j| | | | | | |]; try (apply Hh; intros; discriminate).
  clear Hh. cbn in Hp. unfold thread_step in Hp.
  destruct (nth_error (threads m) j) as [tj|] eqn:Hj;
    [|injection Hp as _ <- <-; repeat split; assumption].
  assert (Hokj : worker_ok tj).
  { rewrite Forall_forall in Hok. apply Hok. eapply nth_error_In; eauto. }
  destruct (@worker_step_ok R tj m Hokj) as [r' [m1 [o [Hstep [_ Hr]]]]].
  rewrite Hstep in Hp.
  destruct (@worker_step_session_kept R tj _ _ _ _ Hstep) as [Hsess Hth].
  assert (Hnew : exists t', m' = set_thread j t' m1 /\ worker_ok t' /\
                            w_session_id t' = w_session_id tj).
  { destruct r' as [t'|msg]; injection Hp as _ <- _.
    - exists t'. destruct Hr as [Hok' [Hsid _]]. auto.
    - exists (worker_at tj Crashed). split; [reflexivity|].
      split; [|reflexivity]. split; [apply Hokj | exact I]. }
  destruct Hnew as [t' [-> [Hok' Hsid]]].
  pose proof (nth_error_split_at _ _ Hj) as Hsplit.
  unfold pool_ok, set_thread. cbn [threads with_threads replay_state].
  rewrite Hth, Hsess. rewrite Hsplit in Hs, Hb, Hok.
  rewrite map_app in Hs |- *. cbn [map] in Hs |- *. rewrite Hsid.
  split; [exact Hs|].
  apply Forall_app in Hb as [Hb1 Hb2]. apply Forall_app in Hok as [Hok1 Hok2].
  inversion Hb2; subst. inversion Hok2; subst.
  split; apply Forall_app; (split; [assumption|]); constructor;
    try assumption. now rewrite Hsid.
Qed.

Lemma exec_pool_ok (R : runtime) (schedule : list action) :
  forall (m m' : machine) (trace : list (action * emission)),
  pool_ok m -> exec R schedule m = (m', trace) -> pool_ok m'.
Proof.
  induction schedule as [|a rest IH]; intros m m' trace Hok Hexec.
  - now injection Hexec as <- <-.
  - simpl in Hexec.
    destruct (perform R a m) as [[r m1] out1] eqn:Hp.
    destruct (exec R rest m1) as [m2 out2] eqn:He.
    injection Hexec as <- <-.
    apply (IH _ _ _ (@perform_pool_ok R a m m1 r out1 Hok Hp) He).
Qed.

Lemma initial_pool_ok (R : runtime) : pool_ok (initial_machine R).
Proof. repeat split; constructor. Qed.

(** X17.  Epochs are never reused: in every machine the process can
    reach, a worker spawned later is bound to a strictly greater epoch than
    every worker spawned before it, and no worker is bound to an epoch
    beyond the current one. *)
Theorem worker_epochs_never_reused (R : runtime) (schedule : list action)
  (m' : machine) (trace : list (action * emission)) :
  exec R schedule (initial_machine R) = (m', trace) ->
  (forall i j ti tj, i < j ->
     nth_error (threads m') i = Some ti ->
     nth_error (threads m') j = Some tj ->
     (w_session_id ti < w_session_id tj)%Z) /\
  (forall t, In t (threads m') ->
     (w_session_id t <= session_id (replay_state m'))%Z).
Proof.
  intros Hexec.
  destruct (@exec_pool_ok R schedule _ _ _ (initial_pool_ok R) Hexec)
    as [Hs [Hb _]].
  split.
  - intros i j ti tj Hij Hi Hj.
    apply (@StronglySorted_nth_error _ _ _ Hs i j _ _ Hij);
      rewrite nth_error_map; [now rewrite Hi | now rewrite Hj].
  - now apply Forall_forall.
Qed.

Lemma worker_epochs_never_reused_witness :
  let R := test_runtime (Ok (JArr [JObj [("timestamp", JInt 0)]])) false in
  let schedule := [Act_replay_start "a.json" JNull; Act_worker 0;
                   Act_replay_stop; Act_replay_start "a.json" JNull;
                   Act_replay_start "a.json" JNull] in
  let m' := fst (exec R schedule (initial_machine R)) in
  map w_session_id (threads m') = [1%Z; 3%Z; 5%Z] /\
  (forall i j ti tj, i < j ->
     nth_error (threads m') i = Some ti ->
     nth_error (threads m') j = Some tj ->
     (w_session_id ti < w_session_id tj)%Z) /\
  (forall t, In t (threads m') ->
     (w_session_id t <= session_id (replay_state m'))%Z).
Proof.
  intros R schedule m'. split; [reflexivity|].
  apply (@worker_epochs_never_reused R schedule m'
           (snd (exec R schedule (initial_machine R)))).
  apply surjective_pairing.
Defined.

(** X18.  A replay worker can die of an exception in one place only:
    in every machine the process can reach, the next step of each worker
    returns normally, or the worker stands at the sleep of line 724 and
    [time.sleep] raises its overflow error, the machine unchanged and
    nothing sent. *)
Theorem workers_die_only_in_sleep (R : runtime) (schedule : list action)
  (m' : machine) (trace : list (action * emission)) :
  exec R schedule (initial_machine R) = (m', trace) ->
  forall t, In t (threads m') ->
    (exists t' m2 out, worker_step R t m' = (Ok t', m2, out)) \/
    (w_pc t = AtSleep /\
     worker_step R t m'
     = (Raise "timestamp too large to convert to C _PyTime_t", m', [])).
Proof.
  intros Hexec t Hin.
  destruct (@exec_pool_ok R schedule _ _ _ (initial_pool_ok R) Hexec)
    as [_ [_ Hok]].
  rewrite Forall_forall in Hok. specialize (Hok t Hin).
  destruct (@worker_step_ok R t m' Hok) as [[t'|msg] [m2 [out [Hstep [_ Hr]]]]].
  - left. now exists t', m2, out.
  - right. destruct Hr as [Hpc [-> [-> ->]]]. now split.
Qed.

Lemma workers_die_only_in_sleep_witness :
  let R := test_runtime
             (Ok (JArr [JObj []; JObj [("timestamp", JInt 1700000000000)]]))
             true in
  let schedule := [Act_replay_start "a.json" JNull;
                   Act_worker 0; Act_worker 0; Act_worker 0; Act_worker 0;
                   Act_worker 0; Act_worker 0; Act_worker 0; Act_worker 0;
                   Act_worker 0] in
  let m' := fst (exec R schedule (initial_machine R)) in
  map w_pc (threads m') = [AtSleep] /\
  map (fun t => fst (fst (worker_step R t m'))) (threads m')
  = [Raise "timestamp too large to convert to C _PyTime_t"] /\
  Forall (fun t =>
            (exists t' m2 out, worker_step R t m' = (Ok t', m2, out)) \/
            (w_pc t = AtSleep /\
             worker_step R t m'
             = (Raise "timestamp too large to convert to C _PyTime_t",
                m', [])))
         (threads m').
Proof.
  intros R schedule m'. split; [reflexivity|]. split; [reflexivity|].
  apply Forall_forall. intros t Hin.
  apply (@workers_die_only_in_sleep R schedule m'
           (snd (exec R schedule (initial_machine R)))).
  - apply surjective_pairing.
  - exact Hin.
Defined.

(** A worker keeps its epoch, path and events under every action. *)
Lemma perform_keeps_identity (R : runtime) (a : action) (i : nat) (t : worker)
  (m m' : machine) (r : outcome unit) (out : list emission) :
  pool_ok m ->
  nth_error (threads m) i = Some t ->
  perform R a m = (r, m', out) ->
  (exists t', nth_error (threads m') i = Some t' /\
              w_session_id t' = w_session_id t /\
              w_events_path t' = w_events_path t /\
              w_events t' = w_events t) /\
  Forall (worker_message (w_session_id t) (w_events_path t) (w_events t))
         (sent_by i (map (pair a) out)).
Proof.
  intros [_ [_ Hok]] Hi Hp.
  assert (Hdec : a = Act_worker i \/ a <> Act_worker i).
  { destruct a as [j| | | | | | |]; try (right; discriminate).
    destruct (Nat.eq_dec j i) as [->|]; [now left | right; congruence]. }
  destruct Hdec as [->|Hother].
  - assert (Hokt : worker_ok t).
    { rewrite Forall_forall in Hok. apply Hok. eapply nth_error_In; eauto. }
    destruct (@worker_step_ok R t m Hokt)
      as [r' [m1 [o [Hstep [Hmsg Hr]]]]].
    cbn in Hp. unfold thread_step in Hp. rewrite Hi, Hstep in Hp.
    destruct (@worker_step_session_kept R t _ _ _ _ Hstep) as [_ Hth].
    destruct r' as [t'|msg]; injection Hp as _ <- <-;
      rewrite sent_by_self; (split; [|exact Hmsg]).
    + destruct Hr as [_ [Hsid [Hpath Hev]]].
      exists t'. split; [|auto].
      apply (@set_thread_same i t' t). now rewrite Hth.
    + exists (worker_at t Crashed). split; [|auto].
      apply (@set_thread_same i (worker_at t Crashed) t). now rewrite Hth.
  - destruct (@perform_keeps_thread R a i t m m' r out Hp Hother Hi) as [Hi' _].
    rewrite (@sent_by_other i a out Hother). split; [|constructor].
    exists t. auto.
Qed.

Lemma exec_keeps_identity (R : runtime) (schedule : list action) :
  forall (m m' : machine) (i : nat) (t : worker)
         (trace : list (action * emission)),
  pool_ok m ->
  nth_error (threads m) i = Some t ->
  exec R schedule m = (m', trace) ->
  (exists t', nth_error (threads m') i = Some t' /\
              w_session_id t' = w_session_id t /\
              w_events_path t' = w_events_path t /\
              w_events t' = w_events t) /\
  Forall (worker_message (w_session_id t) (w_events_path t) (w_events t))
         (sent_by i trace).
Proof.
  induction schedule as [|a rest IH]; intros m m' i t trace Hok Hi Hexec.
  - injection Hexec as <- <-. split; [exists t; auto | constructor].
  - simpl in Hexec.
    destruct (perform R a m) as [[r m1] out1] eqn:Hp.
    destruct (exec R rest m1) as [m2 out2] eqn:He.
    injection Hexec as <- <-.
    destruct (@perform_keeps_identity R a i t m m1 r out1 Hok Hi Hp)
      as [[t1 [Hi1 [Hs1 [Hp1 He1]]]] Hm1].
    destruct (IH _ _ i t1 _ (@perform_pool_ok R a m m1 r out1 Hok Hp) Hi1 He)
      as [[t' [Hi' [Hs' [Hp' He']]]] Hm'].
    rewrite Hs1, Hp1, He1 in Hm'. split.
    + exists t'. repeat split; congruence.
    + rewrite sent_by_app. apply Forall_app. split; assumption.
Qed.

(** A thread that does not exist yet sends nothing. *)
Lemma absent_thread_silent (R : runtime) (a : action) (i : nat)
  (m m' : machine) (r : outcome unit) (out : list emission) :
  nth_error (threads m) i = None ->
  perform R a m = (r, m', out) ->
  sent_by i (map (pair a) out) = [].
Proof.
  intros Hi Hp.
  assert (Hdec : a = Act_worker i \/ a <> Act_worker i).
  { destruct a as [j| | | | | | |]; try (right; discriminate).
    destruct (Nat.eq_dec j i) as [->|]; [now left | right; congruence]. }
  destruct Hdec as [->|Hother]; [|now apply sent_by_other].
  cbn in Hp. unfold thread_step in Hp. rewrite Hi in Hp.
  now injection Hp as _ _ <-.
Qed.

Lemma exec_messages_own (R : runtime) (schedule : list action) :
  forall (m m' : machine) (i : nat) (t' : worker)
         (trace : list (action * emission)),
  pool_ok m ->
  exec R schedule m = (m', trace) ->
  nth_error (threads m') i = Some t' ->
  Forall (worker_message (w_session_id t') (w_events_path t') (w_events t'))
         (sent_by i trace).
Proof.
  induction schedule as [|a rest IH]; intros m m' i t' trace Hok Hexec Hi'.
  - injection Hexec as <- <-. constructor.
  - pose proof Hexec as Hwhole. simpl in Hexec.
    destruct (perform R a m) as [[r m1] out1] eqn:Hp.
    destruct (exec R rest m1) as [m2 out2] eqn:He.
    injection Hexec as <- <-.
    destruct (nth_error (threads m) i) as [t|] eqn:Hi.
    + destruct (@exec_keeps_identity R (a :: rest) _ _ i t _ Hok Hi Hwhole)
        as [[t2 [Hi2 [Hs [Hpa Hev]]]] Hmsg].
      rewrite Hi' in Hi2. injection Hi2 as <-. now rewrite Hs, Hpa, Hev.
    + rewrite sent_by_app, (@absent_thread_silent R a i m m1 r out1 Hi Hp). cbn.
      apply (IH _ _ i t' _ (@perform_pool_ok R a m m1 r out1 Hok Hp) He Hi').
Qed.

(** X19.  What a worker sends is its own: under any schedule, every event
    message of a worker carries the epoch, path and event count that
    worker was started with, and the event is the one its trace has at the
    index the message gives; every history entry it appends is marked as
    coming from the agent and as no error. *)
Theorem worker_messages_are_its_own (R : runtime) (schedule : list action)
  (m' : machine) (trace : list (action * emission)) (i : nat) (t : worker) :
  exec R schedule (initial_machine R) = (m', trace) ->
  nth_error (threads m') i = Some t ->
  Forall (worker_message (w_session_id t) (w_events_path t) (w_events t))
         (sent_by i trace).
Proof.
  intros Hexec Hi.
  exact (@exec_messages_own R schedule _ _ i t _ (initial_pool_ok R) Hexec Hi).
Qed.

Lemma worker_messages_are_its_own_witness :
  let R := test_runtime
             (Ok (JArr [JObj [("timestamp", JInt 0)];
                        JObj [("timestamp", JInt 1)]])) true in
  let schedule := [Act_replay_start "a.json" JNull;
                   Act_worker 0; Act_worker 0; Act_worker 0; Act_worker 0;
                   Act_worker 0; Act_worker 0; Act_worker 0; Act_worker 0;
                   Act_replay_start "b.json" JNull;
                   Act_worker 0; Act_worker 1; Act_worker 0] in
  let run := exec R schedule (initial_machine R) in
  exists t, nth_error (threads (fst run)) 0 = Some t /\
            sent_by 0 (snd run) <> [] /\
            Forall (worker_message (w_session_id t) (w_events_path t)
                                   (w_events t))
                   (sent_by 0 (snd run)).
Proof.
  intros R schedule run.
  destruct (nth_error (threads (fst run)) 0) as [t|] eqn:Hi;
    [|vm_compute in Hi; discriminate].
  exists t. split; [reflexivity|]. split; [vm_compute; discriminate|].
  apply (@worker_messages_are_its_own R schedule (fst run) (snd run) 0 t).
  - apply surjective_pairing.
  - exact Hi.
Defined.

(** X20.  At most one worker is current: in every machine the process can
    reach, two workers bound to the current epoch are the same thread. *)
Theorem at_most_one_current_worker (R : runtime) (schedule : list action)
  (m' : machine) (trace : list (action * emission)) (i j : nat)
  (ti tj : worker) :
  exec R schedule (initial_machine R) = (m', trace) ->
  nth_error (threads m') i = Some ti ->
  nth_error (threads m') j = Some tj ->
  w_session_id ti = session_id (replay_state m') ->
  w_session_id tj = session_id (replay_state m') ->
  i = j.
Proof.
  intros Hexec Hi Hj Hsi Hsj.
  destruct (@exec_pool_ok R schedule _ _ _ (initial_pool_ok R) Hexec)
    as [Hs _].
  assert (Hti : nth_error (map w_session_id (threads m')) i
                = Some (w_session_id ti)) by (now rewrite nth_error_map, Hi).
  assert (Htj : nth_error (map w_session_id (threads m')) j
                = Some (w_session_id tj)) by (now rewrite nth_error_map, Hj).
  destruct (Nat.lt_trichotomy i j) as [Hlt|[Heq|Hlt]]; [|exact Heq|].
  - pose proof (@StronglySorted_nth_error _ _ _ Hs i j _ _ Hlt Hti Htj). lia.
  - pose proof (@StronglySorted_nth_error _ _ _ Hs j i _ _ Hlt Htj Hti). lia.
Qed.

Lemma at_most_one_current_worker_witness :
  let R := test_runtime (Ok (JArr [JObj [("timestamp", JInt 0)]])) false in
  let schedule := [Act_replay_start "a.json" JNull;
                   Act_replay_start "b.json" JNull] in
  let m' := fst (exec R schedule (initial_machine R)) in
  exists t, nth_error (threads m') 1 = Some t /\
            w_session_id t = session_id (replay_state m') /\
            1 = 1.
Proof.
  intros R schedule m'.
  destruct (nth_error (threads m') 1) as [t|] eqn:Hi;
    [|vm_compute in Hi; discriminate].
  exists t. split; [reflexivity|].
  assert (Hs : w_session_id t = session_id (replay_state m'))
    by (vm_compute in Hi; injection Hi as <-; reflexivity).
  split; [exact Hs|].
  apply (@at_most_one_current_worker R schedule m'
           (snd (exec R schedule (initial_machine R))) 1 1 t t).
  - apply surjective_pairing.
  - exact Hi.
  - exact Hi.
  - exact Hs.
  - exact Hs.
Defined.

(** X21.  A stop request supersedes every worker: in whatever machine the
    process has reached, after a stop request every worker is bound to an
    epoch below the current one. *)
Theorem stop_supersedes_every_worker (R : runtime) (schedule : list action)
  (m m' : machine) (trace : list (action * emission)) (r : outcome unit)
  (out : list emission) :
  exec R schedule (initial_machine R) = (m, trace) ->
  perform R Act_replay_stop m = (r, m', out) ->
  forall t, In t (threads m') ->
            (w_session_id t < session_id (replay_state m'))%Z.
Proof.
  intros Hexec Hp t Hin.
  destruct (@exec_pool_ok R schedule _ _ _ (initial_pool_ok R) Hexec)
    as [_ [Hb _]].
  rewrite Forall_forall in Hb.
  destruct m as [[rn c i pa v tot n l ts sa fa e] h cl tk th].
  cbn in Hp. injection Hp as _ <- _. cbn in Hin |- *.
  specialize (Hb t Hin). cbn in Hb. lia.
Qed.

Lemma stop_supersedes_every_worker_witness :
  let R := test_runtime (Ok (JArr [JObj [("timestamp", JInt 0)]])) false in
  let schedule := [Act_replay_start "a.json" JNull; Act_worker 0;
                   Act_replay_start "b.json" JNull] in
  let m := fst (exec R schedule (initial_machine R)) in
  let m' := snd (fst (perform R Act_replay_stop m)) in
  List.length (threads m') = 2 /\
  forall t, In t (threads m') ->
            (w_session_id t < session_id (replay_state m'))%Z.
Proof.
  intros R schedule m m'. split; [reflexivity|].
  apply (@stop_supersedes_every_worker R schedule m m'
           (snd (exec R schedule (initial_machine R)))
           (fst (fst (perform R Act_replay_stop m)))
           (snd (perform R Act_replay_stop m))).
  - apply surjective_pairing.
  - reflexivity.
Defined.

(** ** Data paths *)

Lemma rstrip_char_last (c : Ascii.ascii) (s : string) :
  last_char (rstrip_char c s) <> Some c.
Proof.
  induction s as [|x rest IH]; cbn; [discriminate|].
  destruct (rstrip_char c rest) as [|y kept] eqn:Hr.
  - destruct (Ascii.eqb x c) eqn:Hx; cbn; [discriminate|].
    apply Ascii.eqb_neq in Hx. congruence.
  - exact IH.
Qed.

Lemma rstrip_char_first (c : Ascii.ascii) (s : string) :
  String.get 0 s <> Some c -> String.get 0 (rstrip_char c s) <> Some c.
Proof.
  destruct s as [|x rest]; cbn; [discriminate|]. intros Hx.
  destruct (rstrip_char c rest); [|exact Hx].
  destruct (Ascii.eqb x c); cbn; [discriminate | exact Hx].
Qed.

Lemma lstrip_char_first (c : Ascii.ascii) (s : string) :
  String.get 0 (lstrip_char c s) <> Some c.
Proof.
  induction s as [|x rest IH]; cbn; [discriminate|].
  destruct (Ascii.eqb x c) eqn:Hx; [exact IH|].
  apply Ascii.eqb_neq in Hx. cbn. congruence.
Qed.

Lemma prefix_slash (s : string) :
  String.prefix "/" s = false -> String.get 0 s <> Some slash.
Proof.
  intros H Hget. destruct s as [|x rest]; [discriminate|].
  cbn in Hget. injection Hget as ->.
  destruct rest; vm_compute in H; discriminate.
Qed.

Lemma replace_char_gone (a b : Ascii.ascii) (s : string) :
  a <> b -> ~ In a (list_ascii_of_string (replace_char a b s)).
Proof.
  intros Hab. induction s as [|x rest IH]; cbn; [tauto|].
  intros [H|H]; [|now apply IH].
  destruct (Ascii.eqb x a) eqn:Hx; [congruence|].
  apply Ascii.eqb_neq in Hx. congruence.
Qed.

Lemma drop_In (c : Ascii.ascii) (n : nat) :
  forall s, In c (list_ascii_of_string (drop n s)) ->
            In c (list_ascii_of_string s).
Proof.
  induction n as [|n IH]; intros [|x rest]; cbn; auto.
Qed.

Lemma lstrip_char_In (c d : Ascii.ascii) (s : string) :
  In c (list_ascii_of_string (lstrip_char d s)) ->
  In c (list_ascii_of_string s).
Proof.
  induction s as [|x rest IH]; cbn; auto.
  destruct (Ascii.eqb x d); cbn; auto.
Qed.

Lemma rstrip_char_In (c d : Ascii.ascii) (s : string) :
  In c (list_ascii_of_string (rstrip_char d s)) ->
  In c (list_ascii_of_string s).
Proof.
  induction s as [|x rest IH]; cbn; auto.
  destruct (rstrip_char d rest) as [|y kept].
  - destruct (Ascii.eqb x d); cbn; tauto.
  - cbn in *. tauto.
Qed.

(** X22.  A normalised data path is relative and clean: whenever
    [normalize_data_relative_path] returns, what it returns neither begins
    nor ends with a slash and holds no backslash, whatever [str.strip]
    does. *)
Theorem normalized_path_is_relative (R : runtime) (value : json) (p : string) :
  normalize_data_relative_path R value = Ok p ->
  String.get 0 p <> Some slash /\
  last_char p <> Some slash /\
  ~ In backslash (list_ascii_of_string p).
Proof.
  unfold normalize_data_relative_path.
  destruct (strip_outer_quotes R _) as [| | | |unquoted| |]; try discriminate.
  destruct (String.eqb (str_strip R unquoted) "");
    [intros H; injection H as <-; cbn; repeat split; try discriminate; tauto|].
  set (raw := replace_char backslash slash (str_strip R unquoted)).
  assert (Hraw : ~ In backslash (list_ascii_of_string raw))
    by (apply replace_char_gone; discriminate).
  destruct (_ || _);
    [intros H; injection H as <-; cbn; repeat split; try discriminate; tauto|].
  set (cut := if String.prefix "/hippocamp/data/" raw then _ else _).
  assert (Hcut : ~ In backslash (list_ascii_of_string cut)).
  { subst cut. repeat destruct (String.prefix _ raw); try exact Hraw;
      intros H; apply drop_In in H; now apply Hraw. }
  intros H. injection H as <-. split; [|split].
  - apply rstrip_char_first.
    destruct (String.prefix "/" cut) eqn:Hp;
      [apply lstrip_char_first | now apply prefix_slash].
  - apply rstrip_char_last.
  - intros H. apply rstrip_char_In in H.
    destruct (String.prefix "/" cut); [apply lstrip_char_In in H|]; now apply Hcut.
Qed.

Lemma normalized_path_is_relative_witness :
  let R := test_runtime (Ok JNull) false in
  normalize_data_relative_path R (JStr "'/hippocamp/data//notes\2024\'")
  = Ok "notes/2024" /\
  String.get 0 "notes/2024" <> Some slash /\
  last_char "notes/2024" <> Some slash /\
  ~ In backslash (list_ascii_of_string "notes/2024").
Proof.
  intros R. split; [reflexivity|].
  apply (@normalized_path_is_relative R
           (JStr "'/hippocamp/data//notes\2024\'") "notes/2024").
  reflexivity.
Defined.

(** * A worker that runs to the end *)


















